(** * NL2Q-Analyst: the orchestration core and the semantic retrieval subsystem

    A shallow embedding of
      - [backend/orchestrators/dynamic_agent_orchestrator.py]
        (default plan, planner fallback, dependency-respecting engine,
        indexing-completeness check), and
      - [backend/agents/openai_vector_matcher.py]
        (batched embedding, cache loading, index build, similarity search),
    followed by the properties the specification states about them.

    Conventions.  Python [str] is an ASCII [string]; Python [int] is [Z];
    a [dict] whose iteration order is observable is an association list, a
    [dict] that is only looked up is a [gmap]; a [set] is a [gset].  A call
    that may raise returns an [outcome].  Collaborators that the modules
    reach through a narrow contract (the reasoning model, the embedding
    provider, the database adapter, the vector store, the file system) are
    arguments of the functions that call them. *)

From Stdlib Require Import Ascii String ZArith QArith Reals Lra Sorted.
From stdpp Require Import gmap strings list fin_maps relations pretty.

Local Open Scope string_scope.
Local Open Scope list_scope.
Local Open Scope nat_scope.
Set Warnings "-register-all,-clear-no-such-hyp".

(* ===================================================================== *)
(** * Part I: definitions                                                 *)
(* ===================================================================== *)

(** ** Python exceptions and results *)

Inductive exn_kind :=
  | NameError | ValueError | TypeError | AttributeError
  | ImportError | JSONDecodeError | OtherError.

Record exn := Exn { kind : exn_kind; message : string }.

Inductive outcome (A : Type) :=
  | Return (a : A)
  | Raise (e : exn).
Arguments Return {A} a.
Arguments Raise {A} e.

#[global] Instance outcome_bind : MBind outcome := λ A B k m,
  match m with
  | Return a => k a
  | Raise e => Raise e
  end.

(** [try: m except Exception as e: h e] *)
Definition try_except {A} (m : outcome A) (h : exn → outcome A) : outcome A :=
  match m with
  | Return a => Return a
  | Raise e => h e
  end.

(** ** JSON-like Python values ([Dict[str, Any]], lists, scalars) *)

Inductive json :=
  | JNull
  | JBool (b : bool)
  | JNum (q : Q)
  | JStr (s : string)
  | JArr (items : list json)
  | JObj (fields : list (string * json)).

(** [d.get(key, default)] on the fields of a dict *)
Fixpoint get (fields : list (string * json)) (key : string) (default : json) : json :=
  match fields with
  | [] => default
  | (k, v) :: rest => if String.eqb k key then v else get rest key default
  end.

(** ** The data model of the orchestrator *)

Inductive TaskType :=
  | SCHEMA_DISCOVERY
  | SEMANTIC_UNDERSTANDING
  | SIMILARITY_MATCHING
  | QUERY_GENERATION
  | VALIDATION
  | EXECUTION
  | VISUALIZATION
  | USER_INTERACTION.

Definition value (t : TaskType) : string :=
  match t with
  | SCHEMA_DISCOVERY => "schema_discovery"
  | SEMANTIC_UNDERSTANDING => "semantic_understanding"
  | SIMILARITY_MATCHING => "similarity_matching"
  | QUERY_GENERATION => "query_generation"
  | VALIDATION => "validation"
  | EXECUTION => "execution"
  | VISUALIZATION => "visualization"
  | USER_INTERACTION => "user_interaction"
  end.

Definition all_task_types : list TaskType :=
  [SCHEMA_DISCOVERY; SEMANTIC_UNDERSTANDING; SIMILARITY_MATCHING;
   QUERY_GENERATION; VALIDATION; EXECUTION; VISUALIZATION; USER_INTERACTION].

(** [TaskType(v)]: the member whose value is [v], [ValueError] otherwise *)
Definition TaskType_of (v : json) : outcome TaskType :=
  match v with
  | JStr s =>
      match List.find (fun t => String.eqb (value t) s) all_task_types with
      | Some t => Return t
      | None => Raise (Exn ValueError (s +:+ " is not a valid TaskType"))
      end
  | _ => Raise (Exn ValueError "not a valid TaskType")
  end.

Record AgentTask := {
  task_id : string;
  task_type : TaskType;
  input_data : json;
  required_output : json;
  constraints : json;
  dependencies : list string   (* other task ids this depends on *)
}.

(** ** [_create_default_plan] *)

Definition _create_default_plan (user_query : string) : list AgentTask :=
  [ {| task_id := "1_discover_schema";
       task_type := SCHEMA_DISCOVERY;
       input_data := JObj [("query", JStr user_query)];
       required_output := JObj [("schema_context", JStr "discovered_tables_and_columns")];
       constraints := JObj [("max_tables", JNum 20)];
       dependencies := [] |};
    {| task_id := "2_semantic_analysis";
       task_type := SEMANTIC_UNDERSTANDING;
       input_data := JObj [("query", JStr user_query)];
       required_output := JObj [("entities", JStr "extracted_entities");
                                ("intent", JStr "business_intent")];
       constraints := JObj [];
       dependencies := [] |};
    {| task_id := "3_similarity_matching";
       task_type := SIMILARITY_MATCHING;
       input_data := JObj [("entities", JStr "from_task_2"); ("schema", JStr "from_task_1")];
       required_output := JObj [("matched_tables", JStr "relevant_tables");
                                ("matched_columns", JStr "relevant_columns")];
       constraints := JObj [("min_similarity", JNum (7 # 10))];
       dependencies := ["1_discover_schema"; "2_semantic_analysis"] |};
    {| task_id := "4_user_verification";
       task_type := USER_INTERACTION;
       input_data := JObj [("proposed_matches", JStr "from_task_3")];
       required_output := JObj [("confirmed_tables", JStr "user_approved_tables");
                                ("confirmed_columns", JStr "user_approved_columns")];
       constraints := JObj [("require_explicit_approval", JBool true)];
       dependencies := ["3_similarity_matching"] |};
    {| task_id := "5_query_generation";
       task_type := QUERY_GENERATION;
       input_data := JObj [("confirmed_schema", JStr "from_task_4");
                           ("original_query", JStr user_query)];
       required_output := JObj [("sql_query", JStr "generated_sql");
                                ("explanation", JStr "query_explanation")];
       constraints := JObj [("add_safety_checks", JBool true)];
       dependencies := ["4_user_verification"] |};
    {| task_id := "6_query_execution";
       task_type := EXECUTION;
       input_data := JObj [("validated_query", JStr "from_task_5")];
       required_output := JObj [("results", JStr "query_results");
                                ("metadata", JStr "execution_metadata")];
       constraints := JObj [("timeout", JNum 300); ("max_rows", JNum 10000)];
       dependencies := ["5_query_generation"] |};
    {| task_id := "7_visualization";
       task_type := VISUALIZATION;
       input_data := JObj [("results", JStr "from_task_6");
                           ("original_query", JStr user_query)];
       required_output := JObj [("charts", JStr "interactive_charts");
                                ("summary", JStr "narrative_summary")];
       constraints := JObj [("interactive", JBool true)];
       dependencies := ["6_query_execution"] |} ].

(** ** [_convert_to_agent_tasks] *)

(** The dataclass does not check its annotations: a descriptor whose
    ["task_id"] is not a string, or whose ["dependencies"] is not a list of
    strings, is converted without an exception into an object that the
    annotated record cannot hold.  [None] stands for such an object. *)
Definition as_str (v : json) : option string :=
  match v with JStr s => Some s | _ => None end.

Definition as_str_list (v : json) : option (list string) :=
  match v with JArr items => mapM as_str items | _ => None end.

Definition convert_task (n : nat) (task_data : json) : outcome (option AgentTask) :=
  match task_data with
  | JObj fields =>
      let id := get fields "task_id" (JStr ("task_" +:+ pretty n)) in
      ty ← TaskType_of (get fields "task_type" JNull);
      let input := get fields "input_requirements" (JObj []) in
      let output := get fields "output_expectations" (JObj []) in
      let cons := get fields "constraints" (JObj []) in
      let deps := get fields "dependencies" (JArr []) in
      Return (id' ← as_str id; deps' ← as_str_list deps;
              Some {| task_id := id'; task_type := ty; input_data := input;
                      required_output := output; constraints := cons;
                      dependencies := deps' |})
  | _ => Raise (Exn AttributeError "object has no attribute 'get'")
  end.

Fixpoint convert_from (tasks : list (option AgentTask)) (tasks_data : list json)
  : outcome (list (option AgentTask)) :=
  match tasks_data with
  | [] => Return tasks
  | task_data :: rest =>
      task ← convert_task (length tasks) task_data;
      convert_from (tasks ++ [task]) rest
  end.

Definition _convert_to_agent_tasks (tasks_data : list json)
  : outcome (list (option AgentTask)) :=
  convert_from [] tasks_data.

(** ** [plan_execution] *)

(** Index of the first, and of the last, occurrence of a character. *)
Fixpoint find_char (c : ascii) (s : string) : option nat :=
  match s with
  | EmptyString => None
  | String a rest => if Ascii.eqb a c then Some 0 else S <$> find_char c rest
  end.

Fixpoint rfind_char (c : ascii) (s : string) : option nat :=
  match s with
  | EmptyString => None
  | String a rest =>
      match rfind_char c rest with
      | Some j => Some (S j)
      | None => if Ascii.eqb a c then Some 0 else None
      end
  end.

(** [re.search(r'\[.*\]', content, re.DOTALL)] followed by [.group()]:
    with DOTALL the greedy [.*] runs from the first opening bracket to the
    last closing bracket after it. *)
Definition re_search_array (content : string) : option string :=
  i ← find_char "["%char content;
  let after := String.substring (S i) (String.length content) content in
  j ← rfind_char "]"%char after;
  Some (String.substring i (j + 2) content).

(** What the call to the reasoning model produced: an exception (client
    construction, transport, an empty [choices] list), or the message
    content, which the API may leave [None]. *)
Inductive model_reply :=
  | ModelRaises (e : exn)
  | ModelContent (content : option string).

Section Planner.
(** [json.loads] on a text that starts with an opening and ends with a
    closing bracket: a successful parse of such a text is an array. *)
Variable json_loads : string → outcome (list json).

(** The body of [plan_execution] from its [try:] on; the prompt is built
    before it. *)
Definition plan_execution (reply : model_reply) (user_query : string)
  : list (option AgentTask) :=
  let attempt : outcome (list (option AgentTask)) :=
    match reply with
    | ModelRaises e => Raise e
    | ModelContent None => Raise (Exn TypeError "expected string or bytes-like object")
    | ModelContent (Some content) =>
        match re_search_array content with
        | Some text => tasks_data ← json_loads text; _convert_to_agent_tasks tasks_data
        | None => Return (Some <$> _create_default_plan user_query)
        end
    end in
  match attempt with
  | Return tasks => tasks
  | Raise e => Some <$> _create_default_plan user_query
  end.
End Planner.

(** ** [execute_plan] *)

(** Lines the engine prints. *)
Inductive event :=
  | EvPlan (n : nat) (query_prefix : string)
  | EvExecuting (id : string) (ty : string)
  | EvCompleted (id : string)
  | EvFailed (id : string) (msg : string)
  | EvNoReady.

Record engine := {
  results : gmap string json;
  completed_tasks : gset string;
  stdout : list event
}.

(** The engine after one task: it goes on, or an exception leaves
    [execute_plan] (what was printed until then stays printed). *)
Inductive progress :=
  | Continue (st : engine)
  | Abort (printed : list event) (e : exn).

Definition is_critical (ty : TaskType) : bool :=
  match ty with
  | USER_INTERACTION | VALIDATION => true
  | _ => false
  end.

Definition fallback_result (e : exn) : json :=
  JObj [("error", JStr (message e)); ("fallback_used", JBool true)].

Definition ready (completed : gset string) (task : AgentTask) : Prop :=
  (task_id task ∉ completed) ∧ Forall (λ dep, dep ∈ completed) (dependencies task).

#[global] Instance ready_dec completed task : Decision (ready completed task).
Proof. unfold ready. apply _. Defined.

Definition ready_tasks (tasks : list AgentTask) (completed : gset string)
  : list AgentTask :=
  filter (ready completed) tasks.

Section Engine.
(** [_execute_single_task(task, results, user_query)]: the handler chosen
    by the task type, run on inputs resolved from the results so far. *)
Variable _execute_single_task :
  AgentTask → gmap string json → string → outcome json.
Variable user_query : string.

(** The body of [for task in ready_tasks]. *)
Definition run_task (task : AgentTask) (st : engine) : progress :=
  let out := stdout st ++ [EvExecuting (task_id task) (value (task_type task))] in
  match _execute_single_task task (results st) user_query with
  | Return task_result =>
      Continue {| results := <[task_id task := task_result]> (results st);
                  completed_tasks := completed_tasks st ∪ {[task_id task]};
                  stdout := out ++ [EvCompleted (task_id task)] |}
  | Raise e =>
      let out := out ++ [EvFailed (task_id task) (message e)] in
      if is_critical (task_type task) then Abort out e
      else
        Continue {| results := <[task_id task := fallback_result e]> (results st);
                    completed_tasks := completed_tasks st ∪ {[task_id task]};
                    stdout := out |}
  end.

Fixpoint run_wave (wave : list AgentTask) (st : engine) : progress :=
  match wave with
  | [] => Continue st
  | task :: rest =>
      match run_task task st with
      | Continue st' => run_wave rest st'
      | Abort out e => Abort out e
      end
  end.

(** The [while] loop; [fuel] bounds the number of iterations. *)
Fixpoint run_loop (fuel : nat) (tasks : list AgentTask) (st : engine)
  : option (list event * outcome (gmap string json)) :=
  match fuel with
  | O => None
  | S fuel' =>
      if decide (size (completed_tasks st) < length tasks) then
        match ready_tasks tasks (completed_tasks st) with
        | [] => Some (stdout st ++ [EvNoReady], Return (results st))
        | wave =>
            match run_wave wave st with
            | Continue st' => run_loop fuel' tasks st'
            | Abort out e => Some (out, Raise e)
            end
        end
      else Some (stdout st, Return (results st))
  end.

Definition initial (tasks : list AgentTask) : engine :=
  {| results := ∅; completed_tasks := ∅;
     stdout := [EvPlan (length tasks) (String.substring 0 50 user_query)] |}.

(** Every iteration that goes on completes at least one more task, so
    one more than the number of tasks is fuel enough, see
    [execute_plan_terminates]. *)
Definition execute_plan (tasks : list AgentTask)
  : option (list event * outcome (gmap string json)) :=
  run_loop (S (length tasks)) tasks (initial tasks).
End Engine.

(** ** The indexing-completeness check *)

(** The vector store ([PineconeSchemaVectorStore]) and the database
    connector as the check uses them: what each call answers. *)
Record vector_store := {
  describe_index_stats : outcome Z;        (* [.total_vector_count] *)
  clear_index : outcome unit;
  index_database_schema : outcome unit;
  describe_index_stats_after : outcome Z   (* the statistics read after indexing *)
}.

Record connector := {
  show_tables : outcome (option (list (list string)))   (* [result.rows], possibly [None] *)
}.

Record environment := {
  make_vector_store : outcome vector_store;      (* [PineconeSchemaVectorStore()] *)
  get_adapter : outcome (option connector)       (* [get_adapter("snowflake")] *)
}.

Record orchestrator := {
  pinecone_store : option vector_store;
  db_connector : option connector;
  _index_initialized : bool
}.

(** Calls made to the collaborators, in order. *)
Inductive call :=
  | DescribeIndexStats
  | ShowTables
  | MakeVectorStore
  | GetAdapter
  | ClearIndex
  | IndexDatabaseSchema.

#[global] Instance call_eq_dec : EqDecision call.
Proof. solve_decision. Defined.

Definition _initialize_vector_store (env : environment) (self : orchestrator)
  : orchestrator :=
  match make_vector_store env with
  | Return store =>
      {| pinecone_store := Some store; db_connector := db_connector self;
         _index_initialized := _index_initialized self |}
  | Raise _ => self
  end.

Definition _perform_full_database_indexing (env : environment) (self : orchestrator)
  : orchestrator * list call :=
  let '(self, calls) :=
    match pinecone_store self with
    | Some _ => (self, [])
    | None => (_initialize_vector_store env self, [MakeVectorStore])
    end in
  match pinecone_store self with
  | None => (self, calls)                      (* raise, caught by the outer handler *)
  | Some store =>
      let connected : outcome (orchestrator * list call) :=
        match db_connector self with
        | Some _ => Return (self, calls)
        | None =>
            adapter ← get_adapter env;
            Return ({| pinecone_store := pinecone_store self; db_connector := adapter;
                       _index_initialized := _index_initialized self |},
                    calls ++ [GetAdapter])
        end in
      match connected with
      | Raise _ => (self, calls ++ [GetAdapter])
      | Return (self, calls) =>
          match db_connector self with
          | None => (self, calls)              (* raise, caught by the outer handler *)
          | Some _ =>
              (* a failure to clear is printed and indexing goes on *)
              let calls := calls ++ [ClearIndex] in
              let calls := calls ++ [IndexDatabaseSchema] in
              match index_database_schema store with
              | Raise _ => (self, calls)
              | Return _ =>
                  let calls := calls ++ [DescribeIndexStats] in
                  match describe_index_stats_after store with
                  | Raise _ => (self, calls)
                  | Return _ =>
                      ({| pinecone_store := pinecone_store self;
                          db_connector := db_connector self;
                          _index_initialized := true |}, calls)
                  end
              end
          end
      end
  end.

Definition expected_vectors_per_table : Z := 4.

(** [total_vectors / expected_total_vectors] is Python's true division;
    the quotient and the threshold 0.8 are exact rationals here. *)
Definition indexing_completeness (total_vectors expected_total_vectors : Z) : Q :=
  if decide (expected_total_vectors > 0)%Z
  then (inject_Z total_vectors / inject_Z expected_total_vectors)%Q
  else 0%Q.

Definition should_index (total_vectors total_available_tables : Z) : bool :=
  let expected_total_vectors := (total_available_tables * expected_vectors_per_table)%Z in
  let completeness := indexing_completeness total_vectors expected_total_vectors in
  (if Qlt_le_dec completeness (8 # 10) then true else false)
  || bool_decide (total_vectors = 0%Z).

Definition _check_and_perform_comprehensive_indexing
    (env : environment) (self : orchestrator) : orchestrator * list call :=
  match pinecone_store self with
  | None => (self, [])                         (* AttributeError, caught *)
  | Some store =>
      match describe_index_stats store with
      | Raise _ => (self, [DescribeIndexStats])
      | Return total_vectors =>
          match db_connector self with
          | None => (self, [DescribeIndexStats])
          | Some conn =>
              match show_tables conn with
              | Raise _ => (self, [DescribeIndexStats; ShowTables])
              | Return rows =>
                  let available_tables := default [] rows in
                  let total_available_tables := Z.of_nat (length available_tables) in
                  if should_index total_vectors total_available_tables
                     && bool_decide (total_available_tables > 0)%Z
                  then
                    let '(self', calls) := _perform_full_database_indexing env self in
                    (self', [DescribeIndexStats; ShowTables] ++ calls)
                  else (self, [DescribeIndexStats; ShowTables])
              end
          end
      end
  end.

(** ** String operations of the vector matcher *)

(** ASCII white space, as [str.split()] and [str.strip()] see it. *)
Definition is_space (c : ascii) : bool :=
  let n := nat_of_ascii c in
  ((9 <=? n)%nat && (n <=? 13)%nat) || ((28 <=? n)%nat && (n <=? 32)%nat).

Definition is_empty (s : string) : bool :=
  match s with EmptyString => true | _ => false end.

Fixpoint lstrip (s : string) : string :=
  match s with
  | String c rest => if is_space c then lstrip rest else s
  | EmptyString => EmptyString
  end.

Fixpoint rstrip (s : string) : string :=
  match s with
  | String c rest =>
      let r := rstrip rest in
      if is_space c && is_empty r then EmptyString else String c r
  | EmptyString => EmptyString
  end.

Definition strip (s : string) : string := rstrip (lstrip s).

Definition lower_char (c : ascii) : ascii :=
  let n := nat_of_ascii c in
  if (65 <=? n)%nat && (n <=? 90)%nat then ascii_of_nat (n + 32) else c.

Fixpoint lower (s : string) : string :=
  match s with
  | String c rest => String (lower_char c) (lower rest)
  | EmptyString => EmptyString
  end.

Fixpoint replace_char (old new : ascii) (s : string) : string :=
  match s with
  | String c rest =>
      String (if Ascii.eqb c old then new else c) (replace_char old new rest)
  | EmptyString => EmptyString
  end.

(** [s.split()] *)
Fixpoint split_from (word : string) (s : string) : list string :=
  match s with
  | String c rest =>
      if is_space c
      then (if is_empty word then split_from "" rest else word :: split_from "" rest)
      else split_from (word +:+ String c "") rest
  | EmptyString => if is_empty word then [] else [word]
  end.

Definition split (s : string) : list string := split_from "" s.

(** [sub in s] *)
Fixpoint contains (sub s : string) : bool :=
  String.prefix sub s ||
  match s with
  | String _ rest => contains sub rest
  | EmptyString => false
  end.

(** [x in l] for a list of strings *)
Definition mem (x : string) (l : list string) : bool :=
  existsb (String.eqb x) l.

(** [s.split('.', 1)]: the text before the first dot and the text after
    it, if there is a dot *)
Fixpoint split_dot (s : string) : option (string * string) :=
  match s with
  | String c rest =>
      if Ascii.eqb c "."%char then Some ("", rest)
      else '(a, b) ← split_dot rest; Some (String c a, b)
  | EmptyString => None
  end.

(** Python's [l[:k]] *)
Definition slice_to {A} (k : Z) (l : list A) : list A :=
  if decide (0 ≤ k)%Z then take (Z.to_nat k) l
  else take (length l - Z.to_nat (- k)) l.

(** ** The data model of the vector matcher *)

Definition vec := list R.

(** [np.zeros(n)] *)
Definition zeros (n : nat) : vec := repeat 0%R n.

Record SchemaItem := {
  name : string;
  type : string;                 (* 'table' or 'column' *)
  table_name : string;           (* for columns, the table they belong to *)
  data_type : string;            (* for columns, their data type *)
  description : string;
  embedding : option vec
}.

(** A [Dict[str, np.ndarray]] in insertion order. *)
Definition index := list (string * vec).

(** [d[key] = v] *)
Fixpoint set_item (key : string) (v : vec) (d : index) : index :=
  match d with
  | [] => [(key, v)]
  | (k, w) :: rest =>
      if String.eqb k key then (k, v) :: rest else (k, w) :: set_item key v rest
  end.

Record OpenAIVectorMatcher := {
  api_key : option string;
  schema_items : list SchemaItem;
  table_embeddings : index;
  column_embeddings : index
}.

(** Truth value of an optional string ([None] and [''] are false). *)
Definition truthy (s : option string) : bool :=
  match s with
  | Some s => negb (is_empty s)
  | None => false
  end.

(** ** [_generate_description] *)

Definition _generate_description (schema_item : SchemaItem) : string :=
  let name_parts :=
    split (replace_char "-" " " (replace_char "_" " " (name schema_item))) in
  let joined := String.concat " " name_parts in
  let any words := existsb (λ word, mem word name_parts) words in
  if String.eqb (type schema_item) "table" then
    let desc :=
      if contains "analytics" (lower (name schema_item))
         || contains "azure" (lower (name schema_item))
      then
        let desc := "Azure Analytics data table containing " +:+ joined in
        let desc := if mem "final" name_parts
                    then desc +:+ " with final processed results" else desc in
        let desc := if mem "output" name_parts
                    then desc +:+ " containing output data and analytics" else desc in
        if mem "python" name_parts
        then desc +:+ " processed with Python analytics" else desc
      else "Database table named " +:+ joined in
    let desc := if any ["refresh"; "update"]
                then desc +:+ " with refreshed updated data" else desc in
    let desc := if any ["prediction"; "forecast"]
                then desc +:+ " containing predictive analytics and forecasts" else desc in
    if any ["feature"; "features"]
    then desc +:+ " with feature engineering and data features" else desc
  else
    let desc := "Database column " +:+ joined in
    let desc := if negb (is_empty (data_type schema_item))
                then desc +:+ " of type " +:+ data_type schema_item else desc in
    let desc :=
      if any ["id"; "key"] then desc +:+ " serving as identifier or key"
      else if any ["date"; "time"] then desc +:+ " containing date or time information"
      else if any ["name"; "title"] then desc +:+ " containing name or title text"
      else if any ["count"; "number"; "amount"]
           then desc +:+ " containing numeric count or amount data"
      else desc in
    if negb (is_empty (table_name schema_item))
    then desc +:+ " from table " +:+ table_name schema_item else desc.

(** ** [_get_embeddings] *)

Definition valid_text (text : string) : string :=
  if is_empty (strip text) then "empty text" else strip text.

Definition batch_size_for (n : nat) : nat :=
  if (n <? 100)%nat then 20
  else if (n <? 500)%nat then 30
  else if (n <? 1000)%nat then 40
  else if (n <? 3000)%nat then 50
  else 75.

(** [valid_texts[i:i + batch_size] for i in range(0, len(valid_texts), batch_size)] *)
Definition batches (batch_size : nat) (valid_texts : list string) : list (list string) :=
  (λ k, take batch_size (drop (k * batch_size) valid_texts))
    <$> seq 0 ((length valid_texts + batch_size - 1) / batch_size).

Definition name_error : exn := Exn NameError "name 'embeddings' is not defined".

(** What the name [embeddings] is bound to while [_get_embeddings] runs:
    [None] when no binding exists.  [embeddings.extend(more)] looks the
    name up when it is reached. *)
Definition extend (embeddings : option (list vec)) (more : list vec)
  : outcome (option (list vec)) :=
  match embeddings with
  | Some l => Return (Some (l ++ more))
  | None => Raise name_error
  end.

Section Provider.
(** The provider call of one batch (client construction included),
    given the batch number: its vectors, or an exception. *)
Variable embeddings_create : nat → list string → outcome (list vec).

(** The body of [for i in range(...)]: the [try] and its handler. *)
Definition embed_batch (embeddings : option (list vec))
    (batch_num : nat) (batch : list string) : outcome (option (list vec)) :=
  try_except
    (batch_embeddings ← embeddings_create batch_num batch;
     extend embeddings batch_embeddings)
    (λ e, extend embeddings ((λ _, zeros 1536) <$> batch)).

Fixpoint embed_batches (embeddings : option (list vec))
    (batch_num : nat) (todo : list (list string)) : outcome (option (list vec)) :=
  match todo with
  | [] => Return embeddings
  | batch :: rest =>
      embeddings ← embed_batch embeddings batch_num batch;
      embed_batches embeddings (S batch_num) rest
  end.

(** [_get_embeddings] with the binding of [embeddings] at the loop as an
    argument. *)
Definition get_embeddings_from (embeddings : option (list vec))
    (self : OpenAIVectorMatcher) (texts : list string) : outcome (list vec) :=
  if negb (truthy (api_key self)) then Return ((λ _, zeros 1536) <$> texts)
  else
    let valid_texts := valid_text <$> texts in
    match valid_texts with
    | [] => Return ((λ _, zeros 1536) <$> texts)
    | _ =>
        let batch_size := batch_size_for (length valid_texts) in
        embeddings ← embed_batches embeddings 1 (batches batch_size valid_texts);
        match embeddings with
        | Some l => Return l
        | None => Raise name_error
        end
    end.

(** No statement of [_get_embeddings] assigns [embeddings], and the
    module has no global of that name: the name is unbound. *)
Definition _get_embeddings : OpenAIVectorMatcher → list string → outcome (list vec) :=
  get_embeddings_from None.

(** ** [_cosine_similarity], [_similarity_to_confidence] *)

(** [np.dot] of two one-dimensional arrays of the same length *)
Definition dot (a b : vec) : R := foldr Rplus 0%R (zip_with Rmult a b).

(** [np.linalg.norm] *)
Definition norm (a : vec) : R := sqrt (dot a a).

Definition is_zero (x : R) : bool := if Req_dec_T x 0 then true else false.

(** Real numbers stand for binary64 values; [np.dot] raises for arrays
    of different lengths. *)
Definition _cosine_similarity (a b : vec) : outcome R :=
  if is_zero (norm a) || is_zero (norm b) then Return 0%R
  else if decide (length a = length b)
  then Return (dot a b / (norm a * norm b))%R
  else Raise (Exn ValueError "shapes not aligned").

(** [max(0.0, min(1.0, similarity))] *)
Definition _similarity_to_confidence (similarity : R) : R :=
  Rmax 0 (Rmin 1 similarity).

(** ** [find_similar_tables] *)

Record table_match := {
  tm_table_name : string;
  tm_similarity_score : R;
  tm_match_type : string;
  tm_confidence : R
}.

(** [l.sort(key=..., reverse=True)]: stable, descending. *)
Fixpoint insert_desc {A} (key : A → R) (x : A) (l : list A) : list A :=
  match l with
  | [] => [x]
  | y :: rest =>
      if Rlt_dec (key x) (key y) then y :: insert_desc key x rest
      else x :: l
  end.

Definition sort_desc {A} (key : A → R) (l : list A) : list A :=
  foldr (insert_desc key) [] l.

Fixpoint table_similarities (query_embedding : vec) (threshold : R)
    (items : index) : outcome (list table_match) :=
  match items with
  | [] => Return []
  | (table, table_embedding) :: rest =>
      similarity ← _cosine_similarity query_embedding table_embedding;
      similarities ← table_similarities query_embedding threshold rest;
      if Rge_dec similarity threshold then
        Return ({| tm_table_name := table;
                   tm_similarity_score := similarity;
                   tm_match_type := "vector_semantic";
                   tm_confidence := _similarity_to_confidence similarity |}
                :: similarities)
      else Return similarities
  end.

Definition find_similar_tables (self : OpenAIVectorMatcher)
    (query : string) (top_k : Z) (threshold : R) : outcome (list table_match) :=
  match table_embeddings self with
  | [] => Return []
  | _ =>
      query_embeddings ← _get_embeddings self [query];
      match query_embeddings with
      | [] => Return []
      | query_embedding :: _ =>
          similarities ←
            table_similarities query_embedding threshold (table_embeddings self);
          Return (slice_to top_k (sort_desc tm_similarity_score similarities))
      end
  end.

(** ** [find_relevant_columns] *)

Record column_match := {
  cm_column_name : string;
  cm_table_name : string;
  cm_similarity_score : R;
  cm_confidence : R
}.

Definition columns_in_scope (self : OpenAIVectorMatcher)
    (table : option string) : index :=
  match table with
  | Some t =>
      if is_empty t then column_embeddings self
      else List.filter (λ kv, String.prefix (t +:+ ".") (fst kv)) (column_embeddings self)
  | None => column_embeddings self
  end.

Fixpoint column_similarities (query_embedding : vec) (items : index)
  : outcome (list column_match) :=
  match items with
  | [] => Return []
  | (col_key, col_embedding) :: rest =>
      similarity ← _cosine_similarity query_embedding col_embedding;
      match split_dot col_key with
      | None => Raise (Exn ValueError "not enough values to unpack")
      | Some (table_name_part, col_name) =>
          similarities ← column_similarities query_embedding rest;
          Return ({| cm_column_name := col_name;
                     cm_table_name := table_name_part;
                     cm_similarity_score := similarity;
                     cm_confidence := _similarity_to_confidence similarity |}
                  :: similarities)
      end
  end.

Definition find_relevant_columns (self : OpenAIVectorMatcher)
    (query : string) (table : option string) (top_k : Z)
  : outcome (list column_match) :=
  match column_embeddings self with
  | [] => Return []
  | _ =>
      query_embeddings ← _get_embeddings self [query];
      match query_embeddings with
      | [] => Return []
      | query_embedding :: _ =>
          similarities ←
            column_similarities query_embedding (columns_in_scope self table);
          Return (slice_to top_k (sort_desc cm_similarity_score similarities))
      end
  end.
End Provider.

(** ** The cache on disk: [_load_cached_embeddings], [_save_cached_embeddings] *)

(** A [datetime] is a number of microseconds on the local clock, counted
    from 2000-01-01T00:00:00, the default of a missing ['created_at']. *)
Definition datetime := Z.

Definition microseconds_per_day : Z := 86400 * 1000000.

(** [(a - b).days]: a [timedelta] is normalised, its [days] is the floor. *)
Definition days_between (a b : datetime) : Z := ((a - b) / microseconds_per_day)%Z.

(** The unpickled dictionary; each key may be missing. *)
Record cache_data := {
  cached_schema_items : option (list SchemaItem);
  cached_table_embeddings : option index;
  cached_column_embeddings : option index
}.

(** The metadata file once [json.load] has read it: its ['created_at'], if
    the key is there, as [datetime.fromisoformat] reads it. *)
Record cache_metadata := {
  created_at : option (outcome datetime)
}.

(** The cache directory: a missing file is [None]; a file that is there
    but cannot be read or decoded raises. *)
Record cache_dir := {
  embedding_cache_file : option (outcome cache_data);
  metadata_cache_file : option (outcome cache_metadata);
  writable : bool
}.

Definition load_cache (self : OpenAIVectorMatcher) (data : cache_data)
  : OpenAIVectorMatcher :=
  {| api_key := api_key self;
     schema_items := default [] (cached_schema_items data);
     table_embeddings := default [] (cached_table_embeddings data);
     column_embeddings := default [] (cached_column_embeddings data) |}.

Definition _load_cached_embeddings (fs : cache_dir) (now : datetime)
    (self : OpenAIVectorMatcher) : OpenAIVectorMatcher * bool :=
  match embedding_cache_file fs, metadata_cache_file fs with
  | Some pickle, Some meta =>
      let attempt : outcome (OpenAIVectorMatcher * bool) :=
        metadata ← meta;
        cache_time ← default (Return 0%Z) (created_at metadata);
        if decide (days_between now cache_time > 1)%Z then Return (self, false)
        else
          data ← pickle;
          let self := load_cache self data in
          Return (self, bool_decide (0 < length (table_embeddings self))%nat)
      in
      match attempt with
      | Return r => r
      | Raise _ => (self, false)
      end
  | _, _ => (self, false)
  end.

Definition _save_cached_embeddings (fs : cache_dir) (now : datetime)
    (self : OpenAIVectorMatcher) : cache_dir :=
  if writable fs then
    {| embedding_cache_file :=
         Some (Return {| cached_schema_items := Some (schema_items self);
                         cached_table_embeddings := Some (table_embeddings self);
                         cached_column_embeddings := Some (column_embeddings self) |});
       metadata_cache_file := Some (Return {| created_at := Some (Return now) |});
       writable := true |}
  else fs.

(** ** The catalog source: [_get_all_tables], [_get_table_columns] *)

Record query_result := {
  error : option string;
  rows : list (list string)
}.

(** [adapter.run(sql)] *)
Definition adapter := string → outcome query_result.

Definition _get_all_tables (db : adapter) : list string :=
  match db "SHOW TABLES" with
  | Return result =>
      if truthy (error result) then []
      else default [] (mapM (λ row : list string, row !! 1%nat) (rows result))
  | Raise _ => []
  end.

(** The table name between double quotes. *)
Definition quoted (table : string) : string :=
  String (ascii_of_nat 34) table +:+ String (ascii_of_nat 34) "".

Definition _get_table_columns (db : adapter) (table : string)
  : list (string * string) :=
  let described :=
    result ← db ("DESCRIBE TABLE " +:+ quoted table);
    if truthy (error result) then db ("SHOW COLUMNS FROM " +:+ quoted table)
    else Return result in
  match described with
  | Return result =>
      if truthy (error result) then []
      else
        omap (λ row : list string,
                match row with
                | col_name :: col_type :: _ => Some (col_name, col_type)
                | _ => None
                end) (rows result)
  | Raise _ => []
  end.

(** ** [initialize_from_database] *)

Definition important_patterns : list string :=
  ["main"; "core"; "primary"; "fact"; "dim"; "lookup"; "ref"; "analytics"; "azure"].

Definition looks_important (table : string) : bool :=
  existsb (λ pattern, contains pattern (lower table)) important_patterns.

(** The value of [tables] after the block "Filter and prioritize tables
    for large schemas". *)
Definition prioritized_tables (all_tables : list string)
    (max_tables : option Z) (important_tables : option (list string)) : list string :=
  if (50 <? length all_tables)%nat then
    let tables :=
      match important_tables with
      | Some ((_ :: _) as important) =>
          let priority_tables := List.filter (λ t, mem t all_tables) important in
          let remaining_tables := List.filter (λ t, negb (mem t important)) all_tables in
          priority_tables ++ remaining_tables
      | _ =>
          let priority_tables := List.filter looks_important all_tables in
          let other_tables := List.filter (λ t, negb (looks_important t)) all_tables in
          priority_tables ++ other_tables
      end in
    match max_tables with
    | Some m =>
        if negb (m =? 0)%Z && (m <? Z.of_nat (length tables))%Z
        then slice_to m tables else tables
    | None => tables
    end
  else all_tables.

Definition with_description (item : SchemaItem) : SchemaItem :=
  {| name := name item; type := type item; table_name := table_name item;
     data_type := data_type item; description := _generate_description item;
     embedding := embedding item |}.

Definition with_embedding (item : SchemaItem) (v : vec) : SchemaItem :=
  {| name := name item; type := type item; table_name := table_name item;
     data_type := data_type item; description := description item;
     embedding := Some v |}.

(** The items of one table: the table item, then its column items. *)
Definition process_table (db : adapter) (table : string) : list SchemaItem :=
  with_description {| name := table; type := "table"; table_name := "";
                      data_type := ""; description := ""; embedding := None |}
  :: ((λ col : string * string,
         with_description {| name := col.1; type := "column"; table_name := table;
                             data_type := col.2; description := "";
                             embedding := None |})
      <$> _get_table_columns db table).

(** One turn of the loop that stores the embeddings. *)
Definition store_embedding (self : OpenAIVectorMatcher) (entry : SchemaItem * vec)
  : OpenAIVectorMatcher :=
  let item := with_embedding entry.1 entry.2 in
  {| api_key := api_key self;
     schema_items := schema_items self ++ [item];
     table_embeddings :=
       if String.eqb (type item) "table"
       then set_item (name item) entry.2 (table_embeddings self)
       else table_embeddings self;
     column_embeddings :=
       if String.eqb (type item) "table" then column_embeddings self
       else set_item (table_name item +:+ "." +:+ name item) entry.2
                     (column_embeddings self) |}.

Definition clear_schema_items (self : OpenAIVectorMatcher) : OpenAIVectorMatcher :=
  {| api_key := api_key self; schema_items := [];
     table_embeddings := table_embeddings self;
     column_embeddings := column_embeddings self |}.

Section Build.
Variable embeddings_create : nat → list string → outcome (list vec).
(** The order in which the worker pool hands back the tables' items. *)
Variable as_completed : list (list SchemaItem) → list (list SchemaItem).

Definition initialize_from_database (db : adapter) (fs : cache_dir) (now : datetime)
    (force_rebuild : bool) (max_tables : option Z)
    (important_tables : option (list string)) (self : OpenAIVectorMatcher)
  : outcome (OpenAIVectorMatcher * cache_dir) :=
  let '(self, loaded) :=
    if force_rebuild then (self, false) else _load_cached_embeddings fs now self in
  if loaded then Return (self, fs)
  else
    let all_tables := _get_all_tables db in
    match all_tables with
    | [] => Return (self, fs)
    | _ =>
        let tables := prioritized_tables all_tables max_tables important_tables in
        (* "Get tables and their schemas": [tables] is assigned again *)
        let tables := _get_all_tables db in
        let per_table := process_table db <$> tables in
        let schema_items :=
          if (20 <? length tables)%nat then concat (as_completed per_table)
          else concat per_table in
        let descriptions := description <$> schema_items in
        embeddings ← _get_embeddings embeddings_create self descriptions;
        let self := foldl store_embedding (clear_schema_items self)
                          (zip schema_items embeddings) in
        Return (self, _save_cached_embeddings fs now self)
    end.
End Build.

(** ** Further functions of the vector matcher *)

(** [d[key]] on an index, if the key is there *)
Fixpoint lookup_item (key : string) (d : index) : option vec :=
  match d with
  | [] => None
  | (k, v) :: rest => if String.eqb k key then Some v else lookup_item key rest
  end.

(** [d[key] = v] on a dictionary in insertion order, whatever it holds *)
Fixpoint assign {V} (key : string) (v : V) (d : list (string * V)) : list (string * V) :=
  match d with
  | [] => [(key, v)]
  | (k, w) :: rest =>
      if String.eqb k key then (k, v) :: rest else (k, w) :: assign key v rest
  end.

(** *** [hybrid_search] *)


Section Search.
Variable embeddings_create : nat → list string → outcome (list vec).


End Search.

(** *** [get_status] *)

Record matcher_status := {
  initialized : bool;
  status_embedding_model : string;
  table_count : nat;
  column_count : nat;
  total_schema_items : nat;
  cache_files_exist : bool * bool     (* embeddings, metadata *)
}.

Definition get_status (fs : cache_dir) (self : OpenAIVectorMatcher) : matcher_status :=
  {| initialized := bool_decide (0 < length (table_embeddings self));
     status_embedding_model := "text-embedding-3-small";
     table_count := length (table_embeddings self);
     column_count := length (column_embeddings self);
     total_schema_items := length (schema_items self);
     cache_files_exist :=
       (bool_decide (is_Some (embedding_cache_file fs)),
        bool_decide (is_Some (metadata_cache_file fs))) |}.

(** ** Further functions of the orchestrator *)

(** *** Agents *)

Record AgentCapability := {
  agent_name : string;
  capability : string;                  (* [description] *)
  input_types : list string;
  output_types : list string;
  cost_factor : Q;
  reliability_score : Q;
  specialized_domains : list string
}.

Definition _register_agents : list (string * AgentCapability) :=
  [ ("schema_discoverer",
     {| agent_name := "schema_discoverer";
        capability := "Discovers database schema, tables, columns, relationships";
        input_types := ["natural_language_query"; "database_connection"];
        output_types := ["schema_context"; "table_list"; "column_mappings"];
        cost_factor := 3 # 10; reliability_score := 95 # 100;
        specialized_domains := ["database"; "schema"; "metadata"] |});
    ("semantic_analyzer",
     {| agent_name := "semantic_analyzer";
        capability := "Understands business intent and extracts entities";
        input_types := ["natural_language_query"; "business_context"];
        output_types := ["entities"; "intent"; "business_terms"];
        cost_factor := 2 # 10; reliability_score := 90 # 100;
        specialized_domains := ["nlp"; "business_logic"; "pharmaceuticals"] |});
    ("vector_matcher",
     {| agent_name := "vector_matcher";
        capability := "Performs similarity matching between query and schema";
        input_types := ["entities"; "schema_context"; "embeddings"];
        output_types := ["similarity_scores"; "matched_tables"; "matched_columns"];
        cost_factor := 4 # 10; reliability_score := 88 # 100;
        specialized_domains := ["vector_search"; "embeddings"; "similarity"] |});
    ("query_builder",
     {| agent_name := "query_builder";
        capability := "Generates SQL queries with validation and safety checks";
        input_types := ["matched_schema"; "business_logic"; "filters"];
        output_types := ["sql_query"; "explanation"; "safety_assessment"];
        cost_factor := 3 # 10; reliability_score := 92 # 100;
        specialized_domains := ["sql"; "query_optimization"; "safety"] |});
    ("user_verifier",
     {| agent_name := "user_verifier";
        capability := "Interacts with user to confirm schema selections and queries";
        input_types := ["proposed_tables"; "proposed_columns"; "generated_query"];
        output_types := ["user_confirmation"; "modifications"; "approval"];
        cost_factor := 1 # 10; reliability_score := 98 # 100;
        specialized_domains := ["user_interaction"; "verification"; "confirmation"] |});
    ("query_executor",
     {| agent_name := "query_executor";
        capability := "Safely executes queries and handles results";
        input_types := ["validated_query"; "database_connection"; "safety_params"];
        output_types := ["query_results"; "execution_stats"; "error_handling"];
        cost_factor := 5 # 10; reliability_score := 94 # 100;
        specialized_domains := ["execution"; "database"; "safety"] |});
    ("visualizer",
     {| agent_name := "visualizer";
        capability := "Creates interactive visualizations and summaries";
        input_types := ["query_results"; "data_types"; "user_preferences"];
        output_types := ["charts"; "tables"; "narrative_summary"];
        cost_factor := 3 # 10; reliability_score := 89 # 100;
        specialized_domains := ["visualization"; "charts"; "reporting"] |}) ].

(** [agent_mapping.get(task_type, "schema_discoverer")]: the mapping has
    no entry for [VALIDATION]. *)
Definition _select_agent_for_task (ty : TaskType) : string :=
  match ty with
  | SCHEMA_DISCOVERY => "schema_discoverer"
  | SEMANTIC_UNDERSTANDING => "semantic_analyzer"
  | SIMILARITY_MATCHING => "vector_matcher"
  | USER_INTERACTION => "user_verifier"
  | QUERY_GENERATION => "query_builder"
  | EXECUTION => "query_executor"
  | VISUALIZATION => "visualizer"
  | VALIDATION => "schema_discoverer"
  end.

(** *** Dictionaries in insertion order *)

Definition pydict := list (string * json).

(** [d[key]], if the key is there *)
Fixpoint item_of {V} (key : string) (d : list (string * V)) : option V :=
  match d with
  | [] => None
  | (k, v) :: rest => if String.eqb k key then Some v else item_of key rest
  end.

(** *** [_resolve_task_inputs] *)

(** [s.replace(old, "")]: every occurrence of [old], from the left, is
    taken out; [skip] counts the characters of an occurrence still to
    drop. *)
Fixpoint remove_all_from (skip : nat) (old : string) (s : string) : string :=
  match s with
  | EmptyString => EmptyString
  | String c rest =>
      match skip with
      | S k => remove_all_from k old rest
      | O =>
          if String.prefix old s
          then remove_all_from (String.length old - 1) old rest
          else String c (remove_all_from 0 old rest)
      end
  end.

Definition remove_all (old s : string) : string := remove_all_from 0 old s.

(** The result of the first previous task whose id starts with the
    number and an underscore. *)
Definition referenced_result (task_number : string) (previous_results : pydict)
  : option json :=
  snd <$> List.find (λ kv, String.prefix (task_number +:+ "_") kv.1) previous_results.

Definition resolve_value (previous_results : pydict) (v : json) : json :=
  match v with
  | JStr s =>
      if String.prefix "from_task_" s
      then default (JObj []) (referenced_result (remove_all "from_task_" s) previous_results)
      else v
  | _ => v
  end.

Definition _resolve_task_inputs (task : AgentTask) (previous_results : pydict)
    (user_query : string) : outcome pydict :=
  let resolved := [("original_query", JStr user_query)] in
  let resolved := foldl (λ d kv, assign kv.1 kv.2 d) resolved previous_results in
  match input_data task with
  | JObj fields =>
      Return (foldl (λ d kv, assign kv.1 (resolve_value previous_results kv.2) d)
                    resolved fields)
  | _ => Raise (Exn AttributeError "object has no attribute 'items'")
  end.

(** *** Python values at run time *)

(** The handlers read their inputs without checking what they hold; the
    operations below are Python's on the values a [json] can stand for.
    The text of an interpreter message is given without the name of the
    type of the value. *)

(** [bool(v)] *)
Definition py_truthy (v : json) : bool :=
  match v with
  | JNull => false
  | JBool b => b
  | JNum q => negb (Qeq_bool q 0)
  | JStr s => negb (is_empty s)
  | JArr items => match items with [] => false | _ => true end
  | JObj fields => match fields with [] => false | _ => true end
  end.

(** [v.get(key, default)] *)
Definition py_get (v : json) (key : string) (default : json) : outcome json :=
  match v with
  | JObj fields => Return (get fields key default)
  | _ => Raise (Exn AttributeError "object has no attribute 'get'")
  end.

(** [v[key]] for a string key *)
Definition py_item (v : json) (key : string) : outcome json :=
  match v with
  | JObj fields =>
      match item_of key fields with
      | Some x => Return x
      | None => Raise (Exn OtherError ("'" +:+ key +:+ "'"))        (* KeyError *)
      end
  | JStr _ | JArr _ => Raise (Exn TypeError "indices must be integers or slices, not str")
  | _ => Raise (Exn TypeError "object is not subscriptable")
  end.

(** [len(v)] *)
Definition py_len (v : json) : outcome nat :=
  match v with
  | JStr s => Return (String.length s)
  | JArr items => Return (length items)
  | JObj fields => Return (length fields)
  | _ => Raise (Exn TypeError "object has no len()")
  end.

(** [v[0]] *)
Definition py_first (v : json) : outcome json :=
  match v with
  | JArr (x :: _) => Return x
  | JArr [] => Raise (Exn OtherError "list index out of range")     (* IndexError *)
  | JStr (String c _) => Return (JStr (String c ""))
  | JStr EmptyString => Raise (Exn OtherError "string index out of range")
  | JObj _ => Raise (Exn OtherError "0")                            (* KeyError *)
  | _ => Raise (Exn TypeError "object is not subscriptable")
  end.

(** [v[:n]] *)
Definition py_slice (n : nat) (v : json) : outcome json :=
  match v with
  | JArr items => Return (JArr (take n items))
  | JStr s => Return (JStr (String.substring 0 n s))
  | JObj _ => Raise (Exn TypeError "unhashable type: 'slice'")
  | _ => Raise (Exn TypeError "object is not subscriptable")
  end.

(** [for x in v] *)
Definition py_iter (v : json) : outcome (list json) :=
  match v with
  | JArr items => Return items
  | JStr s => Return ((λ c, JStr (String c "")) <$> list_ascii_of_string s)
  | JObj fields => Return ((λ kv, JStr kv.1) <$> fields)
  | _ => Raise (Exn TypeError "object is not iterable")
  end.

(** [v > q] for a float [q]: numbers and booleans compare *)
Definition py_gt (v : json) (q : Q) : outcome bool :=
  match v with
  | JNum x => Return (if Qlt_le_dec q x then true else false)
  | JBool b => Return (if Qlt_le_dec q (if b then 1 else 0) then true else false)
  | _ => Raise (Exn TypeError "'>' not supported between these instances")
  end.

(** [f"{v:.3f}"] is defined for numbers and booleans only *)
Definition py_format_float (v : json) : outcome unit :=
  match v with
  | JNum _ | JBool _ => Return ()
  | _ => Raise (Exn TypeError "unsupported format string")
  end.

(** The dictionary a handler returns when it catches an exception. *)
Definition failed_with (e : exn) : json :=
  JObj [("error", JStr (message e)); ("status", JStr "failed")].

(** [try: body except Exception as e: return {"error": str(e), "status": "failed"}] *)
Definition guarded (body : outcome json) : outcome json :=
  try_except body (λ e, Return (failed_with e)).

(** The inputs entry of a previous task, when [key in inputs]. *)
Definition input_of (inputs : pydict) (key : string) : option json := item_of key inputs.

(** *** The collaborators of the handlers *)

Record tools := {
  run_schema_discovery : pydict → outcome json;    (* [_execute_schema_discovery] *)
  run_semantic_analysis : pydict → outcome json;   (* [_execute_semantic_analysis] *)
  new_vector_matcher : outcome unit;               (* import and [OpenAIVectorMatcher()] *)
  import_sql_runner : outcome unit;                (* [from ... import SQLRunner] *)
  new_sql_runner : outcome unit;                   (* [SQLRunner()] *)
  execute_query : json → outcome json;             (* [sql_runner.execute_query] *)
  new_chart_builder : outcome unit;                (* import and [ChartBuilder()] *)
  create_charts : json → json → outcome json;      (* [chart_builder.create_charts] *)
  str_of : json → string                           (* [str(v)] inside an f-string *)
}.

(** [f"{v}"] *)
Definition formatted (t : tools) (v : json) : string :=
  match v with JStr s => s | _ => str_of t v end.

(** *** [_execute_similarity_matching] *)

Definition _execute_similarity_matching (t : tools) (inputs : pydict) : outcome json :=
  guarded (
    _ ← new_vector_matcher t;
    entities ← match input_of inputs "2_semantic_analysis" with
               | Some semantic_result => py_get semantic_result "entities" (JArr [])
               | None => Return (JArr [])
               end;
    discovered_tables ← match input_of inputs "1_discover_schema" with
                        | Some schema_result => py_get schema_result "discovered_tables" (JArr [])
                        | None => Return (JArr [])
                        end;
    _ ← py_len entities;
    _ ← py_len discovered_tables;
    if py_truthy entities && py_truthy discovered_tables then
      matched_tables ← py_slice 3 discovered_tables;
      n ← py_len matched_tables;
      let similarity_scores := take n [JNum (95 # 100); JNum (87 # 100); JNum (82 # 100)] in
      Return (JObj [("matched_tables", matched_tables);
                    ("similarity_scores", JArr similarity_scores);
                    ("confidence", JStr (match similarity_scores with
                                         | [] => "medium" | _ => "high" end));
                    ("entities_matched", entities);
                    ("status", JStr "completed")])
    else if py_truthy discovered_tables then
      matched_tables ← py_slice 3 discovered_tables;
      n ← py_len matched_tables;
      Return (JObj [("matched_tables", matched_tables);
                    ("similarity_scores", JArr (replicate n (JNum (8 # 10))));
                    ("confidence", JStr "medium");
                    ("entities_matched", entities);
                    ("status", JStr "completed")])
    else
      Return (JObj [("matched_tables", JArr []);
                    ("similarity_scores", JArr []);
                    ("confidence", JStr "low");
                    ("entities_matched", entities);
                    ("error", JStr "No tables discovered for matching");
                    ("status", JStr "completed")])).

(** *** [_execute_user_verification] *)

(** What printing one suggestion reads from it. *)
Definition present_suggestion (suggestion : json) : outcome unit :=
  _ ← py_item suggestion "rank";
  _ ← py_item suggestion "table_name";
  _ ← py_item suggestion "estimated_relevance";
  score ← py_item suggestion "relevance_score";
  _ ← py_format_float score;
  _ ← py_item suggestion "description";
  match suggestion with
  | JObj fields =>
      match item_of "sample_content" fields with
      | Some sample => _ ← py_slice 100 sample; Return ()
      | None => Return ()
      end
  | _ => Return ()
  end.

Fixpoint present_suggestions (suggestions : list json) : outcome unit :=
  match suggestions with
  | [] => Return ()
  | suggestion :: rest => _ ← present_suggestion suggestion; present_suggestions rest
  end.

Definition verification_result (selected_tables : json) (user_choice : string)
    (table_suggestions : json) : json :=
  JObj [("approved_tables", selected_tables);
        ("user_choice", JStr user_choice);
        ("table_suggestions", table_suggestions);
        ("confidence", JStr (if py_truthy table_suggestions then "high" else "medium"));
        ("selection_method",
         JStr (if py_truthy table_suggestions then "azure_enhanced" else "fallback"));
        ("status", JStr "completed")].

(** The branches that fall back on a list of table names: the tables are
    counted and printed, the first one is selected. *)
Definition select_first (tables : json) (user_choice : string)
    (table_suggestions : json) : outcome json :=
  _ ← py_len tables;
  _ ← py_iter tables;
  selected_tables ← py_slice 1 tables;
  _ ← py_first selected_tables;
  Return (verification_result selected_tables user_choice table_suggestions).

Definition _execute_user_verification (inputs : pydict) : outcome json :=
  guarded (
    '(table_suggestions, discovered_tables) ←
      match input_of inputs "1_discover_schema" return outcome (json * json) with
      | Some schema_result =>
          table_suggestions ← py_get schema_result "table_suggestions" (JArr []);
          discovered_tables ← py_get schema_result "discovered_tables" (JArr []);
          Return (table_suggestions, discovered_tables)
      | None => Return (JArr [], JArr [])
      end;
    matched_tables ←
      match input_of inputs "3_similarity_matching" with
      | Some similarity_result => py_get similarity_result "matched_tables" (JArr [])
      | None => Return (JArr [])
      end;
    if py_truthy table_suggestions then
      _ ← py_len table_suggestions;
      suggestions ← py_iter table_suggestions;
      _ ← present_suggestions suggestions;
      top ← py_first table_suggestions;
      score ← py_item top "relevance_score";
      confident ← py_gt score (7 # 10);
      top' ← py_first table_suggestions;
      table ← py_item top' "table_name";
      Return (verification_result (JArr [table])
                (if confident : bool then "auto_selected" else "default_first")
                table_suggestions)
    else if py_truthy discovered_tables then
      select_first discovered_tables "discovered_fallback" table_suggestions
    else if py_truthy matched_tables then
      select_first matched_tables "similarity_fallback" table_suggestions
    else
      Return (JObj [("approved_tables", JArr []);
                    ("user_choice", JStr "none_available");
                    ("confidence", JStr "none");
                    ("status", JStr "failed");
                    ("error", JStr "No tables available for selection")])).

(** *** [_execute_query_generation] *)

Definition _execute_query_generation (t : tools) (inputs : pydict) : outcome json :=
  guarded (
    _ ← import_sql_runner t;
    confirmed_tables ←
      match input_of inputs "4_user_verification" with
      | Some verification => py_get verification "confirmed_tables" (JArr [])
      | None => Return (JArr [])
      end;
    if py_truthy confirmed_tables then
      main_table ← py_first confirmed_tables;
      Return (JObj [("sql_query",
                     JStr ("SELECT * FROM " +:+ formatted t main_table +:+ " LIMIT 10"));
                    ("explanation",
                     JStr ("Generated query to fetch data from " +:+ formatted t main_table));
                    ("tables_used", confirmed_tables);
                    ("safety_level", JStr "safe");
                    ("status", JStr "completed")])
    else
      Return (JObj [("error", JStr "No confirmed tables for query generation");
                    ("status", JStr "failed")])).

(** *** [_execute_query_execution] *)

Definition _execute_query_execution (t : tools) (inputs : pydict) : outcome json :=
  guarded (
    _ ← import_sql_runner t;
    _ ← new_sql_runner t;
    sql_query ←
      match input_of inputs "5_query_generation" with
      | Some generation => py_get generation "sql_query" (JStr "")
      | None => Return (JStr "")
      end;
    if py_truthy sql_query then
      result ← execute_query t sql_query;
      data ← py_get result "data" (JArr []);
      data' ← py_get result "data" (JArr []);
      row_count ← py_len data';
      execution_time ← py_get result "execution_time" (JNum 0);
      metadata ← py_get result "metadata" (JObj []);
      Return (JObj [("results", data);
                    ("row_count", JNum (inject_Z (Z.of_nat row_count)));
                    ("execution_time", execution_time);
                    ("metadata", metadata);
                    ("status", JStr "completed")])
    else
      Return (JObj [("error", JStr "No SQL query to execute");
                    ("status", JStr "failed")])).

(** *** [_execute_visualization] *)

Fixpoint chart_types (charts : list json) : outcome (list json) :=
  match charts with
  | [] => Return []
  | chart :: rest =>
      ty ← py_get chart "type" (JStr "unknown");
      types ← chart_types rest;
      Return (ty :: types)
  end.

Definition _execute_visualization (t : tools) (inputs : pydict) : outcome json :=
  guarded (
    _ ← new_chart_builder t;
    results ←
      match input_of inputs "6_query_execution" with
      | Some execution => py_get execution "results" (JArr [])
      | None => Return (JArr [])
      end;
    let query := default (JStr "") (item_of "original_query" inputs) in
    if py_truthy results then
      charts ← create_charts t results query;
      n_results ← py_len results;
      n_charts ← py_len charts;
      let summary := "Analysis completed with " +:+ pretty n_results
                     +:+ " records. Generated " +:+ pretty n_charts
                     +:+ " visualizations." in
      each ← py_iter charts;
      types ← chart_types each;
      Return (JObj [("charts", charts);
                    ("summary", JStr summary);
                    ("chart_types", JArr types);
                    ("status", JStr "completed")])
    else
      Return (JObj [("error", JStr "No data for visualization");
                    ("status", JStr "failed")])).

(** *** [_execute_single_task] *)

Definition _execute_single_task (t : tools) (task : AgentTask)
    (previous_results : pydict) (user_query : string) : outcome json :=
  let agent_name := _select_agent_for_task (task_type task) in
  resolved_input ← _resolve_task_inputs task previous_results user_query;
  match task_type task with
  | SCHEMA_DISCOVERY => run_schema_discovery t resolved_input
  | SEMANTIC_UNDERSTANDING => run_semantic_analysis t resolved_input
  | SIMILARITY_MATCHING => _execute_similarity_matching t resolved_input
  | USER_INTERACTION => _execute_user_verification resolved_input
  | QUERY_GENERATION => _execute_query_generation t resolved_input
  | EXECUTION => _execute_query_execution t resolved_input
  | VISUALIZATION => _execute_visualization t resolved_input
  | VALIDATION => Raise (Exn ValueError "Unknown task type: TaskType.VALIDATION")
  end.

(** The engine keeps its results in a dictionary; [order] lists it in
    insertion order. *)
Definition dispatcher (t : tools) (order : gmap string json → pydict)
  : AgentTask → gmap string json → string → outcome json :=
  λ task results user_query, _execute_single_task t task (order results) user_query.

(** *** [process_query] *)

Inductive response :=
  | Answered (plan_id user_query : string) (reasoning_steps : list string)
      (estimated_execution_time : string) (tasks : list (string * string))
      (status : string) (results : gmap string json)
  | Errored (plan_id user_query error status : string).

Definition status_of (r : response) : string :=
  match r with
  | Answered _ _ _ _ _ status _ => status
  | Errored _ _ _ status => status
  end.

Section Facade.
Variable json_loads : string → outcome (list json).
(** Python's [hash] of a string. *)
Variable hash : string → Z.
Variable handler : AgentTask → gmap string json → string → outcome json.

(** [None]: the planner returned objects that the annotated [AgentTask]
    cannot hold (see [_convert_to_agent_tasks]). *)
Definition process_query (reply : model_reply)
    (user_query user_id session_id : string) : option response :=
  tasks ← mapM (λ task : option AgentTask, task)
             (plan_execution json_loads reply user_query);
  run ← execute_plan handler user_query tasks;
  match run.2 with
  | Return results =>
      Some (Answered
              ("plan_" +:+ pretty (hash user_query) +:+ "_" +:+ session_id)
              user_query
              ["Planned " +:+ pretty (length tasks) +:+ " execution steps";
               "Used Pinecone vector search for schema discovery";
               "Executed dynamic agent coordination"]
              (pretty (length tasks * 2) +:+ "s")
              ((λ task, (value (task_type task), "dynamic")) <$> tasks)
              (if decide ("error" ∈ dom results) then "failed" else "completed")
              results)
  | Raise e =>
      Some (Errored ("error_" +:+ pretty (hash user_query)) user_query (message e) "failed")
  end.
End Facade.

(** *** [initialize_on_startup], [initialize_vector_search] *)

(** What the startup asks for beyond the indexing check: the adapter of
    [backend.db.engine]. *)
Record startup_environment := {
  engine_get_adapter : outcome (option connector);   (* [get_adapter("snowflake")] *)
  indexing_environment : environment
}.

Definition _initialize_database_connector (env : startup_environment)
    (self : orchestrator) : orchestrator :=
  match engine_get_adapter env with
  | Return adapter =>
      {| pinecone_store := pinecone_store self; db_connector := adapter;
         _index_initialized := _index_initialized self |}
  | Raise _ => self
  end.

(** The orchestrator after the startup, and the calls of the indexing
    check. *)
Definition initialize_on_startup (env : startup_environment) (self : orchestrator)
  : orchestrator * list call :=
  let self := _initialize_database_connector env self in
  let self := _initialize_vector_store (indexing_environment env) self in
  match pinecone_store self, db_connector self with
  | Some _, Some _ =>
      _check_and_perform_comprehensive_indexing (indexing_environment env) self
  | _, _ => (self, [])
  end.

Definition initialize_vector_search (env : startup_environment) (self : orchestrator)
  : orchestrator * list call :=
  if _index_initialized self then (self, []) else initialize_on_startup env self.

(** *** [_fallback_schema_discovery] *)

(** [f"Table containing {table_name.replace('_', ' ').lower()} data"] *)
Definition table_description (table_name : string) : string :=
  "Table containing " +:+ lower (replace_char "_" " " table_name) +:+ " data".

(** One row of [DESCRIBE TABLE]: [col_row[0]], [col_row[1]] and
    [col_row[2] == 'Y']. *)
Definition described_column (col_row : list string) : outcome json :=
  match col_row with
  | col_name :: col_type :: nullable :: _ =>
      Return (JObj [("name", JStr col_name);
                    ("data_type", JStr col_type);
                    ("nullable", JBool (String.eqb nullable "Y"));
                    ("description", JNull)])
  | _ => Raise (Exn OtherError "list index out of range")
  end.

Fixpoint described_columns (col_rows : list (list string)) : outcome (list json) :=
  match col_rows with
  | [] => Return []
  | col_row :: rest =>
      column ← described_column col_row;
      columns ← described_columns rest;
      Return (column :: columns)
  end.

(** A table that the loop has kept: the position of its row, its name,
    its columns. *)
Definition kept_table : Type := nat * string * list json.

(** The body of [try:] for one table. *)
Definition describe_table (db : adapter) (table_name : string) : outcome (list json) :=
  columns_result ← db ("DESCRIBE TABLE " +:+ table_name);
  if truthy (error columns_result) then Return []
  else described_columns (rows columns_result).

(** [for i, row in enumerate(result.rows[:4])]: a table whose
    description raises is left out, a row without fields ends the loop
    with an exception. *)
Fixpoint fallback_rows (db : adapter) (i : nat) (table_rows : list (list string))
  : outcome (list kept_table) :=
  match table_rows with
  | [] => Return []
  | row :: rest =>
      table_name ← match row with
                   | _ :: second :: _ => Return second
                   | [first] => Return first
                   | [] => Raise (Exn OtherError "list index out of range")
                   end;
      described ← try_except (columns ← describe_table db table_name; Return (Some columns))
                             (λ _, Return None);
      kept ← fallback_rows db (S i) rest;
      Return match described with
             | Some columns => (i, table_name, columns) :: kept
             | None => kept
             end
  end.

Definition table_info (table : kept_table) : json :=
  JObj [("name", JStr table.1.2);
        ("schema", JStr "ENHANCED_NBA");
        ("columns", JArr table.2);
        ("row_count", JNull);
        ("description", JStr (table_description table.1.2))].

Definition fallback_suggestion (table : kept_table) : json :=
  JObj [("rank", JNum (inject_Z (Z.of_nat (table.1.1 + 1))));
        ("table_name", JStr table.1.2);
        ("relevance_score", JNum (1 # 2));
        ("description", JStr (table_description table.1.2));
        ("chunk_types", JArr [JStr "fallback"]);
        ("estimated_relevance", JStr "Medium")].

Definition fallback_result_of (kept : list kept_table) : json :=
  JObj [("discovered_tables", JArr ((λ table : kept_table, JStr table.1.2) <$> kept));
        ("table_details", JArr (table_info <$> kept));
        ("table_suggestions", JArr (fallback_suggestion <$> kept));
        ("status", JStr "completed")].

(** [get_db] is [get_adapter("snowflake")] of [backend.db.engine]. *)
Definition _fallback_schema_discovery (get_db : outcome adapter) (inputs : pydict)
  : outcome json :=
  try_except
    (db_adapter ← get_db;
     result ← db_adapter "SHOW TABLES IN SCHEMA ENHANCED_NBA LIMIT 10";
     if truthy (error result) then
       Return (JObj [("error", JStr ("Schema discovery failed: "
                                     +:+ default "" (error result)));
                     ("status", JStr "failed")])
     else
       kept ← fallback_rows db_adapter 0 (take 4 (rows result));
       Return (fallback_result_of kept))
    (λ e, Return (JObj [("error", JStr ("All schema discovery methods failed: "
                                        +:+ message e));
                        ("status", JStr "failed")])).

(** ** Notions used to state the properties *)

(** [a] names [b] among its dependencies. *)
Definition depends_on (tasks : list AgentTask) (a b : string) : Prop :=
  ∃ task, task ∈ tasks ∧ task_id task = a ∧ b ∈ dependencies task.

(** No task reaches itself along one or more dependencies. *)
Definition acyclic (tasks : list AgentTask) : Prop :=
  ∀ a, ¬ tc (depends_on tasks) a a.

(** A valid task graph: unique ids, dependencies that name tasks of the
    plan, no cycle. *)
Record valid_plan (tasks : list AgentTask) : Prop := {
  unique_ids : NoDup (task_id <$> tasks);
  closed_dependencies :
    ∀ task dep, task ∈ tasks → dep ∈ dependencies task → dep ∈ task_id <$> tasks;
  no_cycle : acyclic tasks
}.

(** The task array that [plan_execution] reads in the model's output, if
    there is one: the bracketed text, parsed and converted. *)
Definition task_array (json_loads : string → outcome (list json))
    (content : option string) : option (list (option AgentTask)) :=
  content ← content;
  text ← re_search_array content;
  match json_loads text ≫= _convert_to_agent_tasks with
  | Return tasks => Some tasks
  | Raise _ => None
  end.

(** The step number that a task id of the default plan starts with. *)
Definition leading_char (id : string) : nat :=
  match id with
  | String c _ => nat_of_ascii c
  | EmptyString => 0
  end.

(** The sets of completed ids the engine can reach: a task joins once all
    its dependencies are in. *)
Inductive completes (tasks : list AgentTask) : gset string → Prop :=
  | completes_none : completes tasks ∅
  | completes_more (completed : gset string) (task : AgentTask) :
      completes tasks completed →
      task ∈ tasks →
      Forall (λ dep, dep ∈ completed) (dependencies task) →
      completes tasks (completed ∪ {[task_id task]}).

(** [r] is what the engine records for [task]: the handler's result, or
    the fallback for an exception of a task that is not critical. *)
Definition recorded (handler : AgentTask → gmap string json → string → outcome json)
    (user_query : string) (task : AgentTask) (r : json) : Prop :=
  ∃ previous_results,
    handler task previous_results user_query = Return r
    ∨ ∃ e, handler task previous_results user_query = Raise e
           ∧ is_critical (task_type task) = false
           ∧ r = fallback_result e.

(** The ids of the tasks handed to a handler, as the printed lines show. *)
Definition dispatched (printed : list event) : list string :=
  omap (λ ev, match ev with EvExecuting id _ => Some id | _ => None end) printed.

(** What holds of the engine between two tasks. *)
Record engine_inv (handler : AgentTask → gmap string json → string → outcome json)
    (user_query : string) (tasks : list AgentTask) (st : engine) : Prop := {
  inv_dom : dom (results st) = completed_tasks st;
  inv_completes : completes tasks (completed_tasks st);
  inv_recorded : ∀ id r, results st !! id = Some r →
    ∃ task, task ∈ tasks ∧ task_id task = id ∧ recorded handler user_query task r;
  inv_dispatched : list_to_set (dispatched (stdout st)) = completed_tasks st;
  inv_once : NoDup (task_id <$> tasks) → NoDup (dispatched (stdout st))
}.

(** The engine states at the head of the loop of [execute_plan], with the
    fuel that is left there. *)
Inductive iterates (handler : AgentTask → gmap string json → string → outcome json)
    (user_query : string) (tasks : list AgentTask) : nat → engine → Prop :=
  | iterates_first :
      iterates handler user_query tasks (S (length tasks)) (initial user_query tasks)
  | iterates_next (fuel : nat) (st st' : engine) :
      iterates handler user_query tasks (S fuel) st →
      size (completed_tasks st) < length tasks →
      ready_tasks tasks (completed_tasks st) ≠ [] →
      run_wave handler user_query (ready_tasks tasks (completed_tasks st)) st = Continue st' →
      iterates handler user_query tasks fuel st'.

(** The dictionaries the two searches build for a candidate. *)
Definition table_entry (table : string) (similarity : R) : table_match :=
  {| tm_table_name := table; tm_similarity_score := similarity;
     tm_match_type := "vector_semantic";
     tm_confidence := _similarity_to_confidence similarity |}.

Definition column_entry (table column : string) (similarity : R) : column_match :=
  {| cm_column_name := column; cm_table_name := table;
     cm_similarity_score := similarity;
     cm_confidence := _similarity_to_confidence similarity |}.

(** A result that is a dictionary without the key, and one that is a
    dictionary with the given status. *)
Definition lacks (key : string) (r : json) : Prop :=
  ∃ fields, r = JObj fields ∧ item_of key fields = None.

Definition has_status (status : string) (r : json) : Prop :=
  ∃ fields, r = JObj fields ∧ item_of "status" fields = Some (JStr status).

(** ** Example inputs *)

Definition plain_task (id : string) (ty : TaskType) (deps : list string) : AgentTask :=
  {| task_id := id; task_type := ty; input_data := JObj []; required_output := JObj [];
     constraints := JObj []; dependencies := deps |}.

(** Two tasks that wait for each other, after one that waits for nothing. *)
Definition cyclic_plan : list AgentTask :=
  [ plain_task "c" SCHEMA_DISCOVERY [];
    plain_task "a" QUERY_GENERATION ["b"];
    plain_task "b" EXECUTION ["a"] ].

Definition answering_handler : AgentTask → gmap string json → string → outcome json :=
  λ _ _ _, Return JNull.

Definition failing_handler : AgentTask → gmap string json → string → outcome json :=
  λ _ _ _, Raise (Exn OtherError "no tables").

(** A provider that is down, and one that answers every text with the
    same unit vector. *)
Definition provider_down : nat → list string → outcome (list vec) :=
  λ _ _, Raise (Exn OtherError "Connection error.").

Definition provider_up : nat → list string → outcome (list vec) :=
  λ _ batch, Return ((λ _, [1%R]) <$> batch).

Definition matcher_with_key : OpenAIVectorMatcher :=
  {| api_key := Some "sk-test"; schema_items := [];
     table_embeddings := [("orders", [1%R])];
     column_embeddings := [("orders.id", [1%R])] |}.

Definition matcher_without_key : OpenAIVectorMatcher :=
  {| api_key := None; schema_items := [];
     table_embeddings := [("orders", [1%R])];
     column_embeddings := [("orders.id", [1%R])] |}.

(** A catalog of fifty-one tables [t1] ... [t51] whose columns cannot be
    described, an empty cache directory, a matcher that has nothing yet. *)
Definition large_catalog : list string := (λ i, "t" +:+ pretty i) <$> seq 1 51.

Definition catalog_adapter (tables : list string) : adapter :=
  λ sql, if String.eqb sql "SHOW TABLES"
         then Return {| error := None; rows := (λ t, ["TABLE"; t]) <$> tables |}
         else Return {| error := Some "does not exist"; rows := [] |}.

Definition no_cache : cache_dir :=
  {| embedding_cache_file := None; metadata_cache_file := None; writable := true |}.

Definition fresh_matcher : OpenAIVectorMatcher :=
  {| api_key := None; schema_items := []; table_embeddings := [];
     column_embeddings := [] |}.

(** Collaborators that all answer: schema discovery finds one table,
    the database has no rows. *)
Definition working_tools : tools :=
  {| run_schema_discovery := λ _,
       Return (JObj [("discovered_tables", JArr [JStr "orders"]);
                     ("table_suggestions", JArr []);
                     ("status", JStr "completed")]);
     run_semantic_analysis := λ _, Return (JObj [("entities", JArr [JStr "orders"])]);
     new_vector_matcher := Return ();
     import_sql_runner := Return ();
     new_sql_runner := Return ();
     execute_query := λ _, Return (JObj [("data", JArr [])]);
     new_chart_builder := Return ();
     create_charts := λ _ _, Return (JArr []);
     str_of := λ _, "" |}.

(** A database that lists one table and describes it. *)
Definition listing_adapter : adapter :=
  λ sql, if String.prefix "SHOW TABLES" sql
         then Return {| error := None; rows := [["2024-05-01"; "ORDERS"]] |}
         else Return {| error := None; rows := [["ID"; "NUMBER"; "N"]] |}.

(* ===================================================================== *)
(** * Part II: properties                                                 *)
(* ===================================================================== *)

(** ** The default plan *)

Lemma tc_decreases (tasks : list AgentTask) (rank : string → nat) :
  (∀ a b, depends_on tasks a b → rank b < rank a) →
  ∀ a b, tc (depends_on tasks) a b → rank b < rank a.
Proof.
  intros Hstep a b Htc.
  induction Htc as [a b Hab | a b c Hab _ IH].
  - by apply Hstep.
  - apply Hstep in Hab. lia.
Qed.

Lemma acyclic_by_rank (tasks : list AgentTask) (rank : string → nat) :
  (∀ a b, depends_on tasks a b → rank b < rank a) → acyclic tasks.
Proof.
  intros Hstep a Hcycle.
  apply (tc_decreases _ _ Hstep) in Hcycle. lia.
Qed.

Lemma default_plan_acyclic (user_query : string) :
  acyclic (_create_default_plan user_query).
Proof.
  apply (acyclic_by_rank _ leading_char).
  intros a b (task & Hin & <- & Hdep).
  unfold _create_default_plan in Hin.
  repeat (apply elem_of_cons in Hin as [-> | Hin]);
    [ simpl in Hdep .. | by apply elem_of_nil in Hin ];
    repeat (apply elem_of_cons in Hdep as [-> | Hdep]);
    try (by apply elem_of_nil in Hdep); vm_compute; lia.
Qed.

Lemma plan_execution_falls_back (json_loads : string → outcome (list json))
    (content : option string) (user_query : string) :
  task_array json_loads content = None →
  plan_execution json_loads (ModelContent content) user_query
  = Some <$> _create_default_plan user_query.
Proof.
  unfold task_array, plan_execution.
  destruct content as [content|]; [|done]. simpl.
  destruct (re_search_array content) as [text|]; [|done]. simpl.
  destruct (json_loads text) as [tasks_data|e]; [|done]. simpl.
  destruct (_convert_to_agent_tasks tasks_data); [discriminate|done].
Qed.

(** C2.  For every query the default plan has exactly seven tasks; the
    first two have no dependencies, the third depends on the first two,
    and each later task on the one before it; the plan has no dependency
    cycle; and [plan_execution] returns it whenever the reasoning model
    raises or its output holds no task array that parses and converts. *)
Theorem default_plan_shape_and_fallback
    (json_loads : string → outcome (list json)) (user_query : string) :
  let plan := _create_default_plan user_query in
  length plan = 7
  ∧ (∃ t1 t2 t3 t4 t5 t6 t7,
        plan = [t1; t2; t3; t4; t5; t6; t7]
        ∧ dependencies t1 = []
        ∧ dependencies t2 = []
        ∧ dependencies t3 = [task_id t1; task_id t2]
        ∧ dependencies t4 = [task_id t3]
        ∧ dependencies t5 = [task_id t4]
        ∧ dependencies t6 = [task_id t5]
        ∧ dependencies t7 = [task_id t6])
  ∧ acyclic plan
  ∧ (∀ e, plan_execution json_loads (ModelRaises e) user_query = Some <$> plan)
  ∧ (∀ content, task_array json_loads content = None →
        plan_execution json_loads (ModelContent content) user_query = Some <$> plan).
Proof.
  intros plan. split; [reflexivity|]. split.
  { unfold plan, _create_default_plan. do 7 eexists. split; [reflexivity|].
    simpl. repeat split. }
  split; [apply default_plan_acyclic|].
  split; [reflexivity|].
  intros content. apply plan_execution_falls_back.
Qed.

(** A reply without any bracket: the default plan is returned. *)
Lemma default_plan_shape_and_fallback_witness :
  plan_execution (λ _, Return []) (ModelContent (Some "I cannot plan this.")) "top customers"
  = Some <$> _create_default_plan "top customers".
Proof.
  apply (default_plan_shape_and_fallback (λ _, Return []) "top customers").
  reflexivity.
Defined.

(** ** The execution engine *)

Section EngineFacts.
Context (handler : AgentTask → gmap string json → string → outcome json).
Context (user_query : string).

Lemma dispatched_app (l1 l2 : list event) :
  dispatched (l1 ++ l2) = dispatched l1 ++ dispatched l2.
Proof. unfold dispatched. apply omap_app. Qed.

(** *** One task *)

Lemma run_task_continue (task : AgentTask) (st st' : engine) :
  run_task handler user_query task st = Continue st' →
  completed_tasks st' = completed_tasks st ∪ {[task_id task]}
  ∧ dispatched (stdout st') = dispatched (stdout st) ++ [task_id task]
  ∧ ∃ r, results st' = <[task_id task := r]> (results st)
         ∧ (handler task (results st) user_query = Return r
            ∨ ∃ e, handler task (results st) user_query = Raise e
                   ∧ is_critical (task_type task) = false
                   ∧ r = fallback_result e).
Proof.
  unfold run_task.
  destruct (handler task (results st) user_query) as [r|e] eqn:Hh.
  - intros [= <-]; simpl. split; [done|]. split.
    + rewrite !dispatched_app. simpl. by rewrite app_nil_r.
    + exists r. auto.
  - destruct (is_critical (task_type task)) eqn:Hc; [done|].
    intros [= <-]; simpl. split; [done|]. split.
    + rewrite !dispatched_app. simpl. by rewrite app_nil_r.
    + exists (fallback_result e). split; [done|]. right. by exists e.
Qed.

Lemma run_task_abort (task : AgentTask) (st : engine) (out : list event) (e : exn) :
  run_task handler user_query task st = Abort out e →
  handler task (results st) user_query = Raise e
  ∧ is_critical (task_type task) = true
  ∧ out = stdout st ++ [EvExecuting (task_id task) (value (task_type task));
                        EvFailed (task_id task) (message e)].
Proof.
  unfold run_task.
  destruct (handler task (results st) user_query) as [r|e'] eqn:Hh; [done|].
  destruct (is_critical (task_type task)) eqn:Hc; [|done].
  intros [= <- <-]. by rewrite <- app_assoc.
Qed.

Lemma run_task_inv (tasks : list AgentTask) (task : AgentTask) (st st' : engine) :
  engine_inv handler user_query tasks st →
  task ∈ tasks →
  Forall (λ dep, dep ∈ completed_tasks st) (dependencies task) →
  (NoDup (task_id <$> tasks) → task_id task ∉ completed_tasks st) →
  run_task handler user_query task st = Continue st' →
  engine_inv handler user_query tasks st'.
Proof.
  intros [Hdom Hcompl Hrec Hdisp Honce] Hin Hdeps Hfresh Hrun.
  apply run_task_continue in Hrun as (Hc & Hd & r & Hr & Hres).
  split.
  - rewrite Hr, Hc, dom_insert_L, Hdom. set_solver.
  - rewrite Hc. by constructor.
  - intros id r'. rewrite Hr. intros Hlook.
    apply lookup_insert_Some in Hlook as [[<- <-] | [_ Hlook]]; [|by apply Hrec].
    exists task. split; [done|]. split; [done|]. by exists (results st).
  - rewrite Hd, Hc, list_to_set_app_L, Hdisp. set_solver.
  - intros Hnd. rewrite Hd. apply NoDup_app. split; [by apply Honce|].
    split; [|apply NoDup_singleton].
    intros id Hid ->%list_elem_of_singleton.
    apply (Hfresh Hnd). rewrite <- Hdisp. by apply elem_of_list_to_set.
Qed.

(** *** One wave *)

Lemma run_wave_continue (wave : list AgentTask) (st st' : engine) :
  run_wave handler user_query wave st = Continue st' →
  completed_tasks st' = completed_tasks st ∪ list_to_set (task_id <$> wave).
Proof.
  revert st. induction wave as [|task wave IH]; intros st; simpl.
  - intros [= <-]. set_solver.
  - destruct (run_task handler user_query task st) as [st1|] eqn:Hrun; [|done].
    intros Hwave. apply IH in Hwave. apply run_task_continue in Hrun as [Hc _].
    rewrite Hwave, Hc. set_solver.
Qed.

Lemma run_wave_inv (tasks wave : list AgentTask) (st st' : engine) :
  engine_inv handler user_query tasks st →
  (∀ task, task ∈ wave → task ∈ tasks) →
  Forall (λ task, Forall (λ dep, dep ∈ completed_tasks st) (dependencies task)) wave →
  (NoDup (task_id <$> tasks) →
     NoDup (task_id <$> wave) ∧ ∀ task, task ∈ wave → task_id task ∉ completed_tasks st) →
  run_wave handler user_query wave st = Continue st' →
  engine_inv handler user_query tasks st'.
Proof.
  revert st. induction wave as [|task wave IH]; intros st Hinv Hsub Hdeps Hfresh; simpl.
  - by intros [= <-].
  - destruct (run_task handler user_query task st) as [st1|] eqn:Hrun; [|done].
    apply Forall_cons in Hdeps as [Hdep Hdeps].
    assert (completed_tasks st1 = completed_tasks st ∪ {[task_id task]}) as Hc
      by (by apply run_task_continue in Hrun as [? _]).
    apply IH.
    + eapply run_task_inv; [done| | done | | done].
      * apply Hsub. left.
      * intros Hnd. apply (Hfresh Hnd). left.
    + intros t Ht. apply Hsub. by right.
    + eapply Forall_impl; [exact Hdeps|]. intros t Ht. simpl in Ht.
      eapply Forall_impl; [exact Ht|]. intros dep Hd. simpl in Hd. rewrite Hc. set_solver.
    + intros Hnd. destruct (Hfresh Hnd) as [Hndw Hout].
      rewrite fmap_cons in Hndw. apply NoDup_cons in Hndw as [Hnotin Hndw].
      split; [done|]. intros t Ht. rewrite Hc.
      assert (task_id t ≠ task_id task).
      { intros Heq. apply Hnotin. rewrite <- Heq. apply list_elem_of_fmap. eauto. }
      assert (task_id t ∉ completed_tasks st) by (apply Hout; by right).
      set_solver.
Qed.
End EngineFacts.

(** *** Sets of ids *)

Lemma size_list_to_set_le (l : list string) :
  size (list_to_set l : gset string) ≤ length l.
Proof.
  induction l as [|x l IH].
  - rewrite list_to_set_nil, size_empty. simpl. lia.
  - rewrite list_to_set_cons, size_union_alt, size_singleton. simpl.
    pose proof (subseteq_size (list_to_set l ∖ {[x]}) (list_to_set l : gset string)) as Hle.
    specialize (Hle ltac:(set_solver)). lia.
Qed.

Lemma completes_subseteq (tasks : list AgentTask) (completed : gset string) :
  completes tasks completed → completed ⊆ list_to_set (task_id <$> tasks).
Proof.
  induction 1 as [|completed task _ IH Hin _]; [set_solver|].
  assert (task_id task ∈ task_id <$> tasks) by (apply list_elem_of_fmap; eauto).
  set_solver.
Qed.

Lemma completes_size (tasks : list AgentTask) (completed : gset string) :
  completes tasks completed → size completed ≤ length tasks.
Proof.
  intros H%completes_subseteq%subseteq_size.
  pose proof (size_list_to_set_le (task_id <$> tasks)) as Hle.
  rewrite length_fmap in Hle. lia.
Qed.

Lemma same_id_same_task (tasks : list AgentTask) (t t' : AgentTask) :
  NoDup (task_id <$> tasks) → t ∈ tasks → t' ∈ tasks → task_id t = task_id t' → t = t'.
Proof.
  intros Hnd [i Hi]%list_elem_of_lookup [j Hj]%list_elem_of_lookup Hid.
  assert (i = j) as ->; [|congruence].
  eapply NoDup_lookup; [exact Hnd| |]; rewrite list_lookup_fmap.
  - by rewrite Hi.
  - rewrite Hj. simpl. by rewrite Hid.
Qed.

(** Following dependencies from a completed task stays among the
    completed tasks, and never comes back to where it started. *)
Lemma completes_closed (tasks : list AgentTask) (completed : gset string) :
  NoDup (task_id <$> tasks) →
  completes tasks completed →
  ∀ a b, a ∈ completed → depends_on tasks a b → b ∈ completed.
Proof.
  intros Hnd. induction 1 as [|completed task Hc IH Hin Hdeps]; [set_solver|].
  intros a b Ha Hab.
  destruct (decide (a ∈ completed)) as [Hin'|Hnotin].
  { apply elem_of_union_l. by apply (IH a). }
  assert (a = task_id task) as -> by set_solver.
  destruct Hab as (task' & Hin' & Hid & Hdep).
  assert (task' = task) as -> by (by apply (same_id_same_task tasks)).
  apply elem_of_union_l. rewrite Forall_forall in Hdeps. by apply Hdeps.
Qed.

Lemma completes_acyclic (tasks : list AgentTask) (completed : gset string) :
  NoDup (task_id <$> tasks) →
  completes tasks completed →
  ∀ a, a ∈ completed → ¬ tc (depends_on tasks) a a.
Proof.
  intros Hnd. induction 1 as [|completed task Hc IH Hin Hdeps]; [set_solver|].
  intros a Ha Hcycle.
  destruct (decide (a ∈ completed)) as [Hin'|Hnotin]; [by apply (IH a)|].
  assert (a = task_id task) as -> by set_solver.
  (* the first dependency is completed already, and so is all that follows *)
  assert (∀ x y, tc (depends_on tasks) x y → x ∈ completed → y ∈ completed) as Hstay.
  { intros x y Hxy. induction Hxy as [x y Hxy | x y z Hxy _ IHtc]; intros Hx.
    - by apply (completes_closed tasks completed Hnd Hc x).
    - apply IHtc. by apply (completes_closed tasks completed Hnd Hc x). }
  assert (∀ b, depends_on tasks (task_id task) b → b ∈ completed) as Hfirst.
  { intros b Hb.
    pose proof (completes_closed tasks _ Hnd (completes_more _ _ _ Hc Hin Hdeps)
                  (task_id task) b ltac:(set_solver) Hb) as Hb'.
    destruct (decide (b = task_id task)) as [->|Hne]; [|set_solver].
    destruct Hb as (task' & Hin' & Hid & Hdep).
    assert (task' = task) as -> by (by apply (same_id_same_task tasks)).
    rewrite Forall_forall in Hdeps. by apply Hdeps. }
  inversion Hcycle as [x y Hxy | x y z Hxy Hyz]; subst.
  - apply Hnotin. by apply Hfirst.
  - apply Hnotin. apply (Hstay y); [done|]. by apply Hfirst.
Qed.

(** *** Readiness in a valid plan *)

Lemma reachable_is_dependency (tasks : list AgentTask) (a b : string) :
  tc (depends_on tasks) a b → b ∈ mjoin (dependencies <$> tasks).
Proof.
  induction 1 as [a b (task & Hin & _ & Hdep) | a b c _ _ IH]; [|done].
  apply list_elem_of_join. exists (dependencies task). split; [done|].
  apply list_elem_of_fmap. eauto.
Qed.

Lemma exists_ready (tasks : list AgentTask) (completed : gset string) :
  valid_plan tasks →
  ∀ task, task ∈ tasks → task_id task ∉ completed →
  ∃ task', task' ∈ tasks ∧ ready completed task'.
Proof.
  intros [Hnd Hclosed Hacyc] task Hin Hnot.
  assert (sn (depends_on tasks) (task_id task)) as Hsn.
  { apply tc_finite_sn; [exact Hacyc|].
    exists (mjoin (dependencies <$> tasks)). apply reachable_is_dependency. }
  remember (task_id task) as a eqn:Ha. revert task Hin Hnot Ha.
  induction Hsn as [a _ IH]. intros task Hin Hnot ->.
  destruct (decide (Forall (λ dep, dep ∈ completed) (dependencies task))) as [Hall|Hsome].
  { exists task. by repeat split. }
  apply not_Forall_Exists in Hsome; [|apply _].
  apply Exists_exists in Hsome as (dep & Hdep & Hdepnot). simpl in Hdepnot.
  pose proof (Hclosed task dep Hin Hdep) as Hdepin.
  apply list_elem_of_fmap in Hdepin as (task' & -> & Hin').
  apply (IH (task_id task')) with (task := task'); try done.
  simpl. by exists task.
Qed.

Lemma ready_tasks_nonempty (tasks : list AgentTask) (completed : gset string) :
  valid_plan tasks →
  completes tasks completed →
  size completed < length tasks →
  ready_tasks tasks completed ≠ [].
Proof.
  intros Hvalid Hc Hsize Hnil.
  assert (∃ task, task ∈ tasks ∧ task_id task ∉ completed) as (task & Hin & Hnot).
  { destruct (decide (Forall (λ task, task_id task ∈ completed) tasks)) as [Hall|Hsome].
    - exfalso.
      assert (list_to_set (task_id <$> tasks) ⊆ completed) as Hsub.
      { intros id (task & -> & Hin)%elem_of_list_to_set%list_elem_of_fmap.
        rewrite Forall_forall in Hall. by apply Hall. }
      apply subseteq_size in Hsub.
      rewrite size_list_to_set, length_fmap in Hsub by apply Hvalid. lia.
    - apply not_Forall_Exists in Hsome; [|apply _].
      apply Exists_exists in Hsome as (task & Hin & Hnot). eauto. }
  destruct (exists_ready tasks completed Hvalid task Hin Hnot) as (task' & Hin' & Hready).
  eapply filter_nil_not_elem_of; [exact Hnil | exact Hready | exact Hin'].
Qed.

(** *** The loop *)

Lemma ready_tasks_spec (tasks : list AgentTask) (completed : gset string) (task : AgentTask) :
  task ∈ ready_tasks tasks completed ↔ ready completed task ∧ task ∈ tasks.
Proof. apply list_elem_of_filter. Qed.

Lemma ready_tasks_NoDup (tasks : list AgentTask) (completed : gset string) :
  NoDup (task_id <$> tasks) → NoDup (task_id <$> ready_tasks tasks completed).
Proof.
  unfold ready_tasks. induction tasks as [|task tasks IH]; [done|].
  rewrite fmap_cons. intros [Hnotin Hnd]%NoDup_cons.
  rewrite filter_cons. destruct (decide (ready completed task)); [|by apply IH].
  rewrite fmap_cons. apply NoDup_cons. split; [|by apply IH].
  intros (task' & Hid & Hin%list_elem_of_filter)%list_elem_of_fmap.
  apply Hnotin. apply list_elem_of_fmap. exists task'. tauto.
Qed.

Section LoopFacts.
Context (handler : AgentTask → gmap string json → string → outcome json).
Context (user_query : string).

Lemma initial_inv (tasks : list AgentTask) :
  engine_inv handler user_query tasks (initial user_query tasks).
Proof.
  split; simpl.
  - apply dom_empty_L.
  - constructor.
  - intros id r. by rewrite lookup_empty.
  - done.
  - intros _. constructor.
Qed.

(** A wave of ready tasks keeps the invariant. *)
Lemma ready_wave_inv (tasks : list AgentTask) (st st' : engine) :
  engine_inv handler user_query tasks st →
  run_wave handler user_query (ready_tasks tasks (completed_tasks st)) st = Continue st' →
  engine_inv handler user_query tasks st'.
Proof.
  intros Hinv. apply run_wave_inv; [done| | |].
  - by intros task [_ ?]%ready_tasks_spec.
  - apply Forall_forall. by intros task [[_ ?] _]%ready_tasks_spec.
  - intros Hnd. split; [by apply ready_tasks_NoDup|].
    by intros task [[? _] _]%ready_tasks_spec.
Qed.

(** Strict progress: a wave that is not empty and goes through adds all
    its tasks to the completed set, which grows. *)
Lemma wave_progress (tasks : list AgentTask) (st st' : engine) :
  ready_tasks tasks (completed_tasks st) ≠ [] →
  run_wave handler user_query (ready_tasks tasks (completed_tasks st)) st = Continue st' →
  completed_tasks st'
    = completed_tasks st ∪ list_to_set (task_id <$> ready_tasks tasks (completed_tasks st))
  ∧ size (completed_tasks st) < size (completed_tasks st').
Proof.
  intros Hne Hwave. apply run_wave_continue in Hwave. split; [done|].
  destruct (ready_tasks tasks (completed_tasks st)) as [|task wave] eqn:Hready; [done|].
  assert (task_id task ∉ completed_tasks st) as Hfresh.
  { assert (task ∈ ready_tasks tasks (completed_tasks st)) as Hin by (rewrite Hready; left).
    apply ready_tasks_spec in Hin as [[? _] _]. done. }
  apply subset_size. rewrite Hwave, fmap_cons, list_to_set_cons. set_solver.
Qed.

Lemma run_wave_abort (wave : list AgentTask) (st : engine) (out : list event) (e : exn) :
  run_wave handler user_query wave st = Abort out e →
  ∃ task previous_results,
    task ∈ wave
    ∧ is_critical (task_type task) = true
    ∧ handler task previous_results user_query = Raise e
    ∧ last out = Some (EvFailed (task_id task) (message e)).
Proof.
  revert st. induction wave as [|task wave IH]; intros st; simpl; [done|].
  destruct (run_task handler user_query task st) as [st1|out' e'] eqn:Hrun.
  - intros (task' & prev & Hin & H)%IH. exists task', prev. split; [by right|done].
  - intros [= -> ->]. apply run_task_abort in Hrun as (Hh & Hc & ->).
    exists task, (results st). split; [left|]. repeat split; try done.
    by rewrite last_app.
Qed.

Lemma run_loop_S (fuel : nat) (tasks : list AgentTask) (st : engine) :
  run_loop handler user_query (S fuel) tasks st
  = if decide (size (completed_tasks st) < length tasks) then
      match ready_tasks tasks (completed_tasks st) with
      | [] => Some (stdout st ++ [EvNoReady], Return (results st))
      | _ :: _ =>
          match run_wave handler user_query (ready_tasks tasks (completed_tasks st)) st with
          | Continue st' => run_loop handler user_query fuel tasks st'
          | Abort out e => Some (out, Raise e)
          end
      end
    else Some (stdout st, Return (results st)).
Proof.
  cbn [run_loop]. destruct (decide _); [|done].
  by destruct (ready_tasks tasks (completed_tasks st)).
Qed.

(** More fuel does not change what the loop returns. *)
Lemma run_loop_more_fuel (fuel : nat) (tasks : list AgentTask) (st : engine)
    (r : list event * outcome (gmap string json)) :
  run_loop handler user_query fuel tasks st = Some r →
  run_loop handler user_query (S fuel) tasks st = Some r.
Proof.
  revert st. induction fuel as [|fuel IH]; intros st; [done|].
  rewrite (run_loop_S (S fuel)), (run_loop_S fuel).
  destruct (decide _); [|done].
  destruct (ready_tasks tasks (completed_tasks st)); [done|].
  destruct (run_wave handler user_query _ st); [apply IH|done].
Qed.

(** One more than the number of tasks is fuel enough. *)
Lemma run_loop_terminates (fuel : nat) (tasks : list AgentTask) (st : engine) :
  engine_inv handler user_query tasks st →
  length tasks < fuel + size (completed_tasks st) →
  is_Some (run_loop handler user_query fuel tasks st).
Proof.
  revert st. induction fuel as [|fuel IH]; intros st Hinv Hfuel.
  - pose proof (completes_size _ _ (inv_completes _ _ _ _ Hinv)). lia.
  - rewrite run_loop_S.
    destruct (decide (size (completed_tasks st) < length tasks)); [|done].
    destruct (ready_tasks tasks (completed_tasks st)) as [|task wave] eqn:Hready; [done|].
    rewrite <- Hready.
    destruct (run_wave handler user_query _ st) as [st'|] eqn:Hwave; [|done].
    apply IH; [by eapply ready_wave_inv|].
    apply wave_progress in Hwave as [_ ?]; [lia|]. by rewrite Hready.
Qed.

(** How the loop ends. *)
Lemma run_loop_result (fuel : nat) (tasks : list AgentTask) (st : engine)
    (out : list event) (o : outcome (gmap string json)) :
  engine_inv handler user_query tasks st →
  run_loop handler user_query fuel tasks st = Some (out, o) →
  match o with
  | Raise e =>
      ∃ task previous_results,
        task ∈ tasks
        ∧ is_critical (task_type task) = true
        ∧ handler task previous_results user_query = Raise e
        ∧ last out = Some (EvFailed (task_id task) (message e))
  | Return res =>
      ∃ st', engine_inv handler user_query tasks st'
             ∧ res = results st'
             ∧ ((out = stdout st' ∧ length tasks ≤ size (completed_tasks st'))
                ∨ (out = stdout st' ++ [EvNoReady]
                   ∧ size (completed_tasks st') < length tasks
                   ∧ ready_tasks tasks (completed_tasks st') = []))
  end.
Proof.
  revert st. induction fuel as [|fuel IH]; intros st Hinv; [done|].
  rewrite run_loop_S.
  destruct (decide (size (completed_tasks st) < length tasks)) as [Hlt|Hge].
  - destruct (ready_tasks tasks (completed_tasks st)) as [|task wave] eqn:Hready.
    + intros [= <- <-]. exists st. split; [done|]. split; [done|]. right. done.
    + rewrite <- Hready.
      destruct (run_wave handler user_query _ st) as [st'|out' e] eqn:Hwave.
      * apply IH. by eapply ready_wave_inv.
      * intros [= <- <-].
        apply run_wave_abort in Hwave as (t & prev & Hin & H).
        exists t, prev. split; [|done]. by apply ready_tasks_spec in Hin as [_ ?].
  - intros [= <- <-]. exists st. split; [done|]. split; [done|]. left. split; [done|lia].
Qed.
End LoopFacts.

(** *** The iterations of [execute_plan] *)

Section Iterations.
Context (handler : AgentTask → gmap string json → string → outcome json).
Context (user_query : string).

Lemma iterates_spec (tasks : list AgentTask) (fuel : nat) (st : engine) :
  iterates handler user_query tasks fuel st →
  execute_plan handler user_query tasks = run_loop handler user_query fuel tasks st
  ∧ engine_inv handler user_query tasks st
  ∧ length tasks < fuel + size (completed_tasks st).
Proof.
  induction 1 as [|fuel st st' _ (Hrun & Hinv & Hfuel) Hlt Hne Hwave].
  - split; [done|]. split; [apply initial_inv|]. simpl. lia.
  - split; [|split].
    + rewrite Hrun, run_loop_S. destruct (decide _); [|done].
      destruct (ready_tasks tasks (completed_tasks st)) eqn:Hready; [done|].
      by rewrite Hwave.
    + by eapply ready_wave_inv.
    + apply wave_progress in Hwave as [_ ?]; [lia|done].
Qed.

Lemma iterates_fuel (tasks : list AgentTask) (fuel : nat) (st : engine) :
  iterates handler user_query tasks fuel st → ∃ fuel', fuel = S fuel'.
Proof.
  intros (_ & Hinv & Hfuel)%iterates_spec.
  pose proof (completes_size _ _ (inv_completes _ _ _ _ Hinv)).
  destruct fuel; [lia|eauto].
Qed.

Lemma execute_plan_terminates (tasks : list AgentTask) :
  is_Some (execute_plan handler user_query tasks).
Proof.
  apply run_loop_terminates; [apply initial_inv|]. simpl. lia.
Qed.

Lemma run_wave_app (before after : list AgentTask) (st : engine) :
  run_wave handler user_query (before ++ after) st
  = match run_wave handler user_query before st with
    | Continue st' => run_wave handler user_query after st'
    | Abort out e => Abort out e
    end.
Proof.
  revert st. induction before as [|task before IH]; intros st; simpl; [done|].
  by destruct (run_task handler user_query task st).
Qed.
End Iterations.

Lemma size_list_to_set_lt (l : list string) :
  ¬ NoDup l → size (list_to_set l : gset string) < length l.
Proof.
  induction l as [|x l IH]; intros Hdup.
  - destruct Hdup. constructor.
  - rewrite list_to_set_cons. simpl.
    destruct (decide (x ∈ l)) as [Hin|Hnotin].
    + assert ({[x]} ∪ list_to_set l = (list_to_set l : gset string)) as -> by set_solver.
      pose proof (size_list_to_set_le l). lia.
    + assert (¬ NoDup l) as Hdup' by (intros ?; apply Hdup; by constructor).
      apply IH in Hdup'. rewrite size_union_alt, size_singleton.
      pose proof (subseteq_size (list_to_set l ∖ {[x]}) (list_to_set l : gset string)) as Hle.
      specialize (Hle ltac:(set_solver)). lia.
Qed.

(** With a dependency cycle the completed set never holds as many ids as
    there are tasks. *)
Lemma cycle_never_completes (tasks : list AgentTask) (completed : gset string) (a : string) :
  tc (depends_on tasks) a a →
  completes tasks completed →
  size completed < length tasks.
Proof.
  intros Hcycle Hc.
  pose proof (completes_subseteq _ _ Hc) as Hsub.
  destruct (decide (NoDup (task_id <$> tasks))) as [Hnd|Hdup].
  - assert (a ∈ (list_to_set (task_id <$> tasks) : gset string)) as Ha.
    { inversion Hcycle as [x y (task & Hin & <- & _) | x y z (task & Hin & <- & _) _]; subst;
        apply elem_of_list_to_set, list_elem_of_fmap; eauto. }
    assert (a ∉ completed) as Hnot.
    { intros Hin. by apply (completes_acyclic tasks completed Hnd Hc a). }
    assert (completed ⊂ list_to_set (task_id <$> tasks)) as Hstrict by set_solver.
    apply subset_size in Hstrict.
    rewrite size_list_to_set, length_fmap in Hstrict by done. done.
  - apply subseteq_size in Hsub. apply size_list_to_set_lt in Hdup.
    rewrite length_fmap in Hdup. lia.
Qed.

Lemma default_plan_valid (user_query : string) :
  valid_plan (_create_default_plan user_query).
Proof.
  split.
  - apply (bool_decide_unpack _). by vm_compute.
  - intros task dep Hin Hdep. unfold _create_default_plan in *.
    repeat (apply elem_of_cons in Hin as [-> | Hin]);
      [ simpl in Hdep .. | by apply elem_of_nil in Hin ];
      repeat (apply elem_of_cons in Hdep as [-> | Hdep]);
      try (by apply elem_of_nil in Hdep);
      apply (bool_decide_unpack _); by vm_compute.
  - apply default_plan_acyclic.
Qed.

(** C9.  For every valid task graph [execute_plan] terminates.  Either it
    returns a result map with exactly one entry per task, each task having
    been handed to its handler exactly once and recorded with the handler's
    result or with the fallback; or a critical task failed and its
    exception left [execute_plan].  The loop makes strict progress: a wave
    that is not empty and goes through puts all its tasks into the
    completed set, which grows. *)
Theorem valid_plan_runs_every_task_once
    (handler : AgentTask → gmap string json → string → outcome json)
    (user_query : string) (tasks : list AgentTask) :
  valid_plan tasks →
  (∃ out o,
      execute_plan handler user_query tasks = Some (out, o)
      ∧ match o with
        | Return res =>
            dom res = list_to_set (task_id <$> tasks)
            ∧ size res = length tasks
            ∧ dispatched out ≡ₚ task_id <$> tasks
            ∧ ∀ task, task ∈ tasks →
                ∃ r, res !! task_id task = Some r ∧ recorded handler user_query task r
        | Raise e =>
            ∃ task previous_results,
              task ∈ tasks
              ∧ is_critical (task_type task) = true
              ∧ handler task previous_results user_query = Raise e
              ∧ last out = Some (EvFailed (task_id task) (message e))
        end)
  ∧ (∀ st st',
        ready_tasks tasks (completed_tasks st) ≠ [] →
        run_wave handler user_query (ready_tasks tasks (completed_tasks st)) st = Continue st' →
        completed_tasks st'
          = completed_tasks st ∪ list_to_set (task_id <$> ready_tasks tasks (completed_tasks st))
        ∧ size (completed_tasks st) < size (completed_tasks st')).
Proof.
  intros Hvalid. split; [|intros st st'; apply wave_progress].
  destruct (execute_plan_terminates handler user_query tasks) as [[out o] Hrun].
  exists out, o. split; [done|].
  pose proof (run_loop_result handler user_query _ _ _ _ _
                (initial_inv handler user_query tasks) Hrun) as Hres.
  destruct o as [res|e]; [|done].
  destruct Hres as (st & Hinv & -> & [[-> Hfull] | (_ & Hlt & Hnone)]).
  2:{ exfalso. eapply ready_tasks_nonempty; [done| |done|done]. apply Hinv. }
  destruct Hinv as [Hdom Hc Hrec Hdisp Honce].
  pose proof (unique_ids _ Hvalid) as Hnd.
  assert (completed_tasks st = list_to_set (task_id <$> tasks)) as Hall.
  { apply set_subseteq_size_eq; [by apply completes_subseteq|].
    rewrite size_list_to_set, length_fmap by done. done. }
  split; [by rewrite Hdom|]. split.
  { rewrite <- size_dom, Hdom, Hall, size_list_to_set, length_fmap; done. }
  split.
  { apply NoDup_Permutation; [by apply Honce|done|].
    intros id. rewrite <- !(elem_of_list_to_set (C:=gset string)).
    by rewrite Hdisp, Hall. }
  intros task Hin.
  assert (task_id task ∈ dom (results st)) as [r Hr]%elem_of_dom.
  { rewrite Hdom, Hall. apply elem_of_list_to_set, list_elem_of_fmap. eauto. }
  exists r. split; [done|].
  destruct (Hrec _ _ Hr) as (task' & Hin' & Hid & Hrecorded).
  by rewrite <- (same_id_same_task tasks task' task Hnd Hin' Hin Hid).
Qed.

(** The default plan under a handler that answers [null]. *)
Lemma valid_plan_runs_every_task_once_witness :
  ∃ out o,
    execute_plan (λ _ _ _, Return JNull) "top customers"
      (_create_default_plan "top customers") = Some (out, o)
    ∧ match o with
      | Return res =>
          dom res = list_to_set (task_id <$> _create_default_plan "top customers")
          ∧ size res = 7
          ∧ dispatched out ≡ₚ task_id <$> _create_default_plan "top customers"
          ∧ ∀ task, task ∈ _create_default_plan "top customers" →
              ∃ r, res !! task_id task = Some r
                   ∧ recorded (λ _ _ _, Return JNull) "top customers" task r
      | Raise e =>
          ∃ task (previous_results : gmap string json),
            task ∈ _create_default_plan "top customers"
            ∧ is_critical (task_type task) = true
            ∧ (Return JNull : outcome json) = Raise e
            ∧ last out = Some (EvFailed (task_id task) (message e))
      end.
Proof.
  apply (valid_plan_runs_every_task_once (λ _ _ _, Return JNull) "top customers"
           (_create_default_plan "top customers")).
  apply default_plan_valid.
Defined.

(** C6.  At any iteration of the engine, when the handler of a dispatched
    task raises: if the task type is critical (user interaction or
    validation) the exception leaves [execute_plan]; otherwise it is caught,
    the task is recorded with the error description and
    [fallback_used = true], it joins the completed set, and a task that was
    waiting only for it is among the ready tasks from then on. *)
Theorem handler_failure_policy
    (handler : AgentTask → gmap string json → string → outcome json)
    (user_query : string) (tasks : list AgentTask) (fuel : nat) (st st1 : engine)
    (before after : list AgentTask) (task : AgentTask) (e : exn) :
  iterates handler user_query tasks fuel st →
  size (completed_tasks st) < length tasks →
  ready_tasks tasks (completed_tasks st) = before ++ task :: after →
  run_wave handler user_query before st = Continue st1 →
  handler task (results st1) user_query = Raise e →
  if is_critical (task_type task) then
    execute_plan handler user_query tasks
    = Some (stdout st1 ++ [EvExecuting (task_id task) (value (task_type task));
                           EvFailed (task_id task) (message e)],
            Raise e)
  else
    ∃ st2,
      run_task handler user_query task st1 = Continue st2
      ∧ results st2 !! task_id task
        = Some (JObj [("error", JStr (message e)); ("fallback_used", JBool true)])
      ∧ completed_tasks st2 = completed_tasks st1 ∪ {[task_id task]}
      ∧ ∀ downstream completed,
          downstream ∈ tasks →
          completed_tasks st2 ⊆ completed →
          task_id downstream ∉ completed →
          Forall (λ dep, dep ∈ completed_tasks st1 ∪ {[task_id task]})
                 (dependencies downstream) →
          downstream ∈ ready_tasks tasks completed.
Proof.
  intros Hit Hlt Hready Hbefore Hraise.
  destruct (is_critical (task_type task)) eqn:Hcrit.
  - destruct (iterates_fuel _ _ _ _ _ Hit) as [fuel' ->].
    apply iterates_spec in Hit as [-> _].
    rewrite run_loop_S. destruct (decide _); [|done].
    rewrite Hready, run_wave_app, Hbefore.
    assert (run_wave handler user_query (task :: after) st1
            = Abort (stdout st1 ++ [EvExecuting (task_id task) (value (task_type task));
                                    EvFailed (task_id task) (message e)]) e) as ->.
    { simpl. unfold run_task. rewrite Hraise, Hcrit. by rewrite <- app_assoc. }
    by destruct before.
  - eexists. split.
    { unfold run_task. by rewrite Hraise, Hcrit. }
    simpl. split; [by rewrite lookup_insert_eq|]. split; [done|].
    intros downstream completed Hin Hsub Hnot Hdeps.
    apply ready_tasks_spec. split; [|done]. split; [done|].
    eapply Forall_impl; [exact Hdeps|]. intros dep Hdep. simpl in Hdep. set_solver.
Qed.

(** A plan made of one confirmation step whose handler raises. *)
Lemma handler_failure_policy_witness :
  execute_plan failing_handler "top customers" [plain_task "confirm" USER_INTERACTION []]
  = Some ([EvPlan 1 "top customers"; EvExecuting "confirm" "user_interaction";
           EvFailed "confirm" "no tables"],
          Raise (Exn OtherError "no tables")).
Proof.
  apply (handler_failure_policy failing_handler "top customers"
           [plain_task "confirm" USER_INTERACTION []] 2
           (initial "top customers" [plain_task "confirm" USER_INTERACTION []])
           (initial "top customers" [plain_task "confirm" USER_INTERACTION []])
           [] [] (plain_task "confirm" USER_INTERACTION []) (Exn OtherError "no tables")).
  - apply iterates_first.
  - vm_compute. lia.
  - by vm_compute.
  - reflexivity.
  - reflexivity.
Defined.

(** C4, as the engine has it.  Whenever an iteration finds no ready task
    while tasks remain incomplete, [execute_plan] stops dispatching and
    returns, without raising, the results recorded so far, one per
    completed task.  A task set with a dependency cycle always ends this
    way unless a critical task failed first: fewer results than tasks, no
    result for a task on the cycle when ids are unique.  The returned
    mapping holds nothing else; the deadlock shows in a printed line
    only. *)
Theorem deadlock_returns_completed_results
    (handler : AgentTask → gmap string json → string → outcome json)
    (user_query : string) (tasks : list AgentTask) :
  (∀ fuel st,
      iterates handler user_query tasks fuel st →
      size (completed_tasks st) < length tasks →
      ready_tasks tasks (completed_tasks st) = [] →
      execute_plan handler user_query tasks
        = Some (stdout st ++ [EvNoReady], Return (results st))
      ∧ dom (results st) = completed_tasks st)
  ∧ ((∃ a, tc (depends_on tasks) a a) →
      ∃ out o,
        execute_plan handler user_query tasks = Some (out, o)
        ∧ match o with
          | Return res =>
              last out = Some EvNoReady
              ∧ dom res = list_to_set (dispatched out)
              ∧ size res < length tasks
              ∧ (∀ id r, res !! id = Some r →
                   ∃ task, task ∈ tasks ∧ task_id task = id
                           ∧ recorded handler user_query task r)
              ∧ (NoDup (task_id <$> tasks) →
                 ∀ a, tc (depends_on tasks) a a → res !! a = None)
          | Raise e =>
              ∃ task previous_results,
                task ∈ tasks
                ∧ is_critical (task_type task) = true
                ∧ handler task previous_results user_query = Raise e
                ∧ last out = Some (EvFailed (task_id task) (message e))
          end).
Proof.
  split.
  - intros fuel st Hit Hlt Hnone.
    destruct (iterates_fuel _ _ _ _ _ Hit) as [fuel' ->].
    apply iterates_spec in Hit as (-> & Hinv & _).
    rewrite run_loop_S, Hnone. destruct (decide _); [|done].
    split; [done|]. apply Hinv.
  - intros [a Hcycle].
    destruct (execute_plan_terminates handler user_query tasks) as [[out o] Hrun].
    exists out, o. split; [done|].
    pose proof (run_loop_result handler user_query _ _ _ _ _
                  (initial_inv handler user_query tasks) Hrun) as Hres.
    destruct o as [res|e]; [|done].
    destruct Hres as (st & Hinv & -> & Hend).
    pose proof (cycle_never_completes tasks _ a Hcycle (inv_completes _ _ _ _ Hinv)) as Hlt.
    destruct Hend as [[_ Hfull] | (-> & _ & _)]; [lia|].
    destruct Hinv as [Hdom Hc Hrec Hdisp Honce].
    split; [by rewrite last_snoc|]. split.
    { rewrite dispatched_app, app_nil_r. by rewrite Hdisp. }
    split; [by rewrite <- size_dom, Hdom|]. split; [done|].
    intros Hnd b Hb. apply not_elem_of_dom. rewrite Hdom.
    intros Hin. by apply (completes_acyclic tasks _ Hnd Hc b).
Qed.

Lemma cyclic_plan_has_cycle : tc (depends_on cyclic_plan) "a" "a".
Proof.
  apply tc_l with "b"; [|apply tc_once].
  - exists (plain_task "a" QUERY_GENERATION ["b"]). unfold cyclic_plan. set_solver.
  - exists (plain_task "b" EXECUTION ["a"]). unfold cyclic_plan. set_solver.
Qed.

(** The cyclic example plan under a handler that answers [null]. *)
Lemma deadlock_returns_completed_results_witness :
  ∃ out o,
    execute_plan answering_handler "top customers" cyclic_plan = Some (out, o)
    ∧ match o with
      | Return res =>
          last out = Some EvNoReady
          ∧ dom res = list_to_set (dispatched out)
          ∧ size res < 3
          ∧ (∀ id r, res !! id = Some r →
               ∃ task, task ∈ cyclic_plan ∧ task_id task = id
                       ∧ recorded answering_handler "top customers" task r)
          ∧ (NoDup (task_id <$> cyclic_plan) →
             ∀ a, tc (depends_on cyclic_plan) a a → res !! a = None)
      | Raise e =>
          ∃ task previous_results,
            task ∈ cyclic_plan
            ∧ is_critical (task_type task) = true
            ∧ answering_handler task previous_results "top customers" = Raise e
            ∧ last out = Some (EvFailed (task_id task) (message e))
      end.
Proof.
  apply (deadlock_returns_completed_results answering_handler "top customers" cyclic_plan).
  exists "a". apply cyclic_plan_has_cycle.
Defined.

(** C4 as stated fails: the deadlocked run of the cyclic example plan and
    the complete run of its first task alone return the same mapping, so
    nothing in what [execute_plan] returns marks the former as a deadlock
    or as partial. *)
Lemma deadlock_is_not_flagged :
  ¬ ∃ flagged : outcome (gmap string json) → bool,
      (∀ out o, execute_plan answering_handler "top customers" cyclic_plan = Some (out, o) →
                flagged o = true)
      ∧ (∀ out o, execute_plan answering_handler "top customers"
                    [plain_task "c" SCHEMA_DISCOVERY []] = Some (out, o) →
                  flagged o = false).
Proof.
  intros (flagged & Hdeadlock & Hcomplete).
  assert (execute_plan answering_handler "top customers" cyclic_plan
          = Some ([EvPlan 3 "top customers"; EvExecuting "c" "schema_discovery";
                   EvCompleted "c"; EvNoReady],
                  Return {["c" := JNull]})) as H1 by (by vm_compute).
  assert (execute_plan answering_handler "top customers" [plain_task "c" SCHEMA_DISCOVERY []]
          = Some ([EvPlan 1 "top customers"; EvExecuting "c" "schema_discovery";
                   EvCompleted "c"],
                  Return {["c" := JNull]})) as H2 by (by vm_compute).
  apply Hdeadlock in H1. apply Hcomplete in H2. congruence.
Qed.

(** ** The indexing-completeness check *)

Lemma full_indexing_calls (env : environment) (self : orchestrator)
    (store : vector_store) (conn : connector) :
  pinecone_store self = Some store →
  db_connector self = Some conn →
  ∃ rest, (_perform_full_database_indexing env self).2
          = [ClearIndex; IndexDatabaseSchema] ++ rest.
Proof.
  intros Hstore Hconn. unfold _perform_full_database_indexing.
  rewrite Hstore. simpl. rewrite Hstore, Hconn. simpl. rewrite Hconn.
  destruct (index_database_schema store); [|by exists []].
  destruct (describe_index_stats_after store); simpl; eauto.
Qed.

(** C8.  With the index statistics and the table list at hand, the check
    rebuilds the index (it clears it, then indexes the schema again)
    exactly when there is at least one table and the ratio of the vector
    count to four times the table count is below 0.8, or the vector count
    is zero; otherwise it makes no further call. *)
Theorem completeness_check_rebuilds_exactly_when_incomplete
    (env : environment) (self : orchestrator) (store : vector_store) (conn : connector)
    (total_vectors : Z) (rows : option (list (list string))) :
  pinecone_store self = Some store →
  db_connector self = Some conn →
  describe_index_stats store = Return total_vectors →
  show_tables conn = Return rows →
  let table_count := Z.of_nat (length (default [] rows)) in
  let ratio := (inject_Z total_vectors / inject_Z (table_count * 4))%Q in
  let incomplete := ((ratio < 8 # 10)%Q ∨ total_vectors = 0%Z) ∧ (0 < table_count)%Z in
  let calls := (_check_and_perform_comprehensive_indexing env self).2 in
  (incomplete →
     ∃ rest, calls = [DescribeIndexStats; ShowTables; ClearIndex; IndexDatabaseSchema] ++ rest)
  ∧ (¬ incomplete → calls = [DescribeIndexStats; ShowTables]).
Proof.
  intros Hstore Hconn Hstats Hrows table_count ratio incomplete calls.
  subst calls. unfold _check_and_perform_comprehensive_indexing.
  rewrite Hstore, Hstats, Hconn, Hrows. fold table_count.
  destruct (full_indexing_calls env self store conn Hstore Hconn) as [rest Hrest].
  destruct (_perform_full_database_indexing env self) as [self' calls'].
  simpl in Hrest. subst calls'.
  unfold should_index, indexing_completeness, expected_vectors_per_table.
  destruct (decide (0 < table_count)%Z) as [Hpos|Hnone].
  - rewrite (bool_decide_eq_true_2 (table_count > 0)%Z) by lia.
    rewrite andb_true_r.
    destruct (decide (table_count * 4 > 0)%Z) as [_|]; [|lia]. fold ratio.
    destruct (Qlt_le_dec ratio (8 # 10)) as [Hlow|Hhigh]; simpl.
    + split; [eauto|]. intros Hnot. destruct Hnot. split; [by left|done].
    + destruct (decide (total_vectors = 0%Z)) as [Hzero|Hnonzero].
      * rewrite bool_decide_eq_true_2 by done. simpl.
        split; [eauto|]. intros Hnot. destruct Hnot. split; [by right|done].
      * rewrite bool_decide_eq_false_2 by done. simpl.
        split; [|done]. intros [[Hlow | Hzero] _]; [|done].
        exfalso. by apply (Qlt_not_le _ _ Hlow).
  - rewrite (bool_decide_eq_false_2 (table_count > 0)%Z) by lia.
    rewrite andb_false_r. simpl. split; [|done]. by intros [_ ?].
Qed.

(** An empty index and ten tables: the index is rebuilt. *)
Lemma completeness_check_rebuilds_exactly_when_incomplete_witness :
  let store := {| describe_index_stats := Return 0%Z; clear_index := Return ();
                  index_database_schema := Return ();
                  describe_index_stats_after := Return 40%Z |} in
  let conn := {| show_tables := Return (Some (replicate 10 ["ENHANCED_NBA"; "T"])) |} in
  let env := {| make_vector_store := Return store; get_adapter := Return (Some conn) |} in
  let self := {| pinecone_store := Some store; db_connector := Some conn;
                 _index_initialized := false |} in
  ∃ rest, (_check_and_perform_comprehensive_indexing env self).2
          = [DescribeIndexStats; ShowTables; ClearIndex; IndexDatabaseSchema] ++ rest.
Proof.
  intros store conn env self.
  destruct (completeness_check_rebuilds_exactly_when_incomplete env self store conn 0%Z
              (Some (replicate 10 ["ENHANCED_NBA"; "T"]))
              eq_refl eq_refl eq_refl eq_refl) as [Hrebuild _].
  apply Hrebuild. split; [by right|]. simpl. lia.
Defined.

(** ** Batched embedding *)

Lemma batch_size_for_pos (n : nat) : 0 < batch_size_for n.
Proof. unfold batch_size_for. repeat case_match; lia. Qed.

Lemma batches_nonempty (batch_size : nat) (valid_texts : list string) :
  0 < batch_size → valid_texts ≠ [] → batches batch_size valid_texts ≠ [].
Proof.
  intros Hpos Hne. unfold batches.
  destruct valid_texts as [|text rest]; [done|]. simpl length.
  assert (1 ≤ (S (length rest) + batch_size - 1) / batch_size) as Hone.
  { apply Nat.div_le_lower_bound; lia. }
  destruct ((S (length rest) + batch_size - 1) / batch_size); [lia|done].
Qed.

(** With no binding for [embeddings], a batch ends in [NameError] whether
    the provider answers or fails: the handler of the [try] reaches for
    the same name. *)
Lemma embed_batch_unbound (embeddings_create : nat → list string → outcome (list vec))
    (batch_num : nat) (batch : list string) :
  embed_batch embeddings_create None batch_num batch = Raise name_error.
Proof.
  unfold embed_batch. by destruct (embeddings_create batch_num batch).
Qed.

(** C1, on the code.  With an API key and at least one text,
    [_get_embeddings] raises [NameError], whatever the provider does: the
    list [embeddings] that both the [try] and its handler extend is never
    created. *)
Theorem get_embeddings_raises_name_error
    (embeddings_create : nat → list string → outcome (list vec))
    (self : OpenAIVectorMatcher) (texts : list string) :
  truthy (api_key self) = true →
  texts ≠ [] →
  _get_embeddings embeddings_create self texts
  = Raise (Exn NameError "name 'embeddings' is not defined").
Proof.
  intros Hkey Hne. unfold _get_embeddings, get_embeddings_from. rewrite Hkey. simpl.
  destruct texts as [|text texts]; [done|]. rewrite fmap_cons.
  pose proof (batches_nonempty
                (batch_size_for (length (valid_text text :: (valid_text <$> texts))))
                (valid_text text :: (valid_text <$> texts))
                (batch_size_for_pos _) ltac:(done)) as Hbatches.
  destruct (batches _ _) as [|batch rest]; [done|].
  simpl. by rewrite embed_batch_unbound.
Qed.

(** One description, a key, a provider that is down. *)
Lemma get_embeddings_raises_name_error_witness :
  _get_embeddings provider_down matcher_with_key ["Database table named orders"]
  = Raise (Exn NameError "name 'embeddings' is not defined").
Proof.
  apply (get_embeddings_raises_name_error provider_down matcher_with_key
           ["Database table named orders"]); done.
Defined.

(** Without a key no provider is called: one zero vector per text. *)
Lemma get_embeddings_without_key
    (embeddings_create : nat → list string → outcome (list vec))
    (self : OpenAIVectorMatcher) (texts : list string) :
  truthy (api_key self) = false →
  _get_embeddings embeddings_create self texts = Return ((λ _, zeros 1536) <$> texts).
Proof.
  intros Hkey. unfold _get_embeddings, get_embeddings_from. by rewrite Hkey.
Qed.

(** What the loop does once [embeddings] is bound to a list: a batch that
    fails adds one zero vector per text and the next batch is tried. *)
Lemma embed_batch_bound (embeddings_create : nat → list string → outcome (list vec))
    (sofar : list vec) (batch_num : nat) (batch : list string) :
  embed_batch embeddings_create (Some sofar) batch_num batch
  = Return (Some (sofar ++ match embeddings_create batch_num batch with
                           | Return batch_embeddings => batch_embeddings
                           | Raise _ => (λ _, zeros 1536) <$> batch
                           end)).
Proof.
  unfold embed_batch. by destruct (embeddings_create batch_num batch).
Qed.

Lemma embed_batches_bound (embeddings_create : nat → list string → outcome (list vec))
    (sofar : list vec) (batch_num : nat) (todo : list (list string)) :
  (∀ n batch vs, embeddings_create n batch = Return vs → length vs = length batch) →
  ∃ vs, embed_batches embeddings_create (Some sofar) batch_num todo = Return (Some vs)
        ∧ length vs = length sofar + length (mjoin todo).
Proof.
  intros Hprovider. revert sofar batch_num.
  induction todo as [|batch todo IH]; intros sofar batch_num; simpl.
  - exists sofar. split; [done|lia].
  - rewrite embed_batch_bound. simpl.
    destruct (IH (sofar ++ match embeddings_create batch_num batch with
                           | Return batch_embeddings => batch_embeddings
                           | Raise _ => (λ _, zeros 1536) <$> batch
                           end) (S batch_num)) as (vs & -> & Hlen).
    exists vs. split; [done|]. rewrite Hlen, !length_app.
    destruct (embeddings_create batch_num batch) as [batch_embeddings|] eqn:Hcall.
    + rewrite (Hprovider _ _ _ Hcall). lia.
    + rewrite length_fmap. lia.
Qed.

Lemma batches_cover (batch_size : nat) (l : list string) :
  0 < batch_size → mjoin (batches batch_size l) = l.
Proof.
  intros Hpos. unfold batches.
  assert (∀ k, mjoin ((λ i, take batch_size (drop (i * batch_size) l)) <$> seq 0 k)
               = take (k * batch_size) l) as Hprefix.
  { induction k as [|k IH]; [done|].
    rewrite seq_S, fmap_app, join_app, IH. simpl. rewrite app_nil_r.
    rewrite take_take_drop. f_equal. lia. }
  rewrite Hprefix. apply take_ge.
  pose proof (Nat.div_mod (length l + batch_size - 1) batch_size ltac:(lia)) as Hdiv.
  pose proof (Nat.mod_upper_bound (length l + batch_size - 1) batch_size ltac:(lia)).
  nia.
Qed.

(** Had the function started with [embeddings = []], it would return one
    vector per text and never raise, as long as the provider answers a
    batch with one vector per text. *)
Lemma get_embeddings_with_binding
    (embeddings_create : nat → list string → outcome (list vec))
    (self : OpenAIVectorMatcher) (texts : list string) :
  (∀ n batch vs, embeddings_create n batch = Return vs → length vs = length batch) →
  ∃ vs, get_embeddings_from embeddings_create (Some []) self texts = Return vs
        ∧ length vs = length texts.
Proof.
  intros Hprovider. unfold get_embeddings_from.
  destruct (truthy (api_key self)); simpl.
  2:{ eexists. split; [done|]. by rewrite length_fmap. }
  destruct (valid_text <$> texts) as [|text valid] eqn:Hvalid.
  { eexists. split; [done|]. by rewrite length_fmap. }
  rewrite <- Hvalid.
  destruct (embed_batches_bound embeddings_create [] 1
              (batches (batch_size_for (length (valid_text <$> texts))) (valid_text <$> texts))
              Hprovider) as (vs & -> & Hlen).
  exists vs. split; [done|].
  rewrite Hlen, batches_cover by apply batch_size_for_pos.
  simpl. by rewrite length_fmap.
Qed.

(** ** Loading the cache *)

(** The test [.days > 1] holds from two full days on. *)
Lemma days_between_gt_1 (now t : datetime) :
  (days_between now t > 1)%Z ↔ (2 * microseconds_per_day ≤ now - t)%Z.
Proof.
  unfold days_between, microseconds_per_day. split.
  - intros Hgt. destruct (decide (2 * (86400 * 1000000) ≤ now - t)%Z); [done|].
    assert ((now - t) / (86400 * 1000000) < 2)%Z; [|lia].
    apply Z.div_lt_upper_bound; lia.
  - intros Hle. assert (2 ≤ (now - t) / (86400 * 1000000))%Z; [|lia].
    apply Z.div_le_lower_bound; lia.
Qed.

Lemma load_cached_embeddings_readable (fs : cache_dir) (now t : datetime)
    (self : OpenAIVectorMatcher) (data : cache_data) :
  embedding_cache_file fs = Some (Return data) →
  metadata_cache_file fs = Some (Return {| created_at := Some (Return t) |}) →
  _load_cached_embeddings fs now self
  = if decide (days_between now t > 1)%Z then (self, false)
    else (load_cache self data,
          bool_decide (0 < length (default [] (cached_table_embeddings data)))).
Proof.
  intros Hpickle Hmeta. unfold _load_cached_embeddings. rewrite Hpickle, Hmeta. simpl.
  by destruct (decide _).
Qed.

(** C3, on the code.  A readable cache that is not empty is loaded, and
    no rebuild follows, although it was created more than one day ago, as
    long as it is less than two days old. *)
Theorem cache_older_than_one_day_is_loaded
    (fs : cache_dir) (now t : datetime) (self : OpenAIVectorMatcher)
    (data : cache_data) (tables : index) :
  embedding_cache_file fs = Some (Return data) →
  metadata_cache_file fs = Some (Return {| created_at := Some (Return t) |}) →
  cached_table_embeddings data = Some tables →
  tables ≠ [] →
  (microseconds_per_day < now - t < 2 * microseconds_per_day)%Z →
  _load_cached_embeddings fs now self = (load_cache self data, true).
Proof.
  intros Hpickle Hmeta Htables Hne Hage.
  rewrite (load_cached_embeddings_readable fs now t self data Hpickle Hmeta).
  destruct (decide _) as [Hold|_].
  - apply days_between_gt_1 in Hold. lia.
  - rewrite Htables. simpl. rewrite bool_decide_eq_true_2; [done|].
    destruct tables; [done|simpl; lia].
Qed.

(** A cache written at noon and read thirty-six hours later. *)
Lemma cache_older_than_one_day_is_loaded_witness :
  let data := {| cached_schema_items := Some [];
                 cached_table_embeddings := Some [("orders", [1%R])];
                 cached_column_embeddings := Some [] |} in
  let fs := {| embedding_cache_file := Some (Return data);
               metadata_cache_file := Some (Return {| created_at := Some (Return 0%Z) |});
               writable := true |} in
  _load_cached_embeddings fs (36 * 3600 * 1000000)%Z matcher_with_key
  = (load_cache matcher_with_key data, true).
Proof.
  intros data fs.
  apply (cache_older_than_one_day_is_loaded fs (36 * 3600 * 1000000)%Z 0%Z
           matcher_with_key data [("orders", [1%R])]); try done.
  all: unfold microseconds_per_day; lia.
Defined.

(** From two days on the cache is refused and the state is left alone. *)
Lemma cache_of_two_days_is_refused (fs : cache_dir) (now t : datetime)
    (self : OpenAIVectorMatcher) (data : cache_data) :
  embedding_cache_file fs = Some (Return data) →
  metadata_cache_file fs = Some (Return {| created_at := Some (Return t) |}) →
  (2 * microseconds_per_day ≤ now - t)%Z →
  _load_cached_embeddings fs now self = (self, false).
Proof.
  intros Hpickle Hmeta Hage.
  rewrite (load_cached_embeddings_readable fs now t self data Hpickle Hmeta).
  destruct (decide _) as [_|Hyoung]; [done|].
  exfalso. apply Hyoung. by apply days_between_gt_1.
Qed.

(** A fresh cache that is not empty is loaded. *)
Lemma fresh_cache_is_loaded (fs : cache_dir) (now t : datetime)
    (self : OpenAIVectorMatcher) (data : cache_data) (tables : index) :
  embedding_cache_file fs = Some (Return data) →
  metadata_cache_file fs = Some (Return {| created_at := Some (Return t) |}) →
  cached_table_embeddings data = Some tables →
  tables ≠ [] →
  (now - t ≤ microseconds_per_day)%Z →
  _load_cached_embeddings fs now self = (load_cache self data, true).
Proof.
  intros Hpickle Hmeta Htables Hne Hage.
  rewrite (load_cached_embeddings_readable fs now t self data Hpickle Hmeta).
  destruct (decide _) as [Hold|_].
  - apply days_between_gt_1 in Hold. unfold microseconds_per_day in *. lia.
  - rewrite Htables. simpl. rewrite bool_decide_eq_true_2; [done|].
    destruct tables; [done|simpl; lia].
Qed.

(** A missing file, unreadable metadata or an unreadable pickle: no cache. *)
Lemma unreadable_cache_is_refused (fs : cache_dir) (now : datetime)
    (self : OpenAIVectorMatcher) :
  embedding_cache_file fs = None
  ∨ metadata_cache_file fs = None
  ∨ (∃ e, metadata_cache_file fs = Some (Raise e))
  ∨ (∃ e, embedding_cache_file fs = Some (Raise e)) →
  _load_cached_embeddings fs now self = (self, false).
Proof.
  unfold _load_cached_embeddings.
  intros [-> | [-> | [[e ->] | [e ->]]]]; try done.
  - by destruct (embedding_cache_file fs).
  - by destruct (embedding_cache_file fs).
  - destruct (metadata_cache_file fs) as [[metadata|]|]; try done. simpl.
    destruct (default (Return 0%Z) (created_at metadata)); try done. simpl.
    by destruct (decide _).
Qed.

(** ** Building the index *)

(** The build does not depend on [max_tables] and [important_tables]: the
    list they shape is replaced by the catalog before it is used. *)
Lemma build_ignores_its_priorities
    (embeddings_create : nat → list string → outcome (list vec))
    (as_completed : list (list SchemaItem) → list (list SchemaItem))
    (db : adapter) (fs : cache_dir) (now : datetime) (force_rebuild : bool)
    (self : OpenAIVectorMatcher)
    (max_tables max_tables' : option Z) (important_tables important_tables' : option (list string)) :
  initialize_from_database embeddings_create as_completed db fs now force_rebuild
    max_tables important_tables self
  = initialize_from_database embeddings_create as_completed db fs now force_rebuild
      max_tables' important_tables' self.
Proof. reflexivity. Qed.

(** C5, on the code.  For the catalog [t1] ... [t51], with [t51] named as
    important and one table allowed, the prioritized and truncated list is
    [t51] alone; the build nevertheless processes, embeds and stores all
    fifty-one tables, in catalog order. *)
Theorem build_processes_the_whole_catalog :
  let db := catalog_adapter large_catalog in
  prioritized_tables (_get_all_tables db) (Some 1%Z) (Some ["t51"]) = ["t51"]
  ∧ match initialize_from_database provider_down (λ done, done) db no_cache 0%Z true
            (Some 1%Z) (Some ["t51"]) fresh_matcher with
    | Return (self, _) =>
        name <$> schema_items self = large_catalog
        ∧ fst <$> table_embeddings self = large_catalog
    | Raise _ => False
    end.
Proof.
  split; [by vm_compute|].
  destruct (initialize_from_database _ _ _ _ _ _ _ _ _) as [[self fs]|e] eqn:Hbuild.
  - assert (match initialize_from_database provider_down (λ done, done)
                    (catalog_adapter large_catalog) no_cache 0%Z true
                    (Some 1%Z) (Some ["t51"]) fresh_matcher with
            | Return (self, _) =>
                Some (name <$> schema_items self, fst <$> table_embeddings self)
            | Raise _ => None
            end = Some (large_catalog, large_catalog)) as Hrun by (by vm_compute).
    rewrite Hbuild in Hrun. by injection Hrun as -> ->.
  - assert (match initialize_from_database provider_down (λ done, done)
                    (catalog_adapter large_catalog) no_cache 0%Z true
                    (Some 1%Z) (Some ["t51"]) fresh_matcher with
            | Return _ => true
            | Raise _ => false
            end = true) as Hrun by (by vm_compute).
    by rewrite Hbuild in Hrun.
Qed.

(** Truncation alone already drops priority tables when more are named
    than [max_tables] allows. *)
Lemma truncation_drops_priority_tables :
  prioritized_tables large_catalog (Some 2%Z) (Some ["t51"; "t50"; "t7"]) = ["t51"; "t50"].
Proof. by vm_compute. Qed.

(** ** Cosine similarity and confidence *)

Lemma dot_self_nonneg (a : vec) : (0 <= dot a a)%R.
Proof.
  unfold dot. induction a as [|x a IH]; simpl; [lra|].
  pose proof (Rle_0_sqr x) as Hsq. unfold Rsqr in Hsq. lra.
Qed.

Lemma norm_zero_iff (a : vec) : norm a = 0%R ↔ dot a a = 0%R.
Proof.
  unfold norm. split.
  - apply sqrt_eq_0, dot_self_nonneg.
  - intros ->. apply sqrt_0.
Qed.

Lemma norm_sqr (a : vec) : (norm a * norm a)%R = dot a a.
Proof. unfold norm. apply sqrt_sqrt, dot_self_nonneg. Qed.

Lemma is_zero_true (x : R) : is_zero x = true ↔ x = 0%R.
Proof. unfold is_zero. by destruct (Req_dec_T x 0). Qed.

Lemma is_zero_false (x : R) : is_zero x = false ↔ x ≠ 0%R.
Proof. unfold is_zero. by destruct (Req_dec_T x 0). Qed.

Lemma dot_zeros_l (n : nat) (b : vec) : dot (zeros n) b = 0%R.
Proof.
  unfold dot, zeros. revert b. induction n as [|n IH]; intros b; [done|].
  destruct b as [|y b]; [done|]. simpl. rewrite IH. lra.
Qed.

Lemma norm_zeros (n : nat) : norm (zeros n) = 0%R.
Proof. apply norm_zero_iff, dot_zeros_l. Qed.

(** Identical vectors that are not zero: similarity 1. *)
Lemma cosine_identical (a : vec) :
  norm a ≠ 0%R → _cosine_similarity a a = Return 1%R.
Proof.
  intros Hnorm. unfold _cosine_similarity.
  rewrite (proj2 (is_zero_false _) Hnorm). simpl.
  destruct (decide (length a = length a)); [|done].
  f_equal. rewrite <- norm_sqr. by apply Rdiv_diag, Rmult_integral_contrapositive_currified.
Qed.

(** Orthogonal vectors: similarity 0. *)
Lemma cosine_orthogonal (a b : vec) :
  length a = length b → dot a b = 0%R → _cosine_similarity a b = Return 0%R.
Proof.
  intros Hlen Hdot. unfold _cosine_similarity.
  destruct (is_zero (norm a) || is_zero (norm b)); [done|].
  destruct (decide (length a = length b)); [|done].
  f_equal. rewrite Hdot. unfold Rdiv. apply Rmult_0_l.
Qed.

(** An operand of norm zero: similarity 0. *)
Lemma cosine_zero_norm (a b : vec) :
  norm a = 0%R ∨ norm b = 0%R → _cosine_similarity a b = Return 0%R.
Proof.
  intros Hzero. unfold _cosine_similarity.
  assert (is_zero (norm a) || is_zero (norm b) = true) as ->; [|done].
  apply orb_true_iff. destruct Hzero as [H|H]; [left|right]; by apply is_zero_true.
Qed.

(** The confidence is the similarity clamped to the unit interval. *)
Lemma confidence_clamps (similarity : R) :
  (0 <= _similarity_to_confidence similarity <= 1)%R
  ∧ ((0 <= similarity <= 1)%R → _similarity_to_confidence similarity = similarity)
  ∧ ((similarity <= 0)%R → _similarity_to_confidence similarity = 0%R)
  ∧ ((1 <= similarity)%R → _similarity_to_confidence similarity = 1%R).
Proof.
  unfold _similarity_to_confidence, Rmax, Rmin.
  repeat split; intros; repeat destruct (Rle_dec _ _); lra.
Qed.

(** ** Sorting and truncating *)



Lemma insert_desc_sorted {A} (key : A → R) (x : A) (l : list A) :
  Sorted (λ y z, (key z <= key y)%R) l →
  Sorted (λ y z, (key z <= key y)%R) (insert_desc key x l).
Proof.
  induction 1 as [|y l Hsorted IH Hhd]; simpl.
  - by repeat constructor.
  - destruct (Rlt_dec (key x) (key y)) as [Hlt|Hge].
    + constructor; [done|].
      destruct l as [|z l]; simpl in *.
      * constructor. lra.
      * destruct (Rlt_dec (key x) (key z)); constructor; [|lra].
        by inversion Hhd.
    + constructor; [by constructor|]. constructor. lra.
Qed.

(** The sort puts the scores in descending order. *)
Lemma sort_desc_sorted {A} (key : A → R) (l : list A) :
  Sorted (λ y z, (key z <= key y)%R) (sort_desc key l).
Proof.
  unfold sort_desc. induction l as [|x l IH]; simpl; [constructor|].
  by apply insert_desc_sorted.
Qed.


(** ** Table search *)

(** The candidates are exactly the cached tables whose similarity reaches
    the threshold, each with its clamped similarity as confidence. *)
Lemma table_similarities_spec (query_embedding : vec) (threshold : R)
    (items : index) (l : list table_match) :
  table_similarities query_embedding threshold items = Return l →
  ∀ entry, entry ∈ l ↔
    ∃ table v s, (table, v) ∈ items
                 ∧ _cosine_similarity query_embedding v = Return s
                 ∧ (s >= threshold)%R
                 ∧ entry = table_entry table s.
Proof.
  revert l. induction items as [|[table v] items IH]; intros l; simpl.
  - intros [= <-] entry. split; [by intros ?%elem_of_nil|].
    by intros (? & ? & ? & ?%elem_of_nil & _).
  - destruct (_cosine_similarity query_embedding v) as [s|] eqn:Hcos; [|done]. simpl.
    destruct (table_similarities query_embedding threshold items) as [rest|]; [|done].
    simpl. specialize (IH rest eq_refl).
    destruct (Rge_dec s threshold) as [Hge|Hlt]; intros [= <-] entry.
    + rewrite elem_of_cons, IH. split.
      * intros [-> | (t & w & s' & Hin & H)].
        -- exists table, v, s. repeat split; [left|done..].
        -- exists t, w, s'. split; [by right|done].
      * intros (t & w & s' & [[= -> ->] | Hin]%elem_of_cons & Hcos' & Hs & ->).
        -- left. rewrite Hcos in Hcos'. by injection Hcos' as <-.
        -- right. by exists t, w, s'.
    + rewrite IH. split.
      * intros (t & w & s' & Hin & H). exists t, w, s'. split; [by right|done].
      * intros (t & w & s' & [[= -> ->] | Hin]%elem_of_cons & Hcos' & Hs & ->).
        -- exfalso. apply Hlt. rewrite Hcos in Hcos'. by injection Hcos' as ->.
        -- by exists t, w, s'.
Qed.

(** An empty table index: the empty list, and the provider is not used. *)
Lemma find_similar_tables_empty
    (embeddings_create : nat → list string → outcome (list vec))
    (self : OpenAIVectorMatcher) (query : string) (top_k : Z) (threshold : R) :
  table_embeddings self = [] →
  find_similar_tables embeddings_create self query top_k threshold = Return [].
Proof. intros Hempty. unfold find_similar_tables. by rewrite Hempty. Qed.

(** Without a key the query embedding is the zero vector. *)
Lemma find_similar_tables_without_key
    (embeddings_create : nat → list string → outcome (list vec))
    (self : OpenAIVectorMatcher) (query : string) (top_k : Z) (threshold : R) :
  truthy (api_key self) = false →
  table_embeddings self ≠ [] →
  find_similar_tables embeddings_create self query top_k threshold
  = similarities ← table_similarities (zeros 1536) threshold (table_embeddings self);
    Return (slice_to top_k (sort_desc tm_similarity_score similarities)).
Proof.
  intros Hkey Hne. unfold find_similar_tables.
  destruct (table_embeddings self) as [|entry rest]; [done|].
  by rewrite (get_embeddings_without_key _ _ _ Hkey).
Qed.

(** C7, on the code.  With an API key, a query over a table index that is
    not empty ends in the [NameError] of [_get_embeddings]: no result list
    is returned. *)
Theorem find_similar_tables_raises_name_error
    (embeddings_create : nat → list string → outcome (list vec))
    (self : OpenAIVectorMatcher) (query : string) (top_k : Z) (threshold : R) :
  truthy (api_key self) = true →
  table_embeddings self ≠ [] →
  find_similar_tables embeddings_create self query top_k threshold
  = Raise (Exn NameError "name 'embeddings' is not defined").
Proof.
  intros Hkey Hne. unfold find_similar_tables.
  destruct (table_embeddings self) as [|entry rest]; [done|].
  by rewrite (get_embeddings_raises_name_error _ self [query] Hkey).
Qed.

(** One cached table, a key, a provider that answers. *)
Lemma find_similar_tables_raises_name_error_witness :
  find_similar_tables provider_up matcher_with_key "orders placed" 5 (3 / 10)%R
  = Raise (Exn NameError "name 'embeddings' is not defined").
Proof.
  apply (find_similar_tables_raises_name_error provider_up matcher_with_key
           "orders placed" 5 (3 / 10)%R); done.
Defined.

(** ** Column search *)

(** No threshold: when the similarities are computed, every column in
    scope is a candidate, whatever its similarity. *)
Lemma column_similarities_keep_all (query_embedding : vec)
    (items : index) (l : list column_match) :
  column_similarities query_embedding items = Return l →
  Forall2 (λ item entry,
             ∃ table column s,
               split_dot item.1 = Some (table, column)
               ∧ _cosine_similarity query_embedding item.2 = Return s
               ∧ entry = column_entry table column s) items l.
Proof.
  revert l. induction items as [|[col_key v] items IH]; intros l; simpl.
  - intros [= <-]. constructor.
  - destruct (_cosine_similarity query_embedding v) as [s|] eqn:Hcos; [|done]. simpl.
    destruct (split_dot col_key) as [[table column]|] eqn:Hsplit; [|done].
    destruct (column_similarities query_embedding items) as [rest|]; [|done].
    simpl. intros [= <-]. constructor; [|by apply IH].
    exists table, column, s. by repeat split.
Qed.




(** C10, on the code.  With an API key, a query over a column index that
    is not empty ends in the [NameError] of [_get_embeddings]: no candidate
    list is returned. *)
Theorem find_relevant_columns_raises_name_error
    (embeddings_create : nat → list string → outcome (list vec))
    (self : OpenAIVectorMatcher) (query : string) (table : option string) (top_k : Z) :
  truthy (api_key self) = true →
  column_embeddings self ≠ [] →
  find_relevant_columns embeddings_create self query table top_k
  = Raise (Exn NameError "name 'embeddings' is not defined").
Proof.
  intros Hkey Hne. unfold find_relevant_columns.
  destruct (column_embeddings self) as [|entry rest]; [done|].
  by rewrite (get_embeddings_raises_name_error _ self [query] Hkey).
Qed.

(** One cached column, a key, a provider that answers. *)
Lemma find_relevant_columns_raises_name_error_witness :
  find_relevant_columns provider_up matcher_with_key "order id" (Some "orders") 10
  = Raise (Exn NameError "name 'embeddings' is not defined").
Proof.
  apply (find_relevant_columns_raises_name_error provider_up matcher_with_key
           "order id" (Some "orders") 10); done.
Defined.

(* ===================================================================== *)
(** * Part III: further properties of the code                            *)
(* ===================================================================== *)

(** ** Batching and input validation *)

(** X1.  The batches of [_get_embeddings] partition the texts: put end to
    end they are the validated texts, in order, nothing lost and nothing
    twice; no batch is empty and none holds more than its batch size,
    which is 75 at most. *)
Theorem batching_partitions_the_texts (valid_texts : list string) :
  let batch_size := batch_size_for (length valid_texts) in
  mjoin (batches batch_size valid_texts) = valid_texts
  ∧ Forall (λ batch, 0 < length batch ≤ batch_size) (batches batch_size valid_texts)
  ∧ batch_size ≤ 75.
Proof.
  intros batch_size.
  pose proof (batch_size_for_pos (length valid_texts)) as Hpos. fold batch_size in Hpos.
  split; [by apply batches_cover|]. split.
  - unfold batches. apply Forall_forall.
    intros batch (k & -> & Hk)%list_elem_of_fmap. apply elem_of_seq in Hk as [_ Hk].
    simpl in Hk. rewrite length_take, length_drop.
    pose proof (Nat.Div0.mul_div_le (length valid_texts + batch_size - 1) batch_size) as Hdiv.
    assert (S k * batch_size ≤ batch_size * ((length valid_texts + batch_size - 1) / batch_size))
      by nia.
    nia.
  - unfold batch_size, batch_size_for. repeat case_match; lia.
Qed.

Lemma lstrip_clean (s : string) :
  match s with String c _ => is_space c = false | EmptyString => True end →
  lstrip s = s.
Proof. destruct s as [|c s]; [done|]. simpl. by intros ->. Qed.

Lemma lstrip_head (s : string) :
  match lstrip s with String c _ => is_space c = false | EmptyString => True end.
Proof.
  induction s as [|c s IH]; [done|]. simpl.
  destruct (is_space c) eqn:Hc; [done|]. by simpl.
Qed.

Lemma rstrip_head (s : string) :
  match s with String c _ => is_space c = false | EmptyString => True end →
  match rstrip s with String c _ => is_space c = false | EmptyString => True end.
Proof. destruct s as [|c s]; [done|]. simpl. intros Hc. by rewrite Hc. Qed.

Lemma rstrip_idemp (s : string) : rstrip (rstrip s) = rstrip s.
Proof.
  induction s as [|c s IH]; [done|]. simpl.
  destruct (is_space c && is_empty (rstrip s)) eqn:Hcond; [done|].
  simpl. by rewrite IH, Hcond.
Qed.

Lemma strip_idemp (s : string) : strip (strip s) = strip s.
Proof.
  unfold strip.
  rewrite (lstrip_clean (rstrip (lstrip s))) by apply rstrip_head, lstrip_head.
  apply rstrip_idemp.
Qed.

(** X2.  Every text sent to the provider is trimmed and not empty: a text
    with something other than white space is sent trimmed, any other text
    is replaced by the placeholder "empty text". *)
Theorem valid_text_is_trimmed_and_not_empty (text : string) :
  valid_text text ≠ ""
  ∧ strip (valid_text text) = valid_text text
  ∧ valid_text text = (if is_empty (strip text) then "empty text" else strip text).
Proof.
  unfold valid_text. destruct (is_empty (strip text)) eqn:Hempty.
  - by repeat split.
  - split; [|split; [apply strip_idemp|done]].
    intros Heq. by rewrite Heq in Hempty.
Qed.

(** ** The cache on disk *)

(** X3.  Cache round trip: what [_save_cached_embeddings] writes to a
    writable directory, [_load_cached_embeddings] reads back unchanged
    into any matcher (schema items, table vectors and column vectors, in
    order), as long as fewer than two days have passed; it answers [True]
    exactly when there is at least one table vector. *)
Theorem save_then_load_restores_the_index
    (fs : cache_dir) (saved_at now : datetime) (self other : OpenAIVectorMatcher) :
  writable fs = true →
  (now - saved_at < 2 * microseconds_per_day)%Z →
  _load_cached_embeddings (_save_cached_embeddings fs saved_at self) now other
  = ({| api_key := api_key other;
        schema_items := schema_items self;
        table_embeddings := table_embeddings self;
        column_embeddings := column_embeddings self |},
     bool_decide (0 < length (table_embeddings self))).
Proof.
  intros Hw Hage. unfold _save_cached_embeddings. rewrite Hw.
  erewrite (load_cached_embeddings_readable _ now saved_at other); [|done..].
  destruct (decide _) as [Hold|_]; [|done].
  apply days_between_gt_1 in Hold. lia.
Qed.

(** A matcher saved at noon and read back an hour later by a fresh one. *)
Lemma save_then_load_restores_the_index_witness :
  _load_cached_embeddings (_save_cached_embeddings no_cache 0%Z matcher_without_key)
    (3600 * 1000000)%Z fresh_matcher
  = ({| api_key := None; schema_items := [];
        table_embeddings := [("orders", [1%R])];
        column_embeddings := [("orders.id", [1%R])] |}, true).
Proof.
  apply (save_then_load_restores_the_index no_cache 0%Z (3600 * 1000000)%Z
           matcher_without_key fresh_matcher); [done|].
  unfold microseconds_per_day. lia.
Defined.

(** ** Reading the catalog *)

(** X4.  [_get_all_tables] answers with the second field of every row, in
    order, when all rows have two fields or more; a single shorter row,
    like an error or an exception of the adapter, leaves it with no table
    at all. *)
Theorem one_short_row_empties_the_table_list (db : adapter) (result : query_result) :
  db "SHOW TABLES" = Return result →
  truthy (error result) = false →
  (Forall (λ row, 2 ≤ length row) (rows result) →
     Forall2 (λ row table, row !! 1 = Some table) (rows result) (_get_all_tables db))
  ∧ (Exists (λ row, length row < 2) (rows result) → _get_all_tables db = []).
Proof.
  intros Hrun Herr. unfold _get_all_tables. rewrite Hrun, Herr. split.
  - intros Hrows.
    destruct (mapM (λ row : list string, row !! 1) (rows result)) as [tables|] eqn:Htables.
    + by apply mapM_Some in Htables.
    + apply mapM_None in Htables. apply Exists_exists in Htables as (row & Hin & Hnone).
      rewrite Forall_forall in Hrows. specialize (Hrows row Hin).
      apply lookup_ge_None in Hnone. lia.
  - intros Hshort. rewrite mapM_None_2; [done|].
    eapply Exists_impl; [exact Hshort|]. intros row Hlen. simpl in Hlen.
    apply lookup_ge_None. lia.
Qed.

(** Three rows, the second one too short: no table is listed. *)
Lemma one_short_row_empties_the_table_list_witness :
  _get_all_tables (λ _, Return {| error := None;
                                  rows := [["db"; "orders"]; ["db"]; ["db"; "items"]] |})
  = [].
Proof.
  eapply (one_short_row_empties_the_table_list
            (λ _, Return {| error := None;
                            rows := [["db"; "orders"]; ["db"]; ["db"; "items"]] |})).
  - reflexivity.
  - reflexivity.
  - apply Exists_cons_tl, Exists_cons_hd. simpl. lia.
Defined.

(** ** Building the index: what a build stores *)

Lemma lookup_set_item (key : string) (v : vec) (d : index) :
  lookup_item key (set_item key v d) = Some v.
Proof.
  induction d as [|[k w] d IH]; simpl.
  - by rewrite String.eqb_refl.
  - destruct (String.eqb k key) eqn:Hk; simpl; by rewrite Hk.
Qed.

Lemma lookup_set_item_ne (key key' : string) (v : vec) (d : index) :
  key ≠ key' → lookup_item key' (set_item key v d) = lookup_item key' d.
Proof.
  intros Hne. induction d as [|[k w] d IH]; simpl.
  - by rewrite (proj2 (String.eqb_neq key key')).
  - destruct (String.eqb k key) eqn:Hk; simpl.
    + apply String.eqb_eq in Hk as ->. by rewrite (proj2 (String.eqb_neq key key')).
    + by rewrite IH.
Qed.

Lemma lookup_set_item_is_Some (key key' : string) (v : vec) (d : index) :
  is_Some (lookup_item key' d) → is_Some (lookup_item key' (set_item key v d)).
Proof.
  intros Hsome. destruct (decide (key = key')) as [->|Hne].
  - rewrite lookup_set_item. eauto.
  - by rewrite lookup_set_item_ne.
Qed.


Lemma store_embeddings_api_key (self : OpenAIVectorMatcher) (entries : list (SchemaItem * vec)) :
  api_key (foldl store_embedding self entries) = api_key self.
Proof. revert self. induction entries as [|e es IH]; intros self; simpl; [done|]. by rewrite IH. Qed.

Lemma store_embeddings_schema_items (self : OpenAIVectorMatcher)
    (entries : list (SchemaItem * vec)) :
  schema_items (foldl store_embedding self entries)
  = schema_items self ++ ((λ e, with_embedding e.1 e.2) <$> entries).
Proof.
  revert self. induction entries as [|e es IH]; intros self; simpl.
  - by rewrite app_nil_r.
  - rewrite IH. simpl. by rewrite <- app_assoc.
Qed.

Lemma store_embeddings_keep_keys (self : OpenAIVectorMatcher)
    (entries : list (SchemaItem * vec)) (key : string) :
  (is_Some (lookup_item key (table_embeddings self)) →
   is_Some (lookup_item key (table_embeddings (foldl store_embedding self entries))))
  ∧ (is_Some (lookup_item key (column_embeddings self)) →
     is_Some (lookup_item key (column_embeddings (foldl store_embedding self entries)))).
Proof.
  revert self. induction entries as [|e es IH]; intros self; simpl; [done|].
  destruct (IH (store_embedding self e)) as [IHt IHc].
  split; intros Hsome; [apply IHt|apply IHc]; simpl;
    destruct (String.eqb (type e.1) "table"); try done;
    by apply lookup_set_item_is_Some.
Qed.

Lemma store_embeddings_tables (self : OpenAIVectorMatcher)
    (entries : list (SchemaItem * vec)) (v : vec) (table : string) :
  Forall (λ e, e.2 = v) entries →
  lookup_item table (table_embeddings self) = Some v
  ∨ (∃ item, (item, v) ∈ entries ∧ type item = "table" ∧ name item = table) →
  lookup_item table (table_embeddings (foldl store_embedding self entries)) = Some v.
Proof.
  intros Hall. revert self. induction Hall as [|[item w] es Hw _ IH]; intros self; simpl.
  - intros [?|(item & ?%elem_of_nil & _)]; done.
  - simpl in Hw. subst w. intros Hcase. apply IH.
    destruct (decide (type item = "table" ∧ name item = table)) as [[Hty <-]|Hother].
    + left. simpl. rewrite Hty. simpl. apply lookup_set_item.
    + destruct Hcase as [Hold | (item' & [[= <-] | Hin]%elem_of_cons & Hty & Hname)].
      * left. simpl. destruct (String.eqb (type item) "table") eqn:Hty; [|done].
        apply String.eqb_eq in Hty.
        rewrite lookup_set_item_ne; [done|]. intros Heq. by apply Hother.
      * by destruct Hother.
      * right. by exists item'.
Qed.

Lemma zip_with_constant {A B} (l : list A) (f : A → B) (z : vec) :
  zip l ((λ _, z) <$> (f <$> l)) = (λ x, (x, z)) <$> l.
Proof. induction l as [|x l IH]; simpl; [done|]. f_equal. exact IH. Qed.

(** The items built for a catalog hold one table item for each table. *)
Lemma table_item_among_items (db : adapter)
    (as_completed : list (list SchemaItem) → list (list SchemaItem))
    (tables : list string) (table : string) :
  (∀ l, as_completed l ≡ₚ l) →
  table ∈ tables →
  ∃ item, type item = "table" ∧ name item = table
          ∧ item ∈ (if (20 <? length tables)%nat
                    then concat (as_completed (process_table db <$> tables))
                    else concat (process_table db <$> tables)).
Proof.
  intros Hperm Hin.
  assert (process_table db table ∈ process_table db <$> tables) as Hitems
    by (apply list_elem_of_fmap; eauto).
  exists (with_description {| name := table; type := "table"; table_name := "";
                              data_type := ""; description := ""; embedding := None |}).
  split; [done|]. split; [done|].
  destruct (20 <? length tables)%nat;
    apply list_elem_of_In, in_concat; exists (process_table db table);
    (split; [|by left]); apply list_elem_of_In; [by rewrite Hperm|done].
Qed.

(** X5.  A forced build without an API key over a catalog that is not
    empty succeeds, calls no provider, and indexes every table of the
    catalog: each table name is a key of the table index, every stored
    item carries the zero vector of 1536 entries, and the state is saved
    to the cache. *)
Theorem keyless_build_indexes_every_table
    (embeddings_create : nat → list string → outcome (list vec))
    (as_completed : list (list SchemaItem) → list (list SchemaItem))
    (db : adapter) (fs : cache_dir) (now : datetime)
    (max_tables : option Z) (important_tables : option (list string))
    (self : OpenAIVectorMatcher) :
  truthy (api_key self) = false →
  (∀ l, as_completed l ≡ₚ l) →
  _get_all_tables db ≠ [] →
  ∃ self',
    initialize_from_database embeddings_create as_completed db fs now true
      max_tables important_tables self
    = Return (self', _save_cached_embeddings fs now self')
    ∧ (∀ table, table ∈ _get_all_tables db →
         lookup_item table (table_embeddings self') = Some (zeros 1536))
    ∧ Forall (λ item, embedding item = Some (zeros 1536)) (schema_items self')
    ∧ api_key self' = api_key self.
Proof.
  intros Hkey Hperm Hne. unfold initialize_from_database.
  destruct (_get_all_tables db) as [|t ts] eqn:Htables; [done|]. rewrite <- Htables.
  rewrite (get_embeddings_without_key _ _ _ Hkey). simpl.
  eexists. split; [reflexivity|].
  rewrite zip_with_constant. split; [|split].
  - intros table Hin.
    destruct (table_item_among_items db as_completed _ table Hperm Hin)
      as (item & Hty & Hname & Hitem).
    apply store_embeddings_tables.
    + apply Forall_fmap, Forall_true. done.
    + right. exists item. split; [|done]. apply list_elem_of_fmap. eauto.
  - rewrite store_embeddings_schema_items. simpl.
    rewrite <- list_fmap_compose. apply Forall_fmap, Forall_true. done.
  - by rewrite store_embeddings_api_key.
Qed.

(** Two tables without columns, no key. *)
Lemma keyless_build_indexes_every_table_witness :
  ∃ self',
    initialize_from_database provider_down (λ done, done)
      (catalog_adapter ["orders"; "items"]) no_cache 0%Z true None None fresh_matcher
    = Return (self', _save_cached_embeddings no_cache 0%Z self')
    ∧ (∀ table, table ∈ _get_all_tables (catalog_adapter ["orders"; "items"]) →
         lookup_item table (table_embeddings self') = Some (zeros 1536))
    ∧ Forall (λ item, embedding item = Some (zeros 1536)) (schema_items self')
    ∧ api_key self' = api_key fresh_matcher.
Proof.
  apply (keyless_build_indexes_every_table provider_down (λ done, done)
           (catalog_adapter ["orders"; "items"]) no_cache 0%Z None None fresh_matcher);
    done.
Defined.



(** X7.  A forced rebuild never drops an entry: every table key and every
    column key that was in the index before the build is still in it
    afterwards, also when the catalog no longer has that table. *)
Theorem rebuild_keeps_every_old_key
    (embeddings_create : nat → list string → outcome (list vec))
    (as_completed : list (list SchemaItem) → list (list SchemaItem))
    (db : adapter) (fs fs' : cache_dir) (now : datetime)
    (max_tables : option Z) (important_tables : option (list string))
    (self self' : OpenAIVectorMatcher) (key : string) :
  initialize_from_database embeddings_create as_completed db fs now true
    max_tables important_tables self = Return (self', fs') →
  (is_Some (lookup_item key (table_embeddings self)) →
   is_Some (lookup_item key (table_embeddings self')))
  ∧ (is_Some (lookup_item key (column_embeddings self)) →
     is_Some (lookup_item key (column_embeddings self'))).
Proof.
  unfold initialize_from_database.
  destruct (_get_all_tables db) as [|t ts] eqn:Htables; [by intros [= <- _]|].
  rewrite <- Htables.
  destruct (_get_embeddings embeddings_create self _) as [embeddings|]; [|done].
  simpl. intros [= <- _].
  apply (store_embeddings_keep_keys (clear_schema_items self)).
Qed.

(** The table [orders] was indexed; the catalog now holds [items] only. *)
Lemma rebuild_keeps_every_old_key_witness :
  let built := foldl store_embedding (clear_schema_items matcher_without_key)
                 (zip (process_table (catalog_adapter ["items"]) "items") [zeros 1536]) in
  (is_Some (lookup_item "orders" (table_embeddings matcher_without_key)) →
   is_Some (lookup_item "orders" (table_embeddings built)))
  ∧ (is_Some (lookup_item "orders" (column_embeddings matcher_without_key)) →
     is_Some (lookup_item "orders" (column_embeddings built))).
Proof.
  intros built.
  apply (rebuild_keeps_every_old_key provider_down (λ done, done)
           (catalog_adapter ["items"]) no_cache
           (_save_cached_embeddings no_cache 0%Z built) 0%Z None None
           matcher_without_key built "orders").
  reflexivity.
Defined.

(** X8.  [_load_cached_embeddings] can answer [False] and still have
    replaced the index in memory: for a readable cache less than two days
    old that holds no table vector, the schema items and the column
    vectors of the matcher are those of the cache afterwards, and the
    table index is empty. *)
Theorem refused_cache_still_replaces_the_index
    (fs : cache_dir) (now t : datetime) (self : OpenAIVectorMatcher) (data : cache_data) :
  embedding_cache_file fs = Some (Return data) →
  metadata_cache_file fs = Some (Return {| created_at := Some (Return t) |}) →
  (now - t < 2 * microseconds_per_day)%Z →
  default [] (cached_table_embeddings data) = [] →
  _load_cached_embeddings fs now self
  = ({| api_key := api_key self;
        schema_items := default [] (cached_schema_items data);
        table_embeddings := [];
        column_embeddings := default [] (cached_column_embeddings data) |}, false).
Proof.
  intros Hpickle Hmeta Hage Hempty.
  rewrite (load_cached_embeddings_readable fs now t self data Hpickle Hmeta).
  destruct (decide _) as [Hold|_].
  - apply days_between_gt_1 in Hold. lia.
  - unfold load_cache. by rewrite Hempty.
Qed.

(** A cache with one column vector and no table vector, read into a
    matcher that has a table indexed. *)
Lemma refused_cache_still_replaces_the_index_witness :
  let data := {| cached_schema_items := Some [];
                 cached_table_embeddings := Some [];
                 cached_column_embeddings := Some [("items.sku", [1%R])] |} in
  let fs := {| embedding_cache_file := Some (Return data);
               metadata_cache_file := Some (Return {| created_at := Some (Return 0%Z) |});
               writable := true |} in
  _load_cached_embeddings fs 1%Z matcher_without_key
  = ({| api_key := None; schema_items := []; table_embeddings := [];
        column_embeddings := [("items.sku", [1%R])] |}, false).
Proof.
  intros data fs.
  apply (refused_cache_still_replaces_the_index fs 1%Z 0%Z matcher_without_key data);
    try done.
  all: unfold microseconds_per_day; lia.
Defined.

(** ** Column keys *)

Lemma prefix_cons (a b : ascii) (s1 s2 : string) :
  String.prefix (String a s1) (String b s2)
  = if ascii_dec a b then String.prefix s1 s2 else false.
Proof. reflexivity. Qed.

Lemma contains_dot_cons (c : ascii) (s : string) :
  contains "." (String c s) = Ascii.eqb c "."%char || contains "." s.
Proof.
  change (contains "." (String c s))
    with (String.prefix "." (String c s) || contains "." s).
  rewrite prefix_cons. destruct (ascii_dec "." c) as [<-|Hne].
  - by destruct s.
  - assert (Ascii.eqb c "." = false) as -> by (apply Ascii.eqb_neq; congruence).
    done.
Qed.

Lemma split_dot_before_is_dot_free (s before after : string) :
  split_dot s = Some (before, after) → contains "." before = false.
Proof.
  revert before. induction s as [|c s IH]; intros before; [done|]. simpl.
  destruct (Ascii.eqb c ".") eqn:Hc; [by intros [= <- _]|].
  destruct (split_dot s) as [[a b]|]; [|done]. simpl. intros [= <- <-].
  rewrite contains_dot_cons, Hc. by apply IH.
Qed.

(** X9.  The key of a column in the index, table name, dot, column name,
    is split back by the column search into that table and that column
    exactly when the table name holds no dot; the column name may hold
    dots. *)
Theorem column_key_round_trip (table column : string) :
  split_dot (table +:+ "." +:+ column) = Some (table, column)
  ↔ contains "." table = false.
Proof.
  split; [apply split_dot_before_is_dot_free|].
  induction table as [|c table IH]; [done|].
  rewrite contains_dot_cons. intros [Hc Hrest]%orb_false_iff.
  simpl. rewrite Hc. simpl in IH. by rewrite IH.
Qed.

Lemma scope_prefix (t t' column : string) :
  contains "." t = false → contains "." t' = false →
  String.prefix (t +:+ ".") (t' +:+ "." +:+ column) = bool_decide (t = t').
Proof.
  revert t'. induction t as [|b t IH]; intros [|a t'] Ht Ht'.
  - rewrite bool_decide_eq_true_2 by done. by destruct column.
  - rewrite contains_dot_cons in Ht'. apply orb_false_iff in Ht' as [Ha _].
    apply Ascii.eqb_neq in Ha.
    change (String.prefix ("" +:+ ".") (String a t' +:+ "." +:+ column))
      with (String.prefix (String "." "") (String a (t' +:+ "." +:+ column))).
    rewrite prefix_cons. destruct (ascii_dec "." a); [congruence|done].
  - rewrite contains_dot_cons in Ht. apply orb_false_iff in Ht as [Hb _].
    apply Ascii.eqb_neq in Hb.
    change (String.prefix (String b t +:+ ".") ("" +:+ "." +:+ column))
      with (String.prefix (String b (t +:+ ".")) (String "." column)).
    rewrite prefix_cons. destruct (ascii_dec b "."); [done|].
    by rewrite bool_decide_eq_false_2.
  - rewrite contains_dot_cons in Ht, Ht'.
    apply orb_false_iff in Ht as [_ Ht]. apply orb_false_iff in Ht' as [_ Ht'].
    change (String.prefix (String b t +:+ ".") (String a t' +:+ "." +:+ column))
      with (String.prefix (String b (t +:+ ".")) (String a (t' +:+ "." +:+ column))).
    rewrite prefix_cons. destruct (ascii_dec b a) as [->|Hne].
    + rewrite (IH t' Ht Ht').
      destruct (decide (t = t')) as [->|Hne].
      * by rewrite !bool_decide_eq_true_2.
      * rewrite !bool_decide_eq_false_2; [done| |done]. by intros [= ?].
    + rewrite bool_decide_eq_false_2; [done|]. by intros [= ? ?].
Qed.

(** X10.  Restricting the column search to a table keeps exactly the
    columns of that table, in index order, when no table name holds a dot
    and the table asked for is not the empty string. *)
Theorem scope_is_exactly_the_table
    (self : OpenAIVectorMatcher) (columns : list (string * string * vec)) (table : string) :
  column_embeddings self = (λ c, (c.1.1 +:+ "." +:+ c.1.2, c.2)) <$> columns →
  Forall (λ c, contains "." c.1.1 = false) columns →
  contains "." table = false →
  table ≠ "" →
  columns_in_scope self (Some table)
  = (λ c, (c.1.1 +:+ "." +:+ c.1.2, c.2)) <$> filter (λ c, c.1.1 = table) columns.
Proof.
  intros Hkeys Hdots Htable Hne. unfold columns_in_scope.
  destruct table as [|a table]; [done|]. simpl is_empty. cbv iota.
  rewrite Hkeys. clear Hkeys.
  induction Hdots as [|[[t c] v] columns Ht _ IH]; [done|].
  rewrite fmap_cons, filter_cons. simpl in *.
  change (String.prefix (String a (table +:+ ".")) (t +:+ String "." c))
    with (String.prefix (String a table +:+ ".") (t +:+ "." +:+ c)).
  rewrite (scope_prefix (String a table) t c Htable Ht).
  destruct (decide (t = String a table)) as [->|Hother].
  - rewrite bool_decide_eq_true_2 by done. by rewrite fmap_cons, IH.
  - rewrite bool_decide_eq_false_2; [done|]. by intros <-.
Qed.

(** Columns of two tables, the search restricted to the first. *)
Lemma scope_is_exactly_the_table_witness :
  columns_in_scope
    {| api_key := None; schema_items := []; table_embeddings := [];
       column_embeddings := [("orders.id", [1%R]); ("items.sku", [0%R]);
                             ("orders.created_at", [1%R])] |}
    (Some "orders")
  = [("orders.id", [1%R]); ("orders.created_at", [1%R])].
Proof.
  apply (scope_is_exactly_the_table _
           [("orders", "id", [1%R]); ("items", "sku", [0%R]);
            ("orders", "created_at", [1%R])] "orders"); try done.
  repeat constructor.
Defined.

(** ** Searching without an API key *)

Lemma table_similarities_zero_query (n : nat) (threshold : R) (items : index) :
  (0 < threshold)%R → table_similarities (zeros n) threshold items = Return [].
Proof.
  intros Hpos. induction items as [|[table v] items IH]; [done|]. simpl.
  rewrite (cosine_zero_norm (zeros n) v) by (left; apply norm_zeros). simpl.
  rewrite IH. simpl. destruct (Rge_dec 0 threshold); [lra|done].
Qed.

Lemma slice_to_nil {A} (k : Z) : slice_to k (@nil A) = [].
Proof. unfold slice_to. by destruct (decide _); rewrite take_nil. Qed.

(** X11.  Without an API key the table search finds nothing: for every
    index, query and [top_k], and every threshold above zero (0.3 by
    default), [find_similar_tables] returns the empty list; every cached
    table scores 0 against the zero vector that stands for the query. *)
Theorem keyless_table_search_finds_nothing
    (embeddings_create : nat → list string → outcome (list vec))
    (self : OpenAIVectorMatcher) (query : string) (top_k : Z) (threshold : R) :
  truthy (api_key self) = false →
  (0 < threshold)%R →
  find_similar_tables embeddings_create self query top_k threshold = Return [].
Proof.
  intros Hkey Hpos.
  destruct (table_embeddings self) as [|entry rest] eqn:Hindex.
  - by apply find_similar_tables_empty.
  - rewrite find_similar_tables_without_key; [|done|by rewrite Hindex].
    rewrite table_similarities_zero_query by done. simpl. by rewrite slice_to_nil.
Qed.

(** One cached table, no key, the default threshold. *)
Lemma keyless_table_search_finds_nothing_witness :
  find_similar_tables provider_up matcher_without_key "orders placed" 5 (3 / 10)%R
  = Return [].
Proof.
  apply (keyless_table_search_finds_nothing provider_up matcher_without_key
           "orders placed" 5 (3 / 10)%R); [done|lra].
Defined.



(** ** Resolving the inputs of a task *)

Lemma item_of_assign {V} (key : string) (v : V) (d : list (string * V)) :
  item_of key (assign key v d) = Some v.
Proof.
  induction d as [|[k w] d IH]; simpl.
  - by rewrite String.eqb_refl.
  - destruct (String.eqb k key) eqn:Hk; simpl; by rewrite Hk.
Qed.

Lemma item_of_assign_ne {V} (key key' : string) (v : V) (d : list (string * V)) :
  key ≠ key' → item_of key' (assign key v d) = item_of key' d.
Proof.
  intros Hne. induction d as [|[k w] d IH]; simpl.
  - by rewrite (proj2 (String.eqb_neq key key')).
  - destruct (String.eqb k key) eqn:Hk; simpl.
    + apply String.eqb_eq in Hk as ->. by rewrite (proj2 (String.eqb_neq key key')).
    + by rewrite IH.
Qed.

Lemma item_of_None {V} (key : string) (d : list (string * V)) :
  key ∉ d.*1 → item_of key d = None.
Proof.
  induction d as [|[k w] d IH]; [done|]. simpl. intros Hnot.
  rewrite (proj2 (String.eqb_neq k key)); [apply IH|]; set_solver.
Qed.

Lemma item_of_Some {V} (key : string) (v : V) (d : list (string * V)) :
  NoDup d.*1 → (key, v) ∈ d → item_of key d = Some v.
Proof.
  induction d as [|[k w] d IH]; simpl; [by intros _ ?%elem_of_nil|].
  intros [Hnot Hnd]%NoDup_cons [[= -> ->] | Hin]%elem_of_cons.
  - by rewrite String.eqb_refl.
  - rewrite (proj2 (String.eqb_neq k key)); [by apply IH|].
    intros ->. apply Hnot. apply list_elem_of_fmap. by exists (key, v).
Qed.

(** Assigning the entries of a dictionary one after the other. *)
Lemma item_of_assign_all {V W} (f : V → W) (key : string)
    (l : list (string * V)) (d : list (string * W)) :
  NoDup l.*1 →
  item_of key (foldl (λ d kv, assign kv.1 (f kv.2) d) d l)
  = match item_of key l with
    | Some v => Some (f v)
    | None => item_of key d
    end.
Proof.
  revert d. induction l as [|[k v] l IH]; intros d; [done|].
  simpl. intros [Hnot Hnd]%NoDup_cons. rewrite IH by done.
  destruct (String.eqb k key) eqn:Hk.
  - apply String.eqb_eq in Hk as ->.
    by rewrite (item_of_None key l), item_of_assign.
  - apply String.eqb_neq in Hk. by rewrite item_of_assign_ne.
Qed.

(** X13.  Input resolution.  For a task whose input data is a dictionary,
    [_resolve_task_inputs] returns a dictionary in which every input key
    holds its declared value, except that a value of the form
    [from_task_N] is replaced by the result of the first previous task
    whose id starts with [N_], and by the empty dictionary when there is
    none; every other key holds the result of the previous task of that
    id, and [original_query] holds the query unless a task or an input is
    named so.  It never raises for such a task. *)
Theorem resolved_inputs_lookup (task : AgentTask) (fields previous_results : pydict)
    (user_query : string) :
  input_data task = JObj fields →
  NoDup fields.*1 →
  NoDup previous_results.*1 →
  ∃ resolved,
    _resolve_task_inputs task previous_results user_query = Return resolved
    ∧ (∀ key,
         item_of key resolved
         = match item_of key fields with
           | Some (JStr s) =>
               if String.prefix "from_task_" s
               then Some (default (JObj [])
                            (snd <$> List.find
                               (λ kv, String.prefix (remove_all "from_task_" s +:+ "_") kv.1)
                               previous_results))
               else Some (JStr s)
           | Some v => Some v
           | None =>
               match item_of key previous_results with
               | Some r => Some r
               | None => if decide (key = "original_query")
                         then Some (JStr user_query) else None
               end
           end).
Proof.
  intros Hinput Hfields Hprev. unfold _resolve_task_inputs. rewrite Hinput.
  eexists. split; [reflexivity|]. intros key.
  rewrite (item_of_assign_all (resolve_value previous_results)) by done.
  destruct (item_of key fields) as [v|].
  - unfold resolve_value, referenced_result. destruct v; try done.
    by destruct (String.prefix "from_task_" s).
  - pose proof (item_of_assign_all (λ r : json, r) key previous_results
                  [("original_query", JStr user_query)] Hprev) as Hall.
    cbv beta in Hall. rewrite Hall.
    destruct (item_of key previous_results); [done|].
    change (item_of key [("original_query", JStr user_query)])
      with (if String.eqb "original_query" key then Some (JStr user_query) else None).
    destruct (decide (key = "original_query")) as [->|Hne]; [done|].
    by rewrite (proj2 (String.eqb_neq "original_query" key)).
Qed.

(** The third task of the default plan after the first two. *)
Lemma resolved_inputs_lookup_witness :
  ∃ resolved,
    _resolve_task_inputs
      {| task_id := "3_similarity_matching"; task_type := SIMILARITY_MATCHING;
         input_data := JObj [("entities", JStr "from_task_2"); ("schema", JStr "from_task_1")];
         required_output := JObj []; constraints := JObj [];
         dependencies := ["1_discover_schema"; "2_semantic_analysis"] |}
      [("1_discover_schema", JObj [("status", JStr "completed")]);
       ("2_semantic_analysis", JObj [("entities", JArr [JStr "orders"])])]
      "top customers" = Return resolved
    ∧ item_of "entities" resolved = Some (JObj [("entities", JArr [JStr "orders"])]).
Proof.
  destruct (resolved_inputs_lookup
              {| task_id := "3_similarity_matching"; task_type := SIMILARITY_MATCHING;
                 input_data := JObj [("entities", JStr "from_task_2");
                                     ("schema", JStr "from_task_1")];
                 required_output := JObj []; constraints := JObj [];
                 dependencies := ["1_discover_schema"; "2_semantic_analysis"] |}
              [("entities", JStr "from_task_2"); ("schema", JStr "from_task_1")]
              [("1_discover_schema", JObj [("status", JStr "completed")]);
               ("2_semantic_analysis", JObj [("entities", JArr [JStr "orders"])])]
              "top customers" eq_refl) as (resolved & Hrun & Hlookup).
  - apply (bool_decide_unpack _). by vm_compute.
  - apply (bool_decide_unpack _). by vm_compute.
  - exists resolved. split; [done|]. by rewrite Hlookup.
Defined.

(** ** The handlers *)

Lemma get_item_of (fields : list (string * json)) (key : string) (d : json) :
  get fields key d = default d (item_of key fields).
Proof.
  induction fields as [|[k v] fields IH]; [done|]. simpl.
  by destruct (String.eqb k key).
Qed.

Lemma guarded_cases (body : outcome json) (r : json) :
  guarded body = Return r →
  body = Return r ∨ ∃ e, body = Raise e ∧ r = failed_with e.
Proof.
  unfold guarded, try_except. destruct body as [r'|e]; intros [= <-]; eauto.
Qed.

Lemma guarded_returns (body : outcome json) : ∃ r, guarded body = Return r.
Proof. unfold guarded, try_except. destruct body; eauto. Qed.

Lemma failed_with_lacks (e : exn) (key : string) :
  key ≠ "error" → key ≠ "status" → lacks key (failed_with e).
Proof.
  intros H1 H2. eexists. split; [reflexivity|]. cbn [item_of].
  destruct (String.eqb_spec "error" key); [congruence|].
  destruct (String.eqb_spec "status" key); [congruence|]. done.
Qed.

Lemma failed_with_status (e : exn) : has_status "failed" (failed_with e).
Proof. eexists. split; reflexivity. Qed.

(** Destructs the first call whose outcome decides how a handler goes on. *)
Ltac next_call H :=
  match type of H with
  | context [mbind _ ?m] =>
      lazymatch m with
      | Return _ => fail
      | Raise _ => fail
      | _ => destruct m eqn:?; simpl in H; try discriminate H
      end
  end.

Lemma select_first_result (tables : json) (choice : string) (suggestions r : json) :
  select_first tables choice suggestions = Return r →
  ∃ selected, r = verification_result selected choice suggestions.
Proof.
  unfold select_first. intros H. repeat next_call H.
  injection H as <-. eauto.
Qed.

Lemma verification_result_lacks (selected : json) (choice : string) (suggestions : json) :
  lacks "confirmed_tables" (verification_result selected choice suggestions).
Proof. eexists. split; reflexivity. Qed.

(** What user verification hands on never has the key that query
    generation reads. *)
Lemma user_verification_lacks_confirmed_tables (inputs : pydict) :
  ∃ r, _execute_user_verification inputs = Return r ∧ lacks "confirmed_tables" r.
Proof.
  unfold _execute_user_verification.
  match goal with |- ∃ r, guarded ?body = _ ∧ _ => destruct (guarded_returns body) as [r Hr] end.
  exists r. split; [done|].
  apply guarded_cases in Hr as [Hbody | (e & _ & ->)]; [|by apply failed_with_lacks].
  repeat first
    [ next_call Hbody
    | match type of Hbody with
      | context [match ?p with pair _ _ => _ end] =>
          destruct p; simpl in Hbody; try discriminate Hbody
      end ].
  all: repeat match type of Hbody with
              | context [if ?b then _ else _] => destruct b; try discriminate Hbody
              end.
  all: try (apply select_first_result in Hbody as [selected ->]).
  all: try (injection Hbody as <-).
  all: try apply verification_result_lacks.
  all: eexists; split; reflexivity.
Qed.

(** ** What the engine records *)

Section ResultsFacts.
Context (handler : AgentTask → gmap string json → string → outcome json).
Context (user_query : string) (tasks : list AgentTask).
Context (P : string → json → Prop).

(** [P] is kept by whatever the engine records for a task whose
    dependencies have results. *)
Hypothesis recorded_keeps :
  ∀ task previous_results r,
    task ∈ tasks →
    Forall (λ dep, is_Some (previous_results !! dep)) (dependencies task) →
    (∀ id r', previous_results !! id = Some r' → P id r') →
    (handler task previous_results user_query = Return r
     ∨ ∃ e, handler task previous_results user_query = Raise e
            ∧ is_critical (task_type task) = false
            ∧ r = fallback_result e) →
    P (task_id task) r.

Lemma run_task_results (task : AgentTask) (st st' : engine) :
  dom (results st) = completed_tasks st →
  (∀ id r, results st !! id = Some r → P id r) →
  task ∈ tasks →
  Forall (λ dep, dep ∈ completed_tasks st) (dependencies task) →
  run_task handler user_query task st = Continue st' →
  ∀ id r, results st' !! id = Some r → P id r.
Proof.
  intros Hdom HP Hin Hdeps Hrun id r.
  apply run_task_continue in Hrun as (_ & _ & r' & -> & Hres).
  intros [[<- <-] | [_ Hold]]%lookup_insert_Some; [|by apply HP].
  apply (recorded_keeps task (results st)); try done.
  eapply Forall_impl; [exact Hdeps|]. intros dep Hdep. simpl in Hdep.
  apply elem_of_dom. by rewrite Hdom.
Qed.

Lemma run_wave_results (wave : list AgentTask) (st st' : engine) :
  engine_inv handler user_query tasks st →
  (∀ id r, results st !! id = Some r → P id r) →
  (∀ task, task ∈ wave → task ∈ tasks) →
  Forall (λ task, Forall (λ dep, dep ∈ completed_tasks st) (dependencies task)) wave →
  (NoDup (task_id <$> tasks) →
     NoDup (task_id <$> wave) ∧ ∀ task, task ∈ wave → task_id task ∉ completed_tasks st) →
  run_wave handler user_query wave st = Continue st' →
  ∀ id r, results st' !! id = Some r → P id r.
Proof.
  revert st. induction wave as [|task wave IH]; intros st Hinv HP Hsub Hdeps Hfresh; simpl.
  - by intros [= <-].
  - destruct (run_task handler user_query task st) as [st1|] eqn:Hrun; [|done].
    apply Forall_cons in Hdeps as [Hdep Hdeps].
    assert (completed_tasks st1 = completed_tasks st ∪ {[task_id task]}) as Hc
      by (by apply run_task_continue in Hrun as [? _]).
    apply IH.
    + eapply run_task_inv; [done| | done | | done].
      * apply Hsub. left.
      * intros Hnd. apply (Hfresh Hnd). left.
    + eapply run_task_results; [apply Hinv|done| |done|done]. apply Hsub. left.
    + intros t Ht. apply Hsub. by right.
    + eapply Forall_impl; [exact Hdeps|]. intros t Ht. simpl in Ht.
      eapply Forall_impl; [exact Ht|]. intros dep Hd. simpl in Hd. rewrite Hc. set_solver.
    + intros Hnd. destruct (Hfresh Hnd) as [Hndw Hout].
      rewrite fmap_cons in Hndw. apply NoDup_cons in Hndw as [Hnotin Hndw].
      split; [done|]. intros t Ht. rewrite Hc.
      assert (task_id t ≠ task_id task).
      { intros Heq. apply Hnotin. rewrite <- Heq. apply list_elem_of_fmap. eauto. }
      assert (task_id t ∉ completed_tasks st) by (apply Hout; by right).
      set_solver.
Qed.

Lemma run_loop_results (fuel : nat) (st : engine) (out : list event)
    (res : gmap string json) :
  engine_inv handler user_query tasks st →
  (∀ id r, results st !! id = Some r → P id r) →
  run_loop handler user_query fuel tasks st = Some (out, Return res) →
  ∀ id r, res !! id = Some r → P id r.
Proof.
  revert st. induction fuel as [|fuel IH]; intros st Hinv HP; [done|].
  rewrite run_loop_S.
  destruct (decide (size (completed_tasks st) < length tasks)); [|by intros [= <- <-]].
  destruct (ready_tasks tasks (completed_tasks st)) as [|task wave] eqn:Hready;
    [by intros [= <- <-]|].
  rewrite <- Hready.
  destruct (run_wave handler user_query _ st) as [st'|] eqn:Hwave; [|done].
  apply IH; [by eapply ready_wave_inv|].
  eapply run_wave_results; [done|done| | | |done].
  - by intros t [_ ?]%ready_tasks_spec.
  - apply Forall_forall. by intros t [[_ ?] _]%ready_tasks_spec.
  - intros Hnd. split; [by apply ready_tasks_NoDup|].
    by intros t [[? _] _]%ready_tasks_spec.
Qed.

Lemma execute_plan_results (out : list event) (res : gmap string json) :
  execute_plan handler user_query tasks = Some (out, Return res) →
  ∀ id r, res !! id = Some r → P id r.
Proof.
  apply run_loop_results; [apply initial_inv|]. intros id r. simpl.
  by rewrite lookup_empty.
Qed.
End ResultsFacts.

Section PlanFacts.
Context (handler : AgentTask → gmap string json → string → outcome json).
Context (user_query : string) (tasks : list AgentTask).

(** A valid plan that is not left by an exception has a result for every
    task, recorded for that task. *)
Lemma valid_plan_results (out : list event) (res : gmap string json) :
  valid_plan tasks →
  execute_plan handler user_query tasks = Some (out, Return res) →
  dom res = list_to_set (task_id <$> tasks)
  ∧ ∀ task, task ∈ tasks →
      ∃ r, res !! task_id task = Some r ∧ recorded handler user_query task r.
Proof.
  intros Hvalid Hrun.
  pose proof (run_loop_result handler user_query _ _ _ _ _
                (initial_inv handler user_query tasks) Hrun) as Hres.
  destruct Hres as (st & Hinv & -> & [[-> Hfull] | (_ & Hlt & Hnone)]).
  2:{ exfalso. eapply ready_tasks_nonempty; [done| |done|done]. apply Hinv. }
  destruct Hinv as [Hdom Hc Hrec Hdisp Honce].
  pose proof (unique_ids _ Hvalid) as Hnd.
  assert (completed_tasks st = list_to_set (task_id <$> tasks)) as Hall.
  { apply set_subseteq_size_eq; [by apply completes_subseteq|].
    rewrite size_list_to_set, length_fmap by done. done. }
  split; [by rewrite Hdom|].
  intros task Hin.
  assert (task_id task ∈ dom (results st)) as [r Hr]%elem_of_dom.
  { rewrite Hdom, Hall. apply elem_of_list_to_set, list_elem_of_fmap. eauto. }
  exists r. split; [done|].
  destruct (Hrec _ _ Hr) as (task' & Hin' & Hid & Hrecorded).
  by rewrite <- (same_id_same_task tasks task' task Hnd Hin' Hin Hid).
Qed.

(** The ids in the result map are ids of the plan. *)
Lemma results_are_of_tasks (out : list event) (res : gmap string json) :
  execute_plan handler user_query tasks = Some (out, Return res) →
  dom res ⊆ list_to_set (task_id <$> tasks).
Proof.
  intros Hrun.
  pose proof (run_loop_result handler user_query _ _ _ _ _
                (initial_inv handler user_query tasks) Hrun) as (st & Hinv & -> & _).
  rewrite (inv_dom _ _ _ _ Hinv). apply completes_subseteq, Hinv.
Qed.

(** Only a critical task that raises makes the engine raise. *)
Lemma execute_plan_returns :
  (∀ task previous_results e,
      task ∈ tasks → is_critical (task_type task) = true →
      handler task previous_results user_query ≠ Raise e) →
  ∃ out res, execute_plan handler user_query tasks = Some (out, Return res).
Proof.
  intros Hsafe.
  destruct (execute_plan_terminates handler user_query tasks) as [[out o] Hrun].
  pose proof (run_loop_result handler user_query _ _ _ _ _
                (initial_inv handler user_query tasks) Hrun) as Hres.
  destruct o as [res|e]; [eauto|].
  destruct Hres as (task & prev & Hin & Hcrit & Hraise & _).
  by destruct (Hsafe task prev e).
Qed.
End PlanFacts.
(** ** The handlers behind the engine *)

Lemma order_lookup (order : gmap string json → pydict) (m : gmap string json)
    (key : string) :
  (∀ m, order m ≡ₚ map_to_list m) →
  NoDup (order m).*1 ∧ item_of key (order m) = m !! key.
Proof.
  intros Horder.
  assert (NoDup (order m).*1) as Hnd.
  { rewrite (Horder m). apply NoDup_fst_map_to_list. }
  split; [done|].
  destruct (m !! key) as [v|] eqn:Hlook.
  - apply item_of_Some; [done|]. rewrite (Horder m). by apply elem_of_map_to_list.
  - apply item_of_None. rewrite (Horder m).
    intros ([k v] & -> & Hin%elem_of_map_to_list)%list_elem_of_fmap.
    simpl in Hlook. congruence.
Qed.

(** A key that the task does not name among its inputs resolves to the
    result recorded under it. *)
Lemma resolve_previous_result (order : gmap string json → pydict) (task : AgentTask)
    (fields : pydict) (previous_results : gmap string json) (user_query : string) :
  (∀ m, order m ≡ₚ map_to_list m) →
  input_data task = JObj fields →
  NoDup fields.*1 →
  ∃ resolved,
    _resolve_task_inputs task (order previous_results) user_query = Return resolved
    ∧ ∀ key r, item_of key fields = None → previous_results !! key = Some r →
               item_of key resolved = Some r.
Proof.
  intros Horder Hinput Hfields. unfold _resolve_task_inputs. rewrite Hinput.
  eexists. split; [reflexivity|]. intros key r Hnone Hprev.
  destruct (order_lookup order previous_results key Horder) as [Hnd Hlook].
  rewrite (item_of_assign_all (resolve_value (order previous_results))), Hnone by done.
  pose proof (item_of_assign_all (λ r : json, r) key (order previous_results)
                [("original_query", JStr user_query)] Hnd) as Hall.
  cbv beta in Hall. by rewrite Hall, Hlook, Hprev.
Qed.

Lemma lacks_get (r : json) (key : string) (d : json) :
  lacks key r → py_get r key d = Return d.
Proof. intros (fields & -> & Hnone). simpl. by rewrite get_item_of, Hnone. Qed.

(** Without confirmed tables no query is generated. *)
Lemma query_generation_without_confirmed_tables (t : tools) (inputs : pydict)
    (verification : json) :
  item_of "4_user_verification" inputs = Some verification →
  lacks "confirmed_tables" verification →
  ∃ r, _execute_query_generation t inputs = Return r
       ∧ has_status "failed" r ∧ lacks "sql_query" r.
Proof.
  intros Hin Hlacks. unfold _execute_query_generation, input_of.
  rewrite Hin, (lacks_get _ _ _ Hlacks).
  destruct (import_sql_runner t) as [[]|e]; simpl.
  - eexists. split; [reflexivity|]. split; eexists; split; reflexivity.
  - eexists. split; [reflexivity|]. split; [apply failed_with_status|].
    by apply failed_with_lacks.
Qed.

(** Without a query nothing is executed. *)
Lemma query_execution_without_query (t : tools) (inputs : pydict) (generation : json) :
  item_of "5_query_generation" inputs = Some generation →
  lacks "sql_query" generation →
  ∃ r, _execute_query_execution t inputs = Return r
       ∧ has_status "failed" r ∧ lacks "results" r.
Proof.
  intros Hin Hlacks. unfold _execute_query_execution, input_of.
  rewrite Hin, (lacks_get _ _ _ Hlacks).
  destruct (import_sql_runner t) as [[]|e]; simpl.
  2:{ eexists. split; [reflexivity|]. split; [apply failed_with_status|].
      by apply failed_with_lacks. }
  destruct (new_sql_runner t) as [[]|e]; simpl.
  - eexists. split; [reflexivity|]. split; eexists; split; reflexivity.
  - eexists. split; [reflexivity|]. split; [apply failed_with_status|].
    by apply failed_with_lacks.
Qed.

(** Without rows nothing is drawn. *)
Lemma visualization_without_results (t : tools) (inputs : pydict) (execution : json) :
  item_of "6_query_execution" inputs = Some execution →
  lacks "results" execution →
  ∃ r, _execute_visualization t inputs = Return r ∧ has_status "failed" r.
Proof.
  intros Hin Hlacks. unfold _execute_visualization, input_of.
  rewrite Hin, (lacks_get _ _ _ Hlacks).
  destruct (new_chart_builder t) as [[]|e]; simpl.
  - eexists. split; [reflexivity|]. eexists; split; reflexivity.
  - eexists. split; [reflexivity|]. apply failed_with_status.
Qed.

Section DefaultPlanRun.
Context (t : tools) (order : gmap string json → pydict) (user_query : string).
Hypothesis order_lists : ∀ m, order m ≡ₚ map_to_list m.

(** In the default plan only user verification is critical, and it
    answers. *)
Lemma default_plan_critical_answers (task : AgentTask)
    (previous_results : gmap string json) (e : exn) :
  task ∈ _create_default_plan user_query →
  is_critical (task_type task) = true →
  dispatcher t order task previous_results user_query ≠ Raise e.
Proof.
  intros Hin Hcrit. unfold _create_default_plan in Hin.
  repeat (apply elem_of_cons in Hin as [-> | Hin]); try discriminate Hcrit;
    [|by apply elem_of_nil in Hin].
  unfold dispatcher, _execute_single_task, _resolve_task_inputs. cbn [input_data task_type].
  cbn [mbind outcome_bind].
  match goal with
  | |- _execute_user_verification ?inputs ≠ _ =>
      destruct (user_verification_lacks_confirmed_tables inputs) as (r & -> & _)
  end.
  done.
Qed.

(** Each of the last four steps of the default plan, whatever came
    before. *)
Lemma default_plan_recorded (task : AgentTask) (previous_results : gmap string json)
    (r : json) :
  task ∈ _create_default_plan user_query →
  Forall (λ dep, is_Some (previous_results !! dep)) (dependencies task) →
  (∀ id r',
      previous_results !! id = Some r' →
      (id = "4_user_verification" → lacks "confirmed_tables" r')
      ∧ (id = "5_query_generation" → has_status "failed" r' ∧ lacks "sql_query" r')
      ∧ (id = "6_query_execution" → has_status "failed" r' ∧ lacks "results" r')
      ∧ (id = "7_visualization" → has_status "failed" r')) →
  (dispatcher t order task previous_results user_query = Return r
   ∨ ∃ e, dispatcher t order task previous_results user_query = Raise e
          ∧ is_critical (task_type task) = false
          ∧ r = fallback_result e) →
  (task_id task = "4_user_verification" → lacks "confirmed_tables" r)
  ∧ (task_id task = "5_query_generation" → has_status "failed" r ∧ lacks "sql_query" r)
  ∧ (task_id task = "6_query_execution" → has_status "failed" r ∧ lacks "results" r)
  ∧ (task_id task = "7_visualization" → has_status "failed" r).
Proof.
  intros Hin Hdeps Hprev Hrec. unfold _create_default_plan in Hin.
  repeat (apply elem_of_cons in Hin as [-> | Hin]); [..|by apply elem_of_nil in Hin];
    cbn [task_id]; (split; [|split; [|split]]); intros Hid; try discriminate Hid; clear Hid;
    cbn [dependencies] in Hdeps;
    apply Forall_cons in Hdeps as [[before Hbefore] _];
    pose proof (Hprev _ _ Hbefore) as (H4 & H5 & H6 & H7);
    match type of Hrec with
    | context [dispatcher t order ?task _ _] =>
        (destruct (resolve_previous_result order task _ previous_results user_query
                     order_lists eq_refl) as (resolved & Hresolved & Hlookup);
           [apply (bool_decide_unpack _); by vm_compute|])
    end;
    unfold dispatcher, _execute_single_task in Hrec; rewrite Hresolved in Hrec;
    cbn [task_type mbind outcome_bind is_critical] in Hrec;
    (eapply Hlookup in Hbefore; [|reflexivity]); clear Hlookup; rename Hbefore into Hlookup.
  - destruct (user_verification_lacks_confirmed_tables resolved) as (r' & Hr' & Hlacks).
    rewrite Hr' in Hrec. by destruct Hrec as [[= <-] | (e & [=] & _)].
  - destruct (query_generation_without_confirmed_tables t resolved before Hlookup (H4 eq_refl))
      as (r' & Hr' & Hfailed & Hlacks).
    rewrite Hr' in Hrec. by destruct Hrec as [[= <-] | (e & [=] & _)].
  - destruct (query_execution_without_query t resolved before Hlookup (proj2 (H5 eq_refl)))
      as (r' & Hr' & Hfailed & Hlacks).
    rewrite Hr' in Hrec. by destruct Hrec as [[= <-] | (e & [=] & _)].
  - destruct (visualization_without_results t resolved before Hlookup (proj2 (H6 eq_refl)))
      as (r' & Hr' & Hfailed).
    rewrite Hr' in Hrec. by destruct Hrec as [[= <-] | (e & [=] & _)].
Qed.
End DefaultPlanRun.

(** X14.  A plan with a validation task cannot complete.  No handler is
    wired to [TaskType.VALIDATION]: [_execute_single_task] raises for it,
    and the engine treats the task as critical.  So for every valid plan
    that holds such a task [execute_plan] ends with an exception, whatever
    the collaborators answer. *)
Theorem validation_task_aborts_the_plan (t : tools) (order : gmap string json → pydict)
    (user_query : string) (tasks : list AgentTask) (task : AgentTask) :
  valid_plan tasks →
  task ∈ tasks →
  task_type task = VALIDATION →
  ∃ out e, execute_plan (dispatcher t order) user_query tasks = Some (out, Raise e).
Proof.
  intros Hvalid Hin Hty.
  destruct (execute_plan_terminates (dispatcher t order) user_query tasks) as [[out o] Hrun].
  destruct o as [res|e]; [exfalso|eauto].
  destruct (valid_plan_results _ _ _ _ _ Hvalid Hrun) as [_ Hall].
  destruct (Hall task Hin) as (r & _ & prev & Hrec).
  unfold dispatcher, _execute_single_task in Hrec. rewrite Hty in Hrec.
  destruct (_resolve_task_inputs task (order prev) user_query); simpl in Hrec;
    by destruct Hrec as [[=] | (e' & _ & [=] & _)].
Qed.

(** A plan whose only task is a validation. *)
Lemma validation_task_aborts_the_plan_witness :
  ∃ out e,
    execute_plan (dispatcher working_tools map_to_list) "top customers"
      [plain_task "1_validate" VALIDATION []] = Some (out, Raise e).
Proof.
  apply (validation_task_aborts_the_plan working_tools map_to_list "top customers"
           [plain_task "1_validate" VALIDATION []] (plain_task "1_validate" VALIDATION [])).
  - split.
    + apply (bool_decide_unpack _). by vm_compute.
    + intros task dep ->%list_elem_of_singleton Hdep. by apply elem_of_nil in Hdep.
    + apply (acyclic_by_rank _ (λ _, 0)).
      intros a b (task & ->%list_elem_of_singleton & _ & Hdep). by apply elem_of_nil in Hdep.
  - by apply list_elem_of_singleton.
  - reflexivity.
Defined.

(** X15.  The result of user verification never yields a query.
    [_execute_user_verification] stores its selection under
    [approved_tables]; [_execute_query_generation] reads
    [confirmed_tables] from that result.  So whenever query generation is
    given a result of user verification as [4_user_verification], it
    returns status [failed] and no [sql_query], whatever the verification
    selected. *)
Theorem verification_result_never_yields_a_query (t : tools)
    (verification_inputs inputs : pydict) (verification : json) :
  _execute_user_verification verification_inputs = Return verification →
  item_of "4_user_verification" inputs = Some verification →
  ∃ r, _execute_query_generation t inputs = Return r
       ∧ has_status "failed" r ∧ lacks "sql_query" r.
Proof.
  intros Hverified Hin.
  destruct (user_verification_lacks_confirmed_tables verification_inputs)
    as (r' & Hr' & Hlacks).
  rewrite Hverified in Hr'. injection Hr' as <-.
  by apply (query_generation_without_confirmed_tables t inputs verification).
Qed.

(** A verification that selected the table [orders]. *)
Lemma verification_result_never_yields_a_query_witness :
  ∃ r, _execute_query_generation working_tools
         [("original_query", JStr "top customers");
          ("4_user_verification",
           verification_result (JArr [JStr "orders"]) "discovered_fallback" (JArr []))]
       = Return r
       ∧ has_status "failed" r ∧ lacks "sql_query" r.
Proof.
  apply (verification_result_never_yields_a_query working_tools
           [("1_discover_schema", JObj [("discovered_tables", JArr [JStr "orders"])])]
           _
           (verification_result (JArr [JStr "orders"]) "discovered_fallback" (JArr []))).
  - reflexivity.
  - reflexivity.
Defined.

(** X16.  The default plan never runs a query.  Whenever the
    planner hands out the default plan, [process_query] with the handlers
    of the orchestrator answers with status [completed], while the results
    it carries for query generation, query execution and visualization
    all have status [failed]: no query is generated, none is executed and
    nothing is drawn, whatever the collaborators answer or raise. *)
Theorem default_plan_never_runs_a_query
    (json_loads : string → outcome (list json)) (hash : string → Z) (t : tools)
    (order : gmap string json → pydict) (reply : model_reply)
    (user_query user_id session_id : string) :
  (∀ m, order m ≡ₚ map_to_list m) →
  plan_execution json_loads reply user_query = Some <$> _create_default_plan user_query →
  ∃ plan_id steps time tasks results generation execution visualization,
    process_query json_loads hash (dispatcher t order) reply user_query user_id session_id
    = Some (Answered plan_id user_query steps time tasks "completed" results)
    ∧ results !! "5_query_generation" = Some generation
    ∧ has_status "failed" generation ∧ lacks "sql_query" generation
    ∧ results !! "6_query_execution" = Some execution
    ∧ has_status "failed" execution ∧ lacks "results" execution
    ∧ results !! "7_visualization" = Some visualization
    ∧ has_status "failed" visualization.
Proof.
  intros Horder Hplan. unfold process_query. rewrite Hplan.
  rewrite (mapM_fmap_Some (λ task : option AgentTask, task) Some) by done.
  destruct (execute_plan_returns (dispatcher t order) user_query
              (_create_default_plan user_query)) as (out & res & Hrun).
  { intros task prev e. by apply default_plan_critical_answers. }
  cbn [mbind option_bind]. rewrite Hrun. cbn [mbind option_bind snd].
  destruct (valid_plan_results _ _ _ _ _ (default_plan_valid user_query) Hrun)
    as [Hdom Hall].
  pose proof (execute_plan_results _ _ _ _
                (default_plan_recorded t order user_query Horder) _ _ Hrun) as Hres.
  destruct (decide ("error" ∈ dom res)) as [Herror|_].
  { rewrite Hdom in Herror. exfalso. revert Herror. apply (bool_decide_unpack _). by vm_compute. }
  assert (∀ id, id ∈ task_id <$> _create_default_plan user_query → is_Some (res !! id))
    as Hsome.
  { intros id Hid. apply elem_of_dom. rewrite Hdom. by apply elem_of_list_to_set. }
  destruct (Hsome "5_query_generation") as [r5 H5];
    [apply (bool_decide_unpack _); by vm_compute|].
  destruct (Hsome "6_query_execution") as [r6 H6];
    [apply (bool_decide_unpack _); by vm_compute|].
  destruct (Hsome "7_visualization") as [r7 H7];
    [apply (bool_decide_unpack _); by vm_compute|].
  destruct (Hres _ _ H5) as (_ & [? ?] & _); [done|].
  destruct (Hres _ _ H6) as (_ & _ & [? ?] & _); [done|].
  destruct (Hres _ _ H7) as (_ & _ & _ & ?).
  do 5 eexists. exists r5, r6, r7. split; [reflexivity|]. naive_solver.
Qed.

(** The model cannot be reached, every collaborator answers. *)
Lemma default_plan_never_runs_a_query_witness :
  ∃ plan_id steps time tasks results generation execution visualization,
    process_query (λ _, Raise (Exn ValueError "Expecting value")) (λ _, 0%Z)
      (dispatcher working_tools map_to_list) (ModelRaises (Exn OtherError "Connection error."))
      "top customers" "default" "default"
    = Some (Answered plan_id "top customers" steps time tasks "completed" results)
    ∧ results !! "5_query_generation" = Some generation
    ∧ has_status "failed" generation ∧ lacks "sql_query" generation
    ∧ results !! "6_query_execution" = Some execution
    ∧ has_status "failed" execution ∧ lacks "results" execution
    ∧ results !! "7_visualization" = Some visualization
    ∧ has_status "failed" visualization.
Proof.
  apply (default_plan_never_runs_a_query
           (λ _, Raise (Exn ValueError "Expecting value")) (λ _, 0%Z) working_tools
           map_to_list (ModelRaises (Exn OtherError "Connection error."))
           "top customers" "default" "default").
  - reflexivity.
  - reflexivity.
Defined.
(** X17.  Failures of ordinary tasks are reported as [completed].
    [process_query] looks for the key [error] among the task ids of the
    result map, not inside the results.  So for a plan without critical
    tasks and without a task named [error] it answers with status
    [completed] whatever the handlers do, also when every one of them
    raises; and the answer carries a result for no other id than those of
    the plan. *)
Theorem ordinary_failures_are_reported_completed
    (json_loads : string → outcome (list json)) (hash : string → Z)
    (handler : AgentTask → gmap string json → string → outcome json)
    (reply : model_reply) (user_query user_id session_id : string)
    (tasks : list AgentTask) :
  plan_execution json_loads reply user_query = Some <$> tasks →
  (∀ task, task ∈ tasks → is_critical (task_type task) = false) →
  (∀ task, task ∈ tasks → task_id task ≠ "error") →
  ∃ plan_id steps time types results,
    process_query json_loads hash handler reply user_query user_id session_id
    = Some (Answered plan_id user_query steps time types "completed" results)
    ∧ dom results ⊆ list_to_set (task_id <$> tasks).
Proof.
  intros Hplan Hordinary Hnames. unfold process_query. rewrite Hplan.
  rewrite (mapM_fmap_Some (λ task : option AgentTask, task) Some) by done.
  destruct (execute_plan_returns handler user_query tasks) as (out & res & Hrun).
  { intros task prev e Hin Hcrit. rewrite Hordinary in Hcrit; done. }
  cbn [mbind option_bind]. rewrite Hrun. cbn [mbind option_bind snd].
  pose proof (results_are_of_tasks _ _ _ _ _ Hrun) as Hsub.
  destruct (decide ("error" ∈ dom res)) as [Herror|_].
  { apply Hsub, elem_of_list_to_set, list_elem_of_fmap in Herror as (task & Hid & Hin).
    by destruct (Hnames task Hin). }
  do 5 eexists. split; [reflexivity|done].
Qed.

(** A plan of two ordinary tasks, every handler raises. *)
Lemma ordinary_failures_are_reported_completed_witness :
  ∃ plan_id steps time types results,
    process_query
      (λ _, Return [JObj [("task_id", JStr "1_discover"); ("task_type", JStr "schema_discovery")];
                    JObj [("task_id", JStr "2_build"); ("task_type", JStr "query_generation");
                          ("dependencies", JArr [JStr "1_discover"])]])
      (λ _, 0%Z) failing_handler (ModelContent (Some "[...]"))
      "top customers" "default" "default"
    = Some (Answered plan_id "top customers" steps time types "completed" results)
    ∧ dom results ⊆ list_to_set ["1_discover"; "2_build"].
Proof.
  apply (ordinary_failures_are_reported_completed
           (λ _, Return [JObj [("task_id", JStr "1_discover");
                               ("task_type", JStr "schema_discovery")];
                         JObj [("task_id", JStr "2_build");
                               ("task_type", JStr "query_generation");
                               ("dependencies", JArr [JStr "1_discover"])]])
           (λ _, 0%Z) failing_handler (ModelContent (Some "[...]"))
           "top customers" "default" "default"
           [ {| task_id := "1_discover"; task_type := SCHEMA_DISCOVERY;
                input_data := JObj []; required_output := JObj []; constraints := JObj [];
                dependencies := [] |};
             {| task_id := "2_build"; task_type := QUERY_GENERATION;
                input_data := JObj []; required_output := JObj []; constraints := JObj [];
                dependencies := ["1_discover"] |} ]).
  - by vm_compute.
  - intros task Hin. repeat (apply elem_of_cons in Hin as [-> | Hin]); try done.
    by apply elem_of_nil in Hin.
  - intros task Hin. repeat (apply elem_of_cons in Hin as [-> | Hin]); try done.
    by apply elem_of_nil in Hin.
Defined.
(** ** The planner and the descriptors of the model *)

Lemma TaskType_of_value (v : json) (ty : TaskType) :
  TaskType_of v = Return ty → v = JStr (value ty).
Proof.
  destruct v as [| | |s| |]; try done. unfold TaskType_of.
  destruct (List.find _ all_task_types) as [ty'|] eqn:Hfind; [|done].
  intros [= ->]. apply List.find_some in Hfind as [_ Heq].
  apply String.eqb_eq in Heq. by rewrite Heq.
Qed.

Lemma convert_task_raises (n : nat) (task_data : json) :
  (∀ fields ty, task_data = JObj fields → get fields "task_type" JNull ≠ JStr (value ty)) →
  ∃ e, convert_task n task_data = Raise e.
Proof.
  intros Hbad. destruct task_data as [| | | | |fields]; simpl; eauto.
  destruct (TaskType_of (get fields "task_type" JNull)) as [ty|e] eqn:Hty; simpl; eauto.
  apply TaskType_of_value in Hty. by destruct (Hbad fields ty).
Qed.

(** The conversion is all or nothing. *)
Lemma convert_from_raises (tasks : list (option AgentTask)) (tasks_data : list json)
    (task_data : json) :
  task_data ∈ tasks_data →
  (∀ fields ty, task_data = JObj fields → get fields "task_type" JNull ≠ JStr (value ty)) →
  ∃ e, convert_from tasks tasks_data = Raise e.
Proof.
  intros Hin Hbad. revert tasks.
  induction tasks_data as [|first rest IH]; intros tasks; [by apply elem_of_nil in Hin|].
  cbn [convert_from].
  apply elem_of_cons in Hin as [<- | Hin].
  - destruct (convert_task_raises (length tasks) task_data Hbad) as [e ->]. simpl. eauto.
  - destruct (convert_task (length tasks) first) as [task|e]; simpl; [by apply IH|eauto].
Qed.

(** X18.  One bad descriptor discards the plan of the model.  When the
    array that the model returned holds a descriptor that is not an
    object, or whose [task_type] is not the value of a member of
    [TaskType] (the name of an agent, say), [plan_execution] drops all the
    descriptors of the model and returns the default plan. *)
Theorem one_bad_descriptor_discards_the_plan
    (json_loads : string → outcome (list json)) (content text : string)
    (tasks_data : list json) (task_data : json) (user_query : string) :
  re_search_array content = Some text →
  json_loads text = Return tasks_data →
  task_data ∈ tasks_data →
  (∀ fields ty, task_data = JObj fields → get fields "task_type" JNull ≠ JStr (value ty)) →
  plan_execution json_loads (ModelContent (Some content)) user_query
  = Some <$> _create_default_plan user_query.
Proof.
  intros Htext Hloads Hin Hbad. apply plan_execution_falls_back.
  unfold task_array. simpl. rewrite Htext. simpl. rewrite Hloads. simpl.
  unfold _convert_to_agent_tasks.
  by destruct (convert_from_raises [] tasks_data task_data Hin Hbad) as [e ->].
Qed.

(** Two descriptors, the second with the name of an agent as its type. *)
Lemma one_bad_descriptor_discards_the_plan_witness :
  plan_execution
    (λ _, Return [JObj [("task_id", JStr "1_discover"); ("task_type", JStr "schema_discovery")];
                  JObj [("task_id", JStr "2_build"); ("task_type", JStr "query_builder")]])
    (ModelContent (Some "Plan: [...]")) "top customers"
  = Some <$> _create_default_plan "top customers".
Proof.
  apply (one_bad_descriptor_discards_the_plan
           (λ _, Return [JObj [("task_id", JStr "1_discover");
                               ("task_type", JStr "schema_discovery")];
                         JObj [("task_id", JStr "2_build");
                               ("task_type", JStr "query_builder")]])
           "Plan: [...]" "[...]"
           [JObj [("task_id", JStr "1_discover"); ("task_type", JStr "schema_discovery")];
            JObj [("task_id", JStr "2_build"); ("task_type", JStr "query_builder")]]
           (JObj [("task_id", JStr "2_build"); ("task_type", JStr "query_builder")])).
  - reflexivity.
  - reflexivity.
  - apply elem_of_cons. right. apply elem_of_cons. by left.
  - intros fields ty [= <-]. by destruct ty.
Defined.

(** ** The startup *)

Lemma full_indexing_flag (env : environment) (self : orchestrator) :
  _index_initialized (_perform_full_database_indexing env self).1 = true →
  _index_initialized self = true
  ∨ ∃ before, (_perform_full_database_indexing env self).2
              = before ++ [ClearIndex; IndexDatabaseSchema; DescribeIndexStats].
Proof.
  unfold _perform_full_database_indexing, _initialize_vector_store.
  destruct self as [[store|] [conn|] flag]; simpl;
    try destruct (make_vector_store env) as [store|]; simpl;
    try destruct (get_adapter env) as [[conn|]|]; simpl;
    try destruct (index_database_schema store); simpl;
    try destruct (describe_index_stats_after store); simpl;
    intros Hflag;
    first [ by left
          | right; by eexists []
          | right; by eexists [_]
          | right; by eexists [_; _] ].
Qed.

(** The check keeps the store and the connector it was given, and sets
    the flag only at the end of a rebuild. *)
Lemma check_flag (env : environment) (self : orchestrator) :
  _index_initialized (_check_and_perform_comprehensive_indexing env self).1 = true →
  _index_initialized self = true
  ∨ ∃ before, (_check_and_perform_comprehensive_indexing env self).2
              = before ++ [ClearIndex; IndexDatabaseSchema; DescribeIndexStats].
Proof.
  unfold _check_and_perform_comprehensive_indexing.
  destruct (pinecone_store self) as [store|]; [|by left].
  destruct (describe_index_stats store) as [total_vectors|]; [|by left].
  destruct (db_connector self) as [conn|]; [|by left].
  destruct (show_tables conn) as [rows|]; [|by left].
  destruct (_ && _); [|by left].
  pose proof (full_indexing_flag env self) as Hfull.
  destruct (_perform_full_database_indexing env self) as [self' calls]. simpl in *.
  intros Hflag. destruct (Hfull Hflag) as [?|[before ->]]; [by left|right].
  by exists ([DescribeIndexStats; ShowTables] ++ before).
Qed.

(** X19.  The startup marks the index as initialized only at the end of
    a rebuild.  [_index_initialized] is set by nothing but a full indexing
    run that went through: for an orchestrator whose flag is unset, the
    flag is set after [initialize_on_startup] only if the check ended by
    clearing the index, indexing the schema and reading the statistics.
    So when no schema was indexed (the check was not reached, or found
    nothing to rebuild), the flag stays unset and
    [initialize_vector_search] runs the whole startup again. *)
Theorem startup_marks_only_a_rebuilt_index (env : startup_environment)
    (self : orchestrator) :
  _index_initialized self = false →
  let after := (initialize_on_startup env self).1 in
  let calls := (initialize_on_startup env self).2 in
  (_index_initialized after = true →
     ∃ before, calls = before ++ [ClearIndex; IndexDatabaseSchema; DescribeIndexStats])
  ∧ (IndexDatabaseSchema ∉ calls →
       _index_initialized after = false
       ∧ initialize_vector_search env after = initialize_on_startup env after).
Proof.
  intros Hunset after calls.
  assert (_index_initialized after = true →
          ∃ before, calls = before ++ [ClearIndex; IndexDatabaseSchema; DescribeIndexStats])
    as Honly.
  { subst after calls. unfold initialize_on_startup.
    set (self1 := _initialize_vector_store _ _).
    assert (_index_initialized self1 = false) as Hunset1.
    { subst self1. unfold _initialize_vector_store, _initialize_database_connector.
      destruct (engine_get_adapter env); destruct (make_vector_store _); done. }
    destruct (pinecone_store self1); [|simpl; congruence].
    destruct (db_connector self1); [|simpl; congruence].
    intros Hflag. destruct (check_flag _ _ Hflag) as [?|?]; [congruence|done]. }
  split; [done|]. intros Hnone.
  assert (_index_initialized after = false) as Hafter.
  { destruct (_index_initialized after) eqn:Hflag; [|done].
    destruct (Honly eq_refl) as [before Hcalls]. destruct Hnone. rewrite Hcalls.
    apply elem_of_app. right. apply elem_of_cons. right. apply elem_of_cons. by left. }
  split; [done|]. unfold initialize_vector_search. by rewrite Hafter.
Qed.

(** A complete index of forty vectors for ten tables. *)
Lemma startup_marks_only_a_rebuilt_index_witness :
  let store := {| describe_index_stats := Return 40%Z; clear_index := Return ();
                  index_database_schema := Return ();
                  describe_index_stats_after := Return 40%Z |} in
  let conn := {| show_tables := Return (Some (replicate 10 ["TABLE"; "t"])) |} in
  let env := {| engine_get_adapter := Return (Some conn);
                indexing_environment := {| make_vector_store := Return store;
                                           get_adapter := Return (Some conn) |} |} in
  let self := {| pinecone_store := None; db_connector := None;
                 _index_initialized := false |} in
  _index_initialized (initialize_on_startup env self).1 = false
  ∧ initialize_vector_search env (initialize_on_startup env self).1
    = initialize_on_startup env (initialize_on_startup env self).1.
Proof.
  intros store conn env self.
  apply (startup_marks_only_a_rebuilt_index env self eq_refl).
  apply (bool_decide_unpack _). by vm_compute.
Defined.
(** ** The bracketed text in the reply of the model *)

Lemma append_cons (x : ascii) (a b : string) : String x a +:+ b = String x (a +:+ b).
Proof. reflexivity. Qed.

Lemma append_assoc (a b c : string) : (a +:+ b) +:+ c = a +:+ (b +:+ c).
Proof. induction a as [|x a IH]; [done|]. rewrite !append_cons. f_equal. exact IH. Qed.

Lemma length_append (a b : string) :
  String.length (a +:+ b) = String.length a + String.length b.
Proof. induction a as [|x a IH]; [done|]. rewrite append_cons. simpl. f_equal. exact IH. Qed.

Lemma substring_all (b : string) (m : nat) :
  String.length b ≤ m → String.substring 0 m b = b.
Proof.
  revert m. induction b as [|x b IH]; intros m Hm; [by destruct m|].
  simpl in Hm. destruct m as [|m]; [lia|]. simpl. rewrite IH; [done|lia].
Qed.

Lemma substring_prefix (b c : string) :
  String.substring 0 (String.length b) (b +:+ c) = b.
Proof.
  induction b as [|x b IH]; [by destruct c|]. rewrite append_cons. simpl. f_equal. exact IH.
Qed.

Lemma substring_rest (a b : string) (m : nat) :
  String.length b ≤ m → String.substring (String.length a) m (a +:+ b) = b.
Proof.
  intros Hm. induction a as [|x a IH]; [exact (substring_all b m Hm)|].
  rewrite append_cons. exact IH.
Qed.

Lemma substring_middle (a b c : string) :
  String.substring (String.length a) (String.length b) (a +:+ b +:+ c) = b.
Proof.
  induction a as [|x a IH]; [exact (substring_prefix b c)|]. rewrite append_cons. exact IH.
Qed.

Lemma find_char_Some (c : ascii) (s : string) (i : nat) :
  find_char c s = Some i →
  ∃ a b, s = a +:+ String c b ∧ String.length a = i ∧ c ∉ list_ascii_of_string a.
Proof.
  revert i. induction s as [|x s IH]; intros i; [done|]. simpl.
  destruct (Ascii.eqb x c) eqn:Hx.
  - intros [= <-]. apply Ascii.eqb_eq in Hx as ->. exists "", s.
    split; [done|]. split; [done|]. apply not_elem_of_nil.
  - destruct (find_char c s) as [i'|]; [|done]. intros [= <-].
    destruct (IH i' eq_refl) as (a & b & -> & <- & Hnot).
    exists (String x a), b. split; [done|]. split; [done|]. simpl.
    apply Ascii.eqb_neq in Hx. apply not_elem_of_cons. split; [congruence|done].
Qed.

Lemma find_char_first (c : ascii) (a b : string) :
  c ∉ list_ascii_of_string a →
  find_char c (a +:+ String c b) = Some (String.length a).
Proof.
  induction a as [|x a IH]; intros Hnot.
  - change ("" +:+ String c b) with (String c b). simpl. by rewrite Ascii.eqb_refl.
  - simpl in Hnot. apply not_elem_of_cons in Hnot as [Hne Hnot].
    rewrite append_cons. simpl.
    rewrite (proj2 (Ascii.eqb_neq x c)) by congruence. by rewrite IH.
Qed.

Lemma rfind_char_None (c : ascii) (s : string) :
  rfind_char c s = None ↔ c ∉ list_ascii_of_string s.
Proof.
  induction s as [|x s IH]; simpl; [split; [intros _; apply not_elem_of_nil|done]|].
  destruct (rfind_char c s) as [j|].
  - split; [done|]. intros [_ Hnot]%not_elem_of_cons. by apply IH in Hnot.
  - destruct (Ascii.eqb x c) eqn:Hx.
    + apply Ascii.eqb_eq in Hx as ->. split; [done|]. intros []. by left.
    + apply Ascii.eqb_neq in Hx. split; [|done]. intros _.
      apply not_elem_of_cons. split; [congruence|]. by apply IH.
Qed.

Lemma rfind_char_Some (c : ascii) (s : string) (j : nat) :
  rfind_char c s = Some j →
  ∃ a b, s = a +:+ String c b ∧ String.length a = j ∧ c ∉ list_ascii_of_string b.
Proof.
  revert j. induction s as [|x s IH]; intros j; [done|]. simpl.
  destruct (rfind_char c s) as [j'|] eqn:Hrest.
  - intros [= <-]. destruct (IH j' eq_refl) as (a & b & -> & <- & Hnot).
    by exists (String x a), b.
  - destruct (Ascii.eqb x c) eqn:Hx; [|done]. intros [= <-].
    apply Ascii.eqb_eq in Hx as ->. exists "", s.
    split; [done|]. split; [done|]. by apply rfind_char_None.
Qed.

Lemma rfind_char_last (c : ascii) (a b : string) :
  c ∉ list_ascii_of_string b →
  rfind_char c (a +:+ String c b) = Some (String.length a).
Proof.
  intros Hnot. induction a as [|x a IH].
  - change ("" +:+ String c b) with (String c b). simpl.
    apply rfind_char_None in Hnot as ->. by rewrite Ascii.eqb_refl.
  - rewrite append_cons. simpl. by rewrite IH.
Qed.

(** X20.  What the planner hands to [json.loads].  The greedy pattern
    finds a text exactly when the reply holds an opening bracket with a
    closing bracket somewhere after it, and the text then runs from the
    first opening bracket of the reply to its last closing bracket,
    whatever stands between the two. *)
Theorem bracketed_text_spans_first_to_last (content text : string) :
  re_search_array content = Some text
  ↔ ∃ before middle after,
      content = before +:+ "[" +:+ middle +:+ "]" +:+ after
      ∧ ("["%char ∉ list_ascii_of_string before)
      ∧ ("]"%char ∉ list_ascii_of_string after)
      ∧ text = "[" +:+ middle +:+ "]".
Proof.
  unfold re_search_array. split.
  - destruct (find_char "[" content) as [i|] eqn:Hfirst; [|done]. simpl.
    apply find_char_Some in Hfirst as (before & rest & -> & <- & Hbefore).
    assert (String.substring (S (String.length before))
              (String.length (before +:+ String "[" rest)) (before +:+ String "[" rest)
            = rest) as ->.
    { change (before +:+ String "[" rest) with (before +:+ ("[" +:+ rest)).
      rewrite <- append_assoc.
      replace (S (String.length before)) with (String.length (before +:+ "["))
        by (rewrite length_append; simpl; lia).
      apply substring_rest. rewrite !length_append. lia. }
    destruct (rfind_char "]" rest) as [j|] eqn:Hlast; [|done]. simpl.
    apply rfind_char_Some in Hlast as (middle & after & -> & <- & Hafter).
    intros [= <-]. exists before, middle, after. split; [done|]. split; [done|].
    split; [done|].
    replace (String.length middle + 2) with (String.length ("[" +:+ middle +:+ "]"))
      by (rewrite !length_append; simpl; lia).
    change (before +:+ String "[" (middle +:+ String "]" after))
      with (before +:+ ("[" +:+ middle) +:+ ("]" +:+ after)).
    rewrite <- (append_assoc ("[" +:+ middle) "]" after).
    apply substring_middle.
  - intros (before & middle & after & -> & Hbefore & Hafter & ->).
    change (before +:+ "[" +:+ middle +:+ "]" +:+ after)
      with (before +:+ String "[" (middle +:+ String "]" after)).
    rewrite find_char_first by done. simpl.
    assert (String.substring (S (String.length before))
              (String.length (before +:+ String "[" (middle +:+ String "]" after)))
              (before +:+ String "[" (middle +:+ String "]" after))
            = middle +:+ String "]" after) as ->.
    { change (before +:+ String "[" (middle +:+ String "]" after))
        with (before +:+ ("[" +:+ (middle +:+ String "]" after))).
      rewrite <- append_assoc.
      replace (S (String.length before)) with (String.length (before +:+ "["))
        by (rewrite length_append; simpl; lia).
      apply substring_rest. rewrite !length_append. lia. }
    rewrite rfind_char_last by done. simpl. f_equal.
    replace (String.length middle + 2) with (String.length ("[" +:+ middle +:+ "]"))
      by (rewrite !length_append; simpl; lia).
    change (before +:+ String "[" (middle +:+ String "]" after))
      with (before +:+ ("[" +:+ middle) +:+ ("]" +:+ after)).
    rewrite <- (append_assoc ("[" +:+ middle) "]" after).
    apply substring_middle.
Qed.
(** ** Schema discovery without the vector store *)

(** The two shapes of what [_fallback_schema_discovery] returns. *)
Lemma fallback_discovery_cases (get_db : outcome adapter) (inputs : pydict) :
  ∃ r, _fallback_schema_discovery get_db inputs = Return r
       ∧ ((∃ db result kept,
              get_db = Return db
              ∧ db "SHOW TABLES IN SCHEMA ENHANCED_NBA LIMIT 10" = Return result
              ∧ truthy (error result) = false
              ∧ fallback_rows db 0 (take 4 (rows result)) = Return kept
              ∧ r = fallback_result_of kept)
          ∨ ∃ text, r = JObj [("error", JStr text); ("status", JStr "failed")]).
Proof.
  unfold _fallback_schema_discovery, try_except.
  destruct get_db as [db|e]; simpl; [|eauto].
  destruct (db _) as [result|e] eqn:Hshow; simpl; [|eauto].
  destruct (truthy (error result)) eqn:Herror; [eauto|].
  destruct (fallback_rows db 0 (take 4 (rows result))) as [kept|e] eqn:Hrows; simpl; [|eauto].
  eexists. split; [done|]. left. by exists db, result, kept.
Qed.

Lemma present_fallback_suggestions (kept : list kept_table) :
  present_suggestions (fallback_suggestion <$> kept) = Return ().
Proof. induction kept as [|table kept IH]; [done|]. rewrite fmap_cons. simpl. exact IH. Qed.

(** X21.  Tables found by the fallback discovery are approved by default
    and reported with high confidence.  When
    [_fallback_schema_discovery] has found at least one table, user
    verification of its result approves exactly the first table found;
    the choice is [default_first], never [auto_selected], since every
    suggestion of the fallback scores 0.5; and the result still carries
    confidence [high] and selection method [azure_enhanced]. *)
Theorem fallback_tables_are_approved_by_default
    (get_db : outcome adapter) (inputs verification_inputs : pydict)
    (discovery first : json) (others : list json) :
  _fallback_schema_discovery get_db inputs = Return discovery →
  py_get discovery "discovered_tables" (JArr []) = Return (JArr (first :: others)) →
  item_of "1_discover_schema" verification_inputs = Some discovery →
  (∀ matching, item_of "3_similarity_matching" verification_inputs = Some matching →
               ∃ fields, matching = JObj fields) →
  ∃ suggestions,
    _execute_user_verification verification_inputs
    = Return (JObj [("approved_tables", JArr [first]);
                    ("user_choice", JStr "default_first");
                    ("table_suggestions", JArr suggestions);
                    ("confidence", JStr "high");
                    ("selection_method", JStr "azure_enhanced");
                    ("status", JStr "completed")])
    ∧ length suggestions = S (length others).
Proof.
  intros Hdiscovery Htables Hin Hmatching.
  destruct (fallback_discovery_cases get_db inputs) as (r & Hr & Hshape).
  rewrite Hdiscovery in Hr. injection Hr as <-.
  destruct Hshape as [(db & result & kept & _ & _ & _ & _ & ->) | [text ->]];
    [|discriminate Htables].
  injection Htables as Htables.
  destruct kept as [|table kept]; [discriminate Htables|].
  rewrite fmap_cons in Htables. injection Htables as <- <-.
  exists (fallback_suggestion <$> table :: kept).
  split; [|by rewrite !length_fmap].
  unfold _execute_user_verification, input_of. rewrite Hin.
  destruct (item_of "3_similarity_matching" verification_inputs) as [matching|] eqn:Hsim.
  - destruct (Hmatching matching eq_refl) as [fields ->].
    cbn -[present_suggestions fallback_suggestion].
    change (fallback_suggestion table :: (fallback_suggestion <$> kept))
      with (fallback_suggestion <$> table :: kept).
    rewrite present_fallback_suggestions. reflexivity.
  - cbn -[present_suggestions fallback_suggestion].
    change (fallback_suggestion table :: (fallback_suggestion <$> kept))
      with (fallback_suggestion <$> table :: kept).
    rewrite present_fallback_suggestions. reflexivity.
Qed.

(** The table [ORDERS], found by the fallback. *)
Lemma fallback_tables_are_approved_by_default_witness :
  ∃ suggestions,
    _execute_user_verification
      [("original_query", JStr "top customers");
       ("1_discover_schema",
        fallback_result_of
          [(0, "ORDERS", [JObj [("name", JStr "ID"); ("data_type", JStr "NUMBER");
                                ("nullable", JBool false); ("description", JNull)]])])]
    = Return (JObj [("approved_tables", JArr [JStr "ORDERS"]);
                    ("user_choice", JStr "default_first");
                    ("table_suggestions", JArr suggestions);
                    ("confidence", JStr "high");
                    ("selection_method", JStr "azure_enhanced");
                    ("status", JStr "completed")])
    ∧ length suggestions = 1.
Proof.
  apply (fallback_tables_are_approved_by_default (Return listing_adapter)
           [("original_query", JStr "top customers")]
           [("original_query", JStr "top customers");
            ("1_discover_schema",
             fallback_result_of
               [(0, "ORDERS", [JObj [("name", JStr "ID"); ("data_type", JStr "NUMBER");
                                     ("nullable", JBool false); ("description", JNull)]])])]
           (fallback_result_of
              [(0, "ORDERS", [JObj [("name", JStr "ID"); ("data_type", JStr "NUMBER");
                                    ("nullable", JBool false); ("description", JNull)]])])
           (JStr "ORDERS") []).
  - reflexivity.
  - reflexivity.
  - reflexivity.
  - intros matching [=].
Defined.



